(** * xpybuild: the target wrapper of the incremental build engine

    A shallow embedding of [internal/targetwrapper.py] (class
    [TargetWrapper]), of the constructor of [CustomCommand] in
    [xpybuild/targets/custom.py], of [normpath] in
    [xpybuild/buildcommon.py] and of the generated include directories of
    [targets/native.py], with the properties of dependency resolution,
    the implicit-input fingerprint, the up-to-date check, the priority
    push and the build step stated over it.

    Conventions of the embedding:
    - Python 2 [str] values are [string]s of bytes;
    - a reference to a [TargetWrapper] object is the key under which
      [scheduler.targetwrappers] holds it, and the mutable wrappers live in
      that map (the shared store);
    - a raised exception is the [Raise] case of [result];
    - modification times are rationals, compared exactly as the floats
      are; the difference of two floats is rounded, and is a parameter. *)

From Stdlib Require Import QArith Ascii String Sorted.
From stdpp Require Import gmap strings list fin_maps pretty.

Open Scope string_scope.
Open Scope list_scope.

(** ** Exceptions and results *)

Inductive exn : Type :=
  | KeyError (key : string)
  | AssertionError (msg : string)
  | BuildException (msg : string)
  | OSError (path : string)
  | RecursionError
  | OtherException (msg : string).

Inductive result (A : Type) : Type :=
  | Ok (a : A)
  | Raise (e : exn).
Arguments Ok {A} a.
Arguments Raise {A} e.

#[global] Instance result_ret : MRet result := fun _ a => Ok a.
#[global] Instance result_bind : MBind result := fun _ _ f m =>
  match m with
  | Ok a => f a
  | Raise e => Raise e
  end.

(** [d[k]] on a dict: [KeyError] when the key is absent. *)
Definition getitem {A : Type} (d : gmap string A) (k : string) : result A :=
  match d !! k with
  | Some a => Ok a
  | None => Raise (KeyError k)
  end.

(** ** Python string operations used by the wrapper *)

Definition LF : ascii := "010"%char.
Definition CR : ascii := "013"%char.
Definition TAB : ascii := "009"%char.

Module PyStr.

(** [s.replace(old, new)] for a one-character [old], which is what every
    call in the wrapper passes. *)
Fixpoint replace (old : ascii) (new : string) (s : string) : string :=
  match s with
  | EmptyString => EmptyString
  | String c s' =>
      if Ascii.eqb c old then new +:+ replace old new s'
      else String c (replace old new s')
  end.

(** [s.startswith(pre)]. *)
Fixpoint startswith (s pre : string) {struct pre} : bool :=
  match pre with
  | EmptyString => true
  | String a pre' =>
      match s with
      | EmptyString => false
      | String b s' => Ascii.eqb a b && startswith s' pre'
      end
  end.

(** [sub in s]. *)
Fixpoint contains (sub s : string) : bool :=
  startswith s sub
  || match s with
     | EmptyString => false
     | String _ s' => contains sub s'
     end.

(** [s.split(sep)]: cut at the leftmost occurrence of [sep], go on after
    it. [skip] counts the characters of a matched separator still to be
    dropped. The result is never empty. (Python raises [ValueError] on
    an empty [sep]; the wrapper only splits on [os.linesep] and on a
    one-character literal.) *)
Fixpoint split_from (sep : string) (skip : nat) (s : string) : list string :=
  match s with
  | EmptyString => [EmptyString]
  | String c s' =>
      match skip with
      | S k => split_from sep k s'
      | O =>
          if startswith s sep
          then EmptyString :: split_from sep (String.length sep - 1) s'
          else match split_from sep 0 s' with
               | h :: t => String c h :: t
               | [] => [String c EmptyString]
               end
      end
  end.

Definition split (sep s : string) : list string := split_from sep 0 s.

(** [sep.join(l)]. *)
Definition join (sep : string) (l : list string) : string :=
  String.concat sep l.

(** [s[-1]] when [s] is not empty. *)
Fixpoint last_char (s : string) : option ascii :=
  match s with
  | EmptyString => None
  | String c EmptyString => Some c
  | String _ s' => last_char s'
  end.

(** [s[n:]]. *)
Fixpoint drop (n : nat) (s : string) : string :=
  match n, s with
  | O, _ => s
  | S _, EmptyString => EmptyString
  | S k, String _ s' => drop k s'
  end.

End PyStr.

(** A [str] coerced to [unicode], as [s.replace(u'...', u'...')] does with
    [s]: the default codec is ASCII, and a byte above 127 raises. *)
Fixpoint is_ascii (s : string) : bool :=
  match s with
  | EmptyString => true
  | String c s' => (nat_of_ascii c <? 128)%nat && is_ascii s'
  end.

Definition decode_ascii (s : string) : result string :=
  if is_ascii s then Ok s else Raise (OtherException "UnicodeDecodeError").

(** [os.linesep] is fixed by the platform the build runs on. *)
Inductive platform : Type := Posix | Windows.

Definition linesep (p : platform) : string :=
  match p with
  | Posix => String LF EmptyString
  | Windows => String CR (String LF EmptyString)
  end.

(** ** The filesystem and [utils.fileutils] *)

Inductive filekind : Type := RegularFile | Directory | OtherKind.

(** What [os.stat] reports of a path, and the bytes of a regular file. *)
Record node : Type := mkNode {
  st_kind : filekind;
  st_mtime : Q;
  st_data : string
}.

(** The files by long-path-safe path, and the time a write stamps. *)
Record filesystem : Type := mkFS {
  nodes : gmap string node;
  clock : Q
}.

(** [stat.S_ISREG], [stat.S_ISDIR] of the mode of a stat. *)
Definition S_ISREG (st : node) : bool :=
  match st_kind st with
  | RegularFile => true
  | _ => false
  end.

Definition S_ISDIR (st : node) : bool :=
  match st_kind st with
  | Directory => true
  | _ => false
  end.

Module fileutils.

(** Modelled from the spec: [utils/fileutils.py] is not among the
    sources. [buildcommon.py] documents [isDirPath] as "Returns true if
    the path is a directory (ends with a slash, / or \\)". *)
Definition isDirPath (path : string) : bool :=
  match PyStr.last_char path with
  | Some c => Ascii.eqb c "/" || Ascii.eqb c "\"
  | None => false
  end.

Section Primitives.
(** Modelled from the spec: [toLongPathSafe] is not among the sources;
    a path and its long-path-safe form name the same file, so every
    primitive finds the file under the long-path-safe form. *)
Variable toLongPathSafe : string -> string.

(** [getstat(path)]: the stat, or [False] ([None]) when missing. *)
Definition getstat (fs : filesystem) (path : string) : option node :=
  nodes fs !! toLongPathSafe path.

Definition exists_ (fs : filesystem) (path : string) : bool :=
  match getstat fs path with
  | Some _ => true
  | None => false
  end.

Definition isfile (fs : filesystem) (path : string) : bool :=
  match getstat fs path with
  | Some {| st_kind := RegularFile |} => true
  | _ => false
  end.

Definition isdir (fs : filesystem) (path : string) : bool :=
  match getstat fs path with
  | Some {| st_kind := Directory |} => true
  | _ => false
  end.

Definition getmtime (fs : filesystem) (path : string) : result Q :=
  match getstat fs path with
  | Some n => Ok (st_mtime n)
  | None => Raise (OSError path)
  end.

(** [deleteFile(path)]: no error when the file is already gone. *)
Definition deleteFile (path : string) (fs : filesystem) : filesystem :=
  mkFS (delete (toLongPathSafe path) (nodes fs)) (clock fs).

(** [mkdir(path)]: no error when the directory is already there. *)
Definition mkdir (path : string) (fs : filesystem) : filesystem :=
  match getstat fs path with
  | Some _ => fs
  | None =>
      mkFS (<[toLongPathSafe path := mkNode Directory (clock fs) EmptyString]>
              (nodes fs)) (clock fs)
  end.

(** [with io.open(path, 'rb') as f: f.read()]. *)
Definition read (fs : filesystem) (path : string) : result string :=
  match getstat fs path with
  | Some {| st_kind := RegularFile; st_data := d |} => Ok d
  | _ => Raise (OSError path)
  end.

(** [with openForWrite(path, 'wb') as f: f.write(data)]. *)
Definition write (path data : string) (fs : filesystem) : filesystem :=
  mkFS (<[toLongPathSafe path := mkNode RegularFile (clock fs) data]>
          (nodes fs)) (clock fs).
End Primitives.

End fileutils.

(** ** Targets, as the wrapper sees them *)

Record PathSet : Type := mkPathSet {
  pathset_repr : string;
  _skipDependenciesExistenceCheck : bool
}.

#[global] Instance PathSet_eq_dec : EqDecision PathSet.
Proof. solve_decision. Defined.

Module BaseTarget.
(** The attributes and the results of the hooks of a target that the
    wrapper reads: [_resolveUnderlyingDependencies(context)] yields
    [underlyingDependencies], [getHashableImplicitInputs(context)]
    returns [hashableImplicitInputs], [getPriority()] is [priority]. *)
Record t : Type := mk {
  name : string;
  path : string;
  workDir : string;
  priority : Z;
  underlyingDependencies : list (string * PathSet);
  hashableImplicitInputs : list string
}.

(** [==] on targets: object identity, a target being one object. *)
#[global] Instance eq_dec : EqDecision t.
Proof. solve_decision. Defined.
End BaseTarget.

Inductive level : Type := DEBUG | INFO | WARN.

(** A call of the logger: level, format string, the string arguments. *)
Inductive logrecord : Type :=
  | Log (lvl : level) (fmt : string) (args : list string).

(** ** Python list helpers *)

(** [for x in l: acc = f(acc, x)], stopping at the first exception. *)
Fixpoint foldM {A B : Type} (f : A -> B -> result A) (acc : A) (l : list B)
  : result A :=
  match l with
  | [] => Ok acc
  | x :: l' =>
      match f acc x with
      | Ok acc' => foldM f acc' l'
      | Raise e => Raise e
      end
  end.

(** [[f(x) for x in l]]. *)
Fixpoint mapM_result {A B : Type} (f : A -> result B) (l : list A)
  : result (list B) :=
  match l with
  | [] => Ok []
  | x :: l' =>
      match f x with
      | Ok y =>
          match mapM_result f l' with
          | Ok ys => Ok (y :: ys)
          | Raise e => Raise e
          end
      | Raise e => Raise e
      end
  end.

(** [sorted(l, key=key)] on string keys: the stable sort, bytes compared
    in order. *)
Fixpoint insert_sorted {A : Type} (key : A -> string) (x : A) (l : list A)
  : list A :=
  match l with
  | [] => [x]
  | y :: l' =>
      if String.leb (key x) (key y) then x :: y :: l'
      else y :: insert_sorted key x l'
  end.

Definition sorted {A : Type} (key : A -> string) (l : list A) : list A :=
  foldr (insert_sorted key) [] l.

(** Truth value of a list: non-empty. *)
Definition truthy {A : Type} (l : list A) : bool :=
  match l with
  | [] => false
  | _ :: _ => true
  end.

(** ** The target wrapper *)

Module TargetWrapper.

(** flags *)
Definition DEP_IS_DIR_PATH : Z := 2 ^ 1.
Definition DEP_SKIP_EXISTENCE_CHECK : Z := 2 ^ 2.

(** The slots of a wrapper. A wrapper held in [__targetdeps] or
    [__rdeps] is held by reference: by its key in
    [scheduler.targetwrappers]. [lock] guards sections that the
    single-threaded model runs whole; [__scheduler] is the state every
    method is passed. *)
Record t : Type := mk {
  target : BaseTarget.t;
  path : string;
  name : string;
  isDirPath : bool;
  depcount : Z;
  __targetdeps : option (list string);
  __nontargetdeps : option (list (string * Z * PathSet));
  __rdeps : list string;
  __isdirty : bool;
  __implicitInputs : option (list string);
  __implicitInputsFile : string;
  stampfile : string;
  effectivePriority : Z
}.

Definition set_rdeps (v : list string) (w : t) : t :=
  mk (target w) (path w) (name w) (isDirPath w) (depcount w)
     (__targetdeps w) (__nontargetdeps w) v (__isdirty w)
     (__implicitInputs w) (__implicitInputsFile w) (stampfile w)
     (effectivePriority w).

Definition set_isdirty (v : bool) (w : t) : t :=
  mk (target w) (path w) (name w) (isDirPath w) (depcount w)
     (__targetdeps w) (__nontargetdeps w) (__rdeps w) v
     (__implicitInputs w) (__implicitInputsFile w) (stampfile w)
     (effectivePriority w).

Definition set_implicitInputs (v : option (list string)) (w : t) : t :=
  mk (target w) (path w) (name w) (isDirPath w) (depcount w)
     (__targetdeps w) (__nontargetdeps w) (__rdeps w) (__isdirty w)
     v (__implicitInputsFile w) (stampfile w)
     (effectivePriority w).

Definition set_depcount (v : Z) (w : t) : t :=
  mk (target w) (path w) (name w) (isDirPath w) v
     (__targetdeps w) (__nontargetdeps w) (__rdeps w) (__isdirty w)
     (__implicitInputs w) (__implicitInputsFile w) (stampfile w)
     (effectivePriority w).

Definition set_deps (n : Z) (nontargetdeps : list (string * Z * PathSet))
    (targetdeps : list string) (w : t) : t :=
  mk (target w) (path w) (name w) (isDirPath w) n
     (Some targetdeps) (Some nontargetdeps) (__rdeps w) (__isdirty w)
     (__implicitInputs w) (__implicitInputsFile w) (stampfile w)
     (effectivePriority w).

Definition set_effectivePriority (v : Z) (w : t) : t :=
  mk (target w) (path w) (name w) (isDirPath w) (depcount w)
     (__targetdeps w) (__nontargetdeps w) (__rdeps w) (__isdirty w)
     (__implicitInputs w) (__implicitInputsFile w) (stampfile w) v.

(** [__getImplicitInputsFile]. *)
Definition __getImplicitInputsFile (target : BaseTarget.t) : string :=
  let x := PyStr.split "/" (PyStr.replace "\" "/" (BaseTarget.workDir target)) in
  PyStr.join "/" (removelast x) +:+ "/implicit-inputs/" +:+ List.last x EmptyString
    +:+ ".txt".

(** [__init__]. *)
Definition __init__ (target : BaseTarget.t) : t :=
  let isDirPath := fileutils.isDirPath (BaseTarget.name target) in
  let implicitInputsFile := __getImplicitInputsFile target in
  mk target (BaseTarget.path target) (BaseTarget.name target) isDirPath
     0 None None [] false None implicitInputsFile
     (if isDirPath then implicitInputsFile else BaseTarget.path target)
     (BaseTarget.priority target).

End TargetWrapper.

(** The scheduler state the wrappers share: [scheduler.targetwrappers]
    and [scheduler.context.init._targetGroups]. *)
Record Scheduler : Type := mkScheduler {
  targetwrappers : gmap string TargetWrapper.t;
  _targetGroups : gmap string (list BaseTarget.t)
}.

(** The wrapper a reference denotes. A Python reference always has its
    object; a key without a wrapper raises here. *)
Definition deref (s : Scheduler) (ref : string) : result TargetWrapper.t :=
  getitem (targetwrappers s) ref.

(** Assignment to slots of the wrapper a reference denotes. *)
Definition put (ref : string) (w : TargetWrapper.t) (s : Scheduler) : Scheduler :=
  mkScheduler (<[ref := w]> (targetwrappers s)) (_targetGroups s).

(** ** The methods of [TargetWrapper]

    [self] is the reference of the wrapper the method is called on. *)

Section Methods.
Variable os : platform.
Variable toLongPathSafe : string -> string.
(** [a - b] on two floats: the difference, rounded to a float. *)
Variable float_sub : Q -> Q -> Q.
(** [os.getenv('XPYBUILD_IMPLICIT_INPUTS_MAX_DIFF_LINES')], [None] when
    it is not set, and the builtin [int] on a [str], which raises
    [ValueError] on what is no integer literal. *)
Variable XPYBUILD_IMPLICIT_INPUTS_MAX_DIFF_LINES : option string.
Variable py_int : string -> result Z.

(** [__rdep]: adds a reverse dependency to this target. *)
Definition __rdep (self targetwrapper : string) (s : Scheduler) : result Scheduler :=
  w ← deref s self;
  Ok (put self (TargetWrapper.set_rdeps (TargetWrapper.__rdeps w ++ [targetwrapper]) w) s).

(** [rdeps]. *)
Definition rdeps (self : string) (s : Scheduler) : result (list string) :=
  w ← deref s self; Ok (TargetWrapper.__rdeps w).

(** [decrement]: returns the new total. *)
Definition decrement (self : string) (s : Scheduler) : result (Z * Scheduler) :=
  w ← deref s self;
  let depcount := (TargetWrapper.depcount w - 1)%Z in
  Ok (depcount, put self (TargetWrapper.set_depcount depcount w) s).

(** [dirty]: returns the previous value of [__isdirty]. *)
Definition dirty (self : string) (s : Scheduler) : result (bool * Scheduler) :=
  w ← deref s self;
  Ok (TargetWrapper.__isdirty w, put self (TargetWrapper.set_isdirty true w) s).

(** The entry of [nontargetdeps] for a dependency that is not a target:
    the [except KeyError] branch of the first loop. *)
Definition nontargetdep (abspath : string) (pathset : PathSet)
  : string * Z * PathSet :=
  let flags := 0%Z in
  let flags := if fileutils.isDirPath abspath
               then Z.lor flags TargetWrapper.DEP_IS_DIR_PATH else flags in
  let flags := if _skipDependenciesExistenceCheck pathset
               then Z.lor flags TargetWrapper.DEP_SKIP_EXISTENCE_CHECK else flags in
  let abspath := toLongPathSafe abspath in
  (abspath, flags, pathset).

(** The body of the first loop of [resolveUnderlyingDependencies], for
    one [(abspath, pathset)]. The dict [targetdeps] maps a path to the
    wrapper registered under that path, which is the reference the path
    is: it is kept as the list of its keys, in insertion order. *)
Definition resolve_dependency (self : string)
    (acc : list string * list (string * Z * PathSet) * Scheduler)
    (dep : string * PathSet)
  : result (list string * list (string * Z * PathSet) * Scheduler) :=
  let '(targetdeps, nontargetdeps, s) := acc in
  let '(abspath, pathset) := dep in
  match targetwrappers s !! abspath with
  | None =>
      Ok (targetdeps, nontargetdeps ++ [nontargetdep abspath pathset], s)
  | Some _ =>
      if bool_decide (abspath ∈ targetdeps) then Ok acc
      else
        s' ← __rdep abspath self s;
        Ok (targetdeps ++ [abspath], nontargetdeps, s')
  end.

(** The body of the loop over the members of the target group of [t]. *)
Definition resolve_groupmember (self : string) (t_target : BaseTarget.t)
    (acc : list string * Scheduler) (groupmembertarget : BaseTarget.t)
  : result (list string * Scheduler) :=
  let '(targetdeps, s) := acc in
  if bool_decide (groupmembertarget = t_target) then Ok acc
  else
    let groupmembertargetpath := BaseTarget.path groupmembertarget in
    if bool_decide (groupmembertargetpath ∈ targetdeps) then Ok acc
    else
      _ ← getitem (targetwrappers s) groupmembertargetpath;
      s' ← __rdep groupmembertargetpath self s;
      Ok (targetdeps ++ [groupmembertargetpath], s').

(** The body of the loop over [list(targetdeps.values())]. *)
Definition resolve_group (self : string) (acc : list string * Scheduler) (t : string)
  : result (list string * Scheduler) :=
  tw ← deref (snd acc) t;
  match _targetGroups (snd acc) !! TargetWrapper.path tw with
  | None => Ok acc
  | Some targetsingroup =>
      foldM (resolve_groupmember self (TargetWrapper.target tw)) acc targetsingroup
  end.

(** [resolveUnderlyingDependencies]. *)
Definition resolveUnderlyingDependencies (self : string) (s : Scheduler)
  : result Scheduler :=
  w ← deref s self;
  match TargetWrapper.__nontargetdeps w with
  | Some _ => Ok s
  | None =>
      '(targetdeps, nontargetdeps, s) ←
        foldM (resolve_dependency self) ([], [], s)
          (BaseTarget.underlyingDependencies (TargetWrapper.target w));
      '(targetdeps, s) ←
        (if truthy targetdeps
         then foldM (resolve_group self) (targetdeps, s) targetdeps
         else Ok (targetdeps, s));
      w ← deref s self;
      let targetdeps :=
        if bool_decide (TargetWrapper.path w ∈ targetdeps)
        then filter (fun p => p ≠ TargetWrapper.path w) targetdeps
        else targetdeps in
      let depcount := Z.of_nat (length targetdeps) in
      let nontargetdeps := sorted (fun d => d.1.1) nontargetdeps in
      named ← mapM_result
                (fun d => dw ← deref s d; Ok (TargetWrapper.name dw, d)) targetdeps;
      Ok (put self (TargetWrapper.set_deps depcount nontargetdeps
                      (snd <$> sorted fst named) w) s)
  end.

(** [getTargetDependencies]. *)
Definition getTargetDependencies (self : string) (s : Scheduler)
  : result (list string * Scheduler) :=
  s ← resolveUnderlyingDependencies self s;
  w ← deref s self;
  match TargetWrapper.__targetdeps w with
  | Some deps => Ok (deps, s)
  | None => Raise (OtherException "TypeError")
  end.

(** The escape of one line of the hashable implicit inputs:
    [x.replace('\r','\\r').replace('\n','\\n')]. *)
Definition escape_line (x : string) : string :=
  PyStr.replace LF "\n" (PyStr.replace CR "\r" x).

(** [__getImplicitInputs]. *)
Definition __getImplicitInputs (self : string) (s : Scheduler)
  : result (list string * Scheduler) :=
  w ← deref s self;
  match TargetWrapper.__implicitInputs w with
  | Some x => Ok (x, s)
  | None =>
      match TargetWrapper.__targetdeps w, TargetWrapper.__nontargetdeps w with
      | Some targetdeps, Some nontargetdeps =>
          paths ← mapM_result
                    (fun wrapper => dw ← deref s wrapper; Ok (TargetWrapper.path dw))
                    targetdeps;
          let x := paths ++ map (fun d => d.1.1) nontargetdeps in
          let x := x ++ map escape_line
                     (PyStr.split (linesep os)
                        (PyStr.join (linesep os)
                           (BaseTarget.hashableImplicitInputs (TargetWrapper.target w)))) in
          Ok (x, put self (TargetWrapper.set_implicitInputs (Some x) w) s)
      | _, _ => Raise (OtherException "TypeError")
      end
  end.

(** [findMissingNonTargetDependencies], with the paths it stats, in
    order. [os.path.exists] sees what [getstat] sees. *)
Fixpoint findMissing (fs : filesystem) (deps : list (string * Z * PathSet))
  : list string * result (option string) :=
  match deps with
  | [] => ([], Ok None)
  | (dpath, flags, pathset) :: deps' =>
      let dnameIsDirPath :=
        negb (Z.land flags TargetWrapper.DEP_IS_DIR_PATH =? 0)%Z in
      if negb (Z.land flags TargetWrapper.DEP_SKIP_EXISTENCE_CHECK =? 0)%Z
      then findMissing fs deps'
      else
        let dstat := fileutils.getstat toLongPathSafe fs dpath in
        let rightkind :=
          match dstat with
          | None => false
          | Some st =>
              (dnameIsDirPath && S_ISDIR st)
              || (negb dnameIsDirPath && S_ISREG st)
          end in
        if negb rightkind then
          if fileutils.exists_ toLongPathSafe fs dpath
          then ([dpath], Raise (AssertionError dpath))
          else ([dpath], Ok (Some dpath))
        else
          let '(statted, r) := findMissing fs deps' in (dpath :: statted, r)
  end.

Definition findMissingNonTargetDependencies (self : string) (fs : filesystem)
    (s : Scheduler) : list string * result (option string) :=
  match deref s self with
  | Ok w =>
      match TargetWrapper.__nontargetdeps w with
      | Some deps => findMissing fs deps
      | None => ([], Raise (OtherException "TypeError"))
      end
  | Raise e => ([], Raise e)
  end.

(** [isNewer] of [uptodate], with the record it logs. *)
Definition isNewer (fs : filesystem) (self_name stampfile : string)
    (stampmodtime : Q) (path : string) : result (bool * list logrecord) :=
  pathmodtime ← fileutils.getmtime toLongPathSafe fs path;
  if Qle_bool pathmodtime stampmodtime then Ok (false, [])
  else if Qlt_le_dec (float_sub pathmodtime stampmodtime) 1
  then Ok (true, [Log WARN "must be rebuilt because input file is newer by just"
                    [self_name; path; stampfile]])
  else Ok (true, [Log INFO "must be rebuilt because input file is newer"
                    [self_name; path; stampfile]]).

(** [for dtargetwrapper in self.__targetdeps: ... if isNewer(...): return False]:
    whether the loop returned, and what was logged. *)
Fixpoint newerTargetDep (fs : filesystem) (s : Scheduler)
    (self_name stampfile : string) (stampmodtime : Q) (deps : list string)
  : result (bool * list logrecord) :=
  match deps with
  | [] => Ok (false, [])
  | dtargetwrapper :: deps' =>
      dw ← deref s dtargetwrapper;
      let f := if negb (TargetWrapper.isDirPath dw) then TargetWrapper.path dw
               else TargetWrapper.stampfile dw in
      '(newer, log) ← isNewer fs self_name stampfile stampmodtime (toLongPathSafe f);
      if (newer : bool) then Ok (true, log)
      else newerTargetDep fs s self_name stampfile stampmodtime deps'
  end.

(** [for abslongpath, depflags, pathset in self.__nontargetdeps: ...]. *)
Fixpoint newerNonTargetDep (fs : filesystem) (self_name stampfile : string)
    (stampmodtime : Q) (deps : list (string * Z * PathSet))
  : result (bool * list logrecord) :=
  match deps with
  | [] => Ok (false, [])
  | (abslongpath, depflags, pathset) :: deps' =>
      if (Z.land depflags TargetWrapper.DEP_IS_DIR_PATH =? 0)%Z then
        '(newer, log) ← isNewer fs self_name stampfile stampmodtime abslongpath;
        if (newer : bool) then Ok (true, log)
        else newerNonTargetDep fs self_name stampfile stampmodtime deps'
      else newerNonTargetDep fs self_name stampfile stampmodtime deps'
  end.

(** The text of the difference that [uptodate] logs when the implicit
    inputs file has changed. [int(os.getenv(..., '30'))/2] is the integer
    division of Python 2; [added[len(added)-maxdifflines:]] is taken where
    [len(added) > maxdifflines], so its start is positive; the text, a
    [str], is coerced to [unicode] by [.replace(u'\r', u'\\r\r')]. *)
Definition implicitInputsDiff (latestImplicitInputs implicitInputs : list string)
  : result string :=
  n ← py_int (default "30" XPYBUILD_IMPLICIT_INPUTS_MAX_DIFF_LINES);
  let maxdifflines := (n / 2)%Z in
  let added := (fun x => "+ " +:+ x)
                 <$> filter (fun x => x ∉ latestImplicitInputs) implicitInputs in
  let removed := (fun x => "- " +:+ x)
                   <$> filter (fun x => x ∉ implicitInputs) latestImplicitInputs in
  let added :=
    if (Z.of_nat (length added) >? maxdifflines)%Z
    then "..." :: drop (Z.to_nat (Z.of_nat (length added) - maxdifflines)) added
    else added in
  let removed :=
    if (Z.of_nat (length removed) >? maxdifflines)%Z
    then "..." :: drop (Z.to_nat (Z.of_nat (length removed) - maxdifflines)) removed
    else removed in
  let added := if negb (truthy added) && negb (truthy removed) then ["N/A"] else added in
  text ← decode_ascii
           (PyStr.join (String LF (String TAB EmptyString))
              ([("previous build had " +:+ pretty (length latestImplicitInputs)
                 +:+ " lines, current build has " +:+ pretty (length implicitInputs)
                 +:+ " lines")] ++ removed ++ added));
  Ok (PyStr.replace CR (String "\" (String "r" (String CR EmptyString))) text).

(** The check of the implicit inputs file in [uptodate]: whether it
    returned [False], and what was logged. *)
Definition implicitInputsChanged (fs : filesystem) (w : TargetWrapper.t)
    (implicitInputs : list string) : result (bool * list logrecord) :=
  if truthy implicitInputs || TargetWrapper.isDirPath w then
    if negb (fileutils.exists_ toLongPathSafe fs (TargetWrapper.__implicitInputsFile w))
    then Ok (true, [Log INFO "must be rebuilt because implicit inputs/stamp file does not exist"
                      [TargetWrapper.name w; TargetWrapper.__implicitInputsFile w]])
    else
      contents ← fileutils.read toLongPathSafe fs
                   (toLongPathSafe (TargetWrapper.__implicitInputsFile w));
      let latestImplicitInputs := PyStr.split (linesep os) contents in
      if bool_decide (latestImplicitInputs ≠ implicitInputs)
      then
        text ← implicitInputsDiff latestImplicitInputs implicitInputs;
        Ok (true, [Log INFO "must be rebuilt because implicit inputs file has changed"
                     [TargetWrapper.name w; TargetWrapper.__implicitInputsFile w; text]])
      else Ok (false, [Log DEBUG "implicit inputs file contents has not changed"
                         [TargetWrapper.__implicitInputsFile w]])
  else Ok (false, [Log DEBUG "target has no implicitInputs data" [TargetWrapper.name w]]).

(** [uptodate]: the value returned, the state left, the records logged. *)
Definition uptodate (self : string) (fs : filesystem) (ignoreDeps : bool)
    (s : Scheduler) : result (bool * Scheduler * list logrecord) :=
  w ← deref s self;
  let log := [Log DEBUG "Up-to-date check for" [TargetWrapper.name w]] in
  if TargetWrapper.__isdirty w then
    Ok (false, s, log ++ [Log DEBUG "has been marked dirty" [TargetWrapper.name w]])
  else if negb (fileutils.exists_ toLongPathSafe fs (TargetWrapper.path w)) then
    Ok (false, put self (TargetWrapper.set_isdirty true w) s,
        log ++ [Log DEBUG "must be built because file does not exist"
                  [TargetWrapper.name w; TargetWrapper.path w]])
  else if ignoreDeps then Ok (true, s, log)
  else if negb (fileutils.isfile toLongPathSafe fs (TargetWrapper.stampfile w)) then
    Ok (false, s,
        log ++ [Log INFO "must be rebuilt because stamp file does not exist"
                  [TargetWrapper.name w; TargetWrapper.stampfile w]])
  else
    '(implicitInputs, s) ← __getImplicitInputs self s;
    w ← deref s self;
    '(changed, log5) ← implicitInputsChanged fs w implicitInputs;
    if (changed : bool) then Ok (false, s, log ++ log5)
    else
      stampmodtime ← fileutils.getmtime toLongPathSafe fs (TargetWrapper.stampfile w);
      match TargetWrapper.__targetdeps w, TargetWrapper.__nontargetdeps w with
      | Some targetdeps, Some nontargetdeps =>
          '(newer, log6) ← newerTargetDep fs s (TargetWrapper.name w)
                             (TargetWrapper.stampfile w) stampmodtime targetdeps;
          if (newer : bool) then Ok (false, s, log ++ log5 ++ log6)
          else
            '(newer, log6) ← newerNonTargetDep fs (TargetWrapper.name w)
                               (TargetWrapper.stampfile w) stampmodtime nontargetdeps;
            if (newer : bool) then Ok (false, s, log ++ log5 ++ log6)
            else Ok (true, s, log ++ log5)
      | _, _ => Raise (OtherException "TypeError")
      end.

(** [updatePriority]. [depth] bounds the depth of the recursion, as the
    interpreter's recursion limit does. *)
Fixpoint updatePriority (depth : nat) (self : string) (s : Scheduler)
  : result Scheduler :=
  match depth with
  | O => Raise RecursionError
  | S depth' =>
      '(deps, s) ← getTargetDependencies self s;
      if truthy deps then
        w ← deref s self;
        let targetpriority := TargetWrapper.effectivePriority w in
        foldM (fun s dt =>
                 dw ← deref s dt;
                 if (targetpriority >? TargetWrapper.effectivePriority dw)%Z
                 then updatePriority depth' dt
                        (put dt (TargetWrapper.set_effectivePriority targetpriority dw) s)
                 else Ok s)
              s deps
      else Ok s
  end.

(** Modelled from the spec: the scheduler is not among the sources; its
    priority push is "a single-threaded pre-pass: for each wrapper,
    recursively lift each dep's effectivePriority to at least the
    wrapper's own". [wrappers] is the order the pass visits them in. *)
Definition priorityPush (depth : nat) (wrappers : list string) (s : Scheduler)
  : result Scheduler :=
  foldM (fun s w => updatePriority depth w s) s wrappers.

Section Run.
(** What [target.run(context)] does to the files, and whether it
    raised: the recipe is a callback of the target. *)
Variable target_run : BaseTarget.t -> filesystem -> filesystem * result unit.
(** [os.path.dirname]. *)
Variable dirname : string -> string.

(** [run]: the files it leaves, and the state or the exception. *)
Definition run (self : string) (fs : filesystem) (s : Scheduler)
  : filesystem * result Scheduler :=
  match __getImplicitInputs self s with
  | Raise e => (fs, Raise e)
  | Ok (implicitInputs, s) =>
      match deref s self with
      | Raise e => (fs, Raise e)
      | Ok w =>
          let fs :=
            if truthy implicitInputs || TargetWrapper.isDirPath w
            then fileutils.deleteFile toLongPathSafe
                   (TargetWrapper.__implicitInputsFile w) fs
            else fs in
          match target_run (TargetWrapper.target w) fs with
          | (fs, Raise e) => (fs, Raise e)
          | (fs, Ok _) =>
              let fs :=
                if truthy implicitInputs || TargetWrapper.isDirPath w
                then fileutils.write toLongPathSafe
                       (toLongPathSafe (TargetWrapper.__implicitInputsFile w))
                       (PyStr.join (linesep os) implicitInputs)
                       (fileutils.mkdir toLongPathSafe
                          (dirname (TargetWrapper.__implicitInputsFile w)) fs)
                else fs in
              (fs, Ok s)
          end
      end
  end.
End Run.

End Methods.

(** ** The constructor of [CustomCommand] *)

Module CustomCommand.
Section Constructor.
(** The command and the environment overrides are kept as given. *)
Variable Command : Type.
Variable Env : Type.
(** [BaseTarget.__init__] and [PathSet(...)] are not among the sources:
    each returns its object or raises. *)
Variable BaseTarget__init__ : string -> list string -> result BaseTarget.t.
Variable PathSet__init__ : list string -> result PathSet.

Record t : Type := mk {
  base : BaseTarget.t;
  command : Command;
  cwd : option string;
  deps : PathSet;
  redirectStdOutToTarget : bool;
  env : option Env;
  stdout : option string;
  stderr : option string
}.

(** Truth value of an optional string argument: given and not empty. *)
Definition truthy_str (x : option string) : bool :=
  match x with
  | None | Some EmptyString => false
  | Some (String _ _) => true
  end.

(** [__init__]. *)
Definition __init__ (target : string) (command : Command)
    (dependencies : list string) (cwd : option string)
    (redirectStdOutToTarget : bool) (env : option Env)
    (stdout stderr : option string) : result t :=
  base ← BaseTarget__init__ target dependencies;
  deps ← PathSet__init__ dependencies;
  if redirectStdOutToTarget && fileutils.isDirPath target then
    Raise (BuildException
             ("Cannot set redirectStdOutToTarget and specify a directory for the target name - please specify a file instead: "
              +:+ target))
  else if truthy_str stdout && redirectStdOutToTarget then
    Raise (BuildException "Cannot set both redirectStdOutToTarget and stdout")
  else
    Ok (mk base command cwd deps redirectStdOutToTarget env stdout stderr).
End Constructor.
End CustomCommand.

(** ** Vocabulary of the properties *)

(** [scheduler.targetwrappers] holds each wrapper under its path. *)
Definition keyed_by_path (s : Scheduler) : Prop :=
  map_Forall (fun k w => TargetWrapper.path w = k) (targetwrappers s).

(** The wrapper of a target has the path of the target ([__init__]). *)
Definition path_of_target (s : Scheduler) : Prop :=
  map_Forall (fun _ w => BaseTarget.path (TargetWrapper.target w) = TargetWrapper.path w)
    (targetwrappers s).

(** What [__init__] sets once and no method assigns again. *)
Definition same_static (w w' : TargetWrapper.t) : Prop :=
  TargetWrapper.target w' = TargetWrapper.target w
  /\ TargetWrapper.path w' = TargetWrapper.path w
  /\ TargetWrapper.name w' = TargetWrapper.name w
  /\ TargetWrapper.isDirPath w' = TargetWrapper.isDirPath w
  /\ TargetWrapper.__implicitInputsFile w' = TargetWrapper.__implicitInputsFile w
  /\ TargetWrapper.stampfile w' = TargetWrapper.stampfile w.

(** The same wrappers under the same keys, up to their [__rdeps]. *)
Definition same_but_rdeps (s s' : Scheduler) : Prop :=
  _targetGroups s' = _targetGroups s
  /\ forall k,
       match targetwrappers s !! k, targetwrappers s' !! k with
       | Some w, Some w' => w' = TargetWrapper.set_rdeps (TargetWrapper.__rdeps w') w
       | None, None => True
       | _, _ => False
       end.

(** [p] is a declared dependency of [w] that is a target. *)
Definition declared_targetdep (s : Scheduler) (w : TargetWrapper.t) (p : string) : Prop :=
  p ∈ (BaseTarget.underlyingDependencies (TargetWrapper.target w)).*1
  /\ is_Some (targetwrappers s !! p).

(** [p] is the path of a member, other than the target of [t] itself, of
    the target group of a declared target dependency [t] of [w]. *)
Definition group_sibling (s : Scheduler) (w : TargetWrapper.t) (p : string) : Prop :=
  exists t tw G g,
    declared_targetdep s w t
    /\ targetwrappers s !! t = Some tw
    /\ _targetGroups s !! TargetWrapper.path tw = Some G
    /\ g ∈ G /\ g <> TargetWrapper.target tw /\ BaseTarget.path g = p.

(** Every member of a target group is registered with that group. *)
Definition groups_closed (s : Scheduler) : Prop :=
  map_Forall (fun _ G => Forall (fun g => _targetGroups s !! BaseTarget.path g = Some G) G)
    (_targetGroups s).

(** The entries of [nontargetdeps] for the declared dependencies that are
    not targets, in the order they are declared. *)
Definition declared_nontargetdeps (toLongPathSafe : string -> string)
    (s : Scheduler) (deps : list (string * PathSet)) : list (string * Z * PathSet) :=
  omap (fun d => match targetwrappers s !! d.1 with
                 | None => Some (nontargetdep toLongPathSafe d.1 d.2)
                 | Some _ => None
                 end) deps.

(** The list is in the order of [String.leb] on its keys. *)
Definition sorted_by {A : Type} (key : A -> string) (l : list A) : Prop :=
  Sorted (fun a b => String.leb (key a) (key b) = true) l.

(** Modelled from the spec: the scheduler is not among the sources; its
    resolution phase is "for every wrapper: resolve dependencies". *)
Definition resolveAll (toLongPathSafe : string -> string) (wrappers : list string)
    (s : Scheduler) : result Scheduler :=
  foldM (fun s w => resolveUnderlyingDependencies toLongPathSafe w s) s wrappers.

(** ** A small build

    [w] depends on [a] and on a source file, [a] depends on [c]; [w] and
    [a] are an atomic target group. *)

Definition ex_pathset : PathSet := mkPathSet "PathSet(...)" false.

Definition ex_target_w : BaseTarget.t :=
  BaseTarget.mk "${OUTPUT_DIR}/w" "/out/w" "/work/targets/w" 10
    [("/out/a", ex_pathset); ("/src/w.c", ex_pathset)] ["cflags=-O2"].

Definition ex_target_a : BaseTarget.t :=
  BaseTarget.mk "${OUTPUT_DIR}/a" "/out/a" "/work/targets/a" 0
    [("/out/c", ex_pathset)] [].

Definition ex_target_c : BaseTarget.t :=
  BaseTarget.mk "${OUTPUT_DIR}/c" "/out/c" "/work/targets/c" 5 []
    [String "x" (String LF "y")].

Definition ex_scheduler : Scheduler :=
  mkScheduler
    (list_to_map [("/out/w", TargetWrapper.__init__ ex_target_w);
                  ("/out/a", TargetWrapper.__init__ ex_target_a);
                  ("/out/c", TargetWrapper.__init__ ex_target_c)])
    (list_to_map [("/out/w", [ex_target_w; ex_target_a]);
                  ("/out/a", [ex_target_w; ex_target_a])]).

(** The state a successful computation leaves, the given state otherwise. *)
Definition state_after (r : result Scheduler) (s : Scheduler) : Scheduler :=
  match r with
  | Ok s' => s'
  | Raise _ => s
  end.

Definition ex_resolved_w : Scheduler :=
  state_after (resolveUnderlyingDependencies id "/out/w" ex_scheduler) ex_scheduler.

Definition ex_resolved : Scheduler :=
  state_after (resolveAll id ["/out/w"; "/out/a"; "/out/c"] ex_scheduler) ex_scheduler.

(** The fingerprint in the words of the specification: the path of each
    target dependency, the path of each dependency that is not a target,
    each of the hashable implicit inputs with CR and LF escaped. *)
Definition spec_fingerprint (targetdep_paths nontargetdep_paths hashable : list string)
  : list string :=
  targetdep_paths ++ nontargetdep_paths ++ map escape_line hashable.

Definition ex_fs_empty : filesystem := mkFS ∅ 0.

(** A dependency that is not a target is there and of the kind its flags
    say: a directory with [DEP_IS_DIR_PATH], a regular file without. *)
Definition right_kind (toLongPathSafe : string -> string) (fs : filesystem)
    (d : string * Z * PathSet) : Prop :=
  match fileutils.getstat toLongPathSafe fs d.1.1 with
  | None => False
  | Some st =>
      if (Z.land d.1.2 TargetWrapper.DEP_IS_DIR_PATH =? 0)%Z
      then st_kind st = RegularFile
      else st_kind st = Directory
  end.

(** The dependencies [findMissingNonTargetDependencies] does not skip. *)
Definition existence_checked (deps : list (string * Z * PathSet))
  : list (string * Z * PathSet) :=
  filter (fun d => Z.land d.1.2 TargetWrapper.DEP_SKIP_EXISTENCE_CHECK = 0%Z) deps.

(** The source file of [w] is a directory. *)
Definition ex_fs_srcdir : filesystem :=
  mkFS {["/src/w.c" := mkNode Directory 0 EmptyString]} 0.

(** The source file of [w] is there. *)
Definition ex_fs_src : filesystem :=
  mkFS {["/src/w.c" := mkNode RegularFile 0 "int main;"]} 0.

(** A [BaseTarget.__init__] and a [PathSet(...)] that return. *)
Definition ex_BaseTarget__init__ (name : string) (dependencies : list string)
  : result BaseTarget.t :=
  Ok (BaseTarget.mk name name "/work/targets/t" 0
        ((fun d => (d, ex_pathset)) <$> dependencies) []).

Definition ex_PathSet__init__ (dependencies : list string) : result PathSet :=
  Ok ex_pathset.

(** The wrapper of [w] once resolved. *)
Definition ex_wrapper_w : TargetWrapper.t :=
  default (TargetWrapper.__init__ ex_target_w) (targetwrappers ex_resolved_w !! "/out/w").

(** ** Vocabulary of the up-to-date check *)

Section UptodateVocabulary.
Variable os : platform.
Variable toLongPathSafe : string -> string.
Variable float_sub : Q -> Q -> Q.

(** Step 5 of the check lets the wrapper through: there are no implicit
    inputs and the target is a file, or the implicit inputs file is there
    and holds [implicitInputs], line for line. *)
Definition fingerprint_unchanged (fs : filesystem) (w : TargetWrapper.t)
    (implicitInputs : list string) : Prop :=
  (implicitInputs = [] /\ TargetWrapper.isDirPath w = false)
  \/ (fileutils.exists_ toLongPathSafe fs (TargetWrapper.__implicitInputsFile w) = true
      /\ exists contents,
           fileutils.read toLongPathSafe fs
             (toLongPathSafe (TargetWrapper.__implicitInputsFile w)) = Ok contents
           /\ PyStr.split (linesep os) contents = implicitInputs).

(** The file whose time stands for a target dependency: its path for a
    file target, its stamp file for a directory target. *)
Definition input_of_targetdep (dw : TargetWrapper.t) : string :=
  if TargetWrapper.isDirPath dw then TargetWrapper.stampfile dw
  else TargetWrapper.path dw.

(** The modification time [m] of an input of [w]: of a target
    dependency, or of a dependency that is not a target and not a
    directory. *)
Definition input_mtime (fs : filesystem) (s : Scheduler)
    (targetdeps : list string) (nontargetdeps : list (string * Z * PathSet))
    (p : string) (m : Q) : Prop :=
  ((exists d dw, d ∈ targetdeps /\ targetwrappers s !! d = Some dw
                 /\ p = input_of_targetdep dw)
   \/ (exists flags pathset, (p, flags, pathset) ∈ nontargetdeps
                             /\ Z.land flags TargetWrapper.DEP_IS_DIR_PATH = 0%Z))
  /\ fileutils.getmtime toLongPathSafe fs p = Ok m.

(** Every input of [w] can be statted. *)
Definition inputs_exist (fs : filesystem) (s : Scheduler)
    (targetdeps : list string) (nontargetdeps : list (string * Z * PathSet)) : Prop :=
  Forall (fun d => exists dw, targetwrappers s !! d = Some dw
                     /\ is_Some (fileutils.getstat toLongPathSafe fs (input_of_targetdep dw)))
    targetdeps
  /\ Forall (fun e => Z.land e.1.2 TargetWrapper.DEP_IS_DIR_PATH = 0%Z ->
                      is_Some (fileutils.getstat toLongPathSafe fs e.1.1))
       nontargetdeps.

(** What the check logs for an input newer than the stamp file: a
    warning when the gap, as the difference of the floats, is under one
    second. *)
Definition logged_newer (fs : filesystem) (name stampfile : string) (T : Q)
    (log : list logrecord) : Prop :=
  exists p m lvl fmt,
    log = [Log lvl fmt [name; p; stampfile]]
    /\ fileutils.getmtime toLongPathSafe fs p = Ok m /\ (T < m)%Q
    /\ (lvl = WARN <-> (float_sub m T < 1)%Q).
End UptodateVocabulary.

(** The files of the small build after a build of [w]: the dependency [a]
    was rebuilt half a second after [w]. *)
Definition ex_fs_built : filesystem :=
  mkFS (list_to_map
          [("/out/w", mkNode RegularFile 100 "w");
           ("/out/a", mkNode RegularFile (201 # 2) "a");
           ("/src/w.c", mkNode RegularFile 50 "int main;");
           ("/work/targets/implicit-inputs/w.txt",
            mkNode RegularFile 100
              (PyStr.join (linesep Posix) ["/out/a"; "/src/w.c"; "cflags=-O2"]))])
       200.

(** The fingerprint of [w] and the state once it is computed. *)
Definition ex_fingerprint_w : list string * Scheduler :=
  match __getImplicitInputs Posix "/out/w" ex_resolved_w with
  | Ok r => r
  | Raise _ => ([], ex_resolved_w)
  end.

(** A recipe that writes the output of the target, and one that fails. *)
Definition ex_target_run_ok (t : BaseTarget.t) (fs : filesystem)
  : filesystem * result unit :=
  (fileutils.write id (BaseTarget.path t) "built" fs, Ok tt).

Definition ex_target_run_fails (t : BaseTarget.t) (fs : filesystem)
  : filesystem * result unit :=
  (fs, Raise (BuildException "recipe failed")).

Definition ex_dirname (path : string) : string := "/work/targets/implicit-inputs".

(** The builtin [int] where the examples call it: on the default ['30']. *)
Definition ex_int (x : string) : result Z :=
  if String.eqb x "30" then Ok 30%Z else Raise (OtherException "ValueError").

(** ** Vocabulary of the priority push *)

(** Every wrapper is resolved, and its target dependencies are wrappers. *)
Definition resolved_closed (s : Scheduler) : Prop :=
  map_Forall (fun _ w =>
    is_Some (TargetWrapper.__targetdeps w)
    /\ is_Some (TargetWrapper.__nontargetdeps w)
    /\ Forall (fun d => is_Some (targetwrappers s !! d))
         (default [] (TargetWrapper.__targetdeps w)))
    (targetwrappers s).

(** The priority of [k] has reached its target dependencies: each has an
    effective priority at least that of [k]. *)
Definition pushed (s : Scheduler) (k : string) : Prop :=
  forall w td d dw,
    targetwrappers s !! k = Some w ->
    TargetWrapper.__targetdeps w = Some td ->
    d ∈ td ->
    targetwrappers s !! d = Some dw ->
    (TargetWrapper.effectivePriority w <= TargetWrapper.effectivePriority dw)%Z.

(** The same wrappers under the same keys, up to [effectivePriority],
    which is not lower in [s']. *)
Definition same_but_priority (s s' : Scheduler) : Prop :=
  _targetGroups s' = _targetGroups s
  /\ forall k,
       match targetwrappers s !! k, targetwrappers s' !! k with
       | Some a, Some b =>
           b = TargetWrapper.set_effectivePriority (TargetWrapper.effectivePriority b) a
           /\ (TargetWrapper.effectivePriority a <= TargetWrapper.effectivePriority b)%Z
       | None, None => True
       | _, _ => False
       end.

(** What a push of the priority [v] does: some wrappers below [v] are
    lifted to [v], and those lifted have pushed [v] on. *)
Definition raised (v : Z) (s s' : Scheduler) : Prop :=
  same_but_priority s s'
  /\ forall k a b,
       targetwrappers s !! k = Some a -> targetwrappers s' !! k = Some b ->
       (TargetWrapper.effectivePriority b = TargetWrapper.effectivePriority a
        \/ ((TargetWrapper.effectivePriority a < v)%Z
            /\ TargetWrapper.effectivePriority b = v))
       /\ (TargetWrapper.effectivePriority b <> TargetWrapper.effectivePriority a ->
           pushed s' k).

(** The wrappers whose effective priority is below [v]. *)
Definition below (v : Z) (s : Scheduler) : gset string :=
  dom (filter (fun kw => (TargetWrapper.effectivePriority kw.2 < v)%Z) (targetwrappers s)).

(** The small build after the priority push. *)
Definition ex_pushed : Scheduler :=
  state_after (priorityPush id 4 ["/out/c"; "/out/a"; "/out/w"] ex_resolved) ex_resolved.

(** ** Vocabulary of the reverse edges *)

(** The reverse dependencies held by the wrapper under [k]. *)
Definition rdeps_of (s : Scheduler) (k : string) : list string :=
  match targetwrappers s !! k with
  | Some w => TargetWrapper.__rdeps w
  | None => []
  end.

(** While the dict [targetdeps] of a resolution of [self] grows, the
    wrappers in it, and no other, have gained one reverse edge to [self]. *)
Definition edges_registered (self : string) (s0 : Scheduler)
    (td : list string) (s : Scheduler) : Prop :=
  forall k, rdeps_of s k = rdeps_of s0 k ++ (if decide (k ∈ td) then [self] else []).

(** The wrappers as [__init__] leaves them where the scheduler needs it:
    no reverse dependency yet, not resolved. *)
Definition freshly_initialised (s : Scheduler) : Prop :=
  map_Forall (fun _ w =>
    TargetWrapper.__rdeps w = []
    /\ TargetWrapper.__targetdeps w = None
    /\ TargetWrapper.__nontargetdeps w = None) (targetwrappers s).

(** ** Vocabulary of the fingerprint lines *)

(** The character [c] is in [s]. *)
Fixpoint occurs (c : ascii) (s : string) : bool :=
  match s with
  | EmptyString => false
  | String d s' => Ascii.eqb d c || occurs c s'
  end.

(** The files of the small build after a build of [w] with other flags:
    scenario 2 of the specification. The dependencies are not there. *)
Definition ex_fs_stale : filesystem :=
  mkFS (list_to_map
          [("/out/w", mkNode RegularFile 100 "w");
           ("/work/targets/implicit-inputs/w.txt",
            mkNode RegularFile 100
              (PyStr.join (linesep Posix) ["/out/a"; "/src/w.c"; "cflags=-O0"]))])
       200.

(** The small build after [dirty()] on [w]. *)
Definition ex_dirtied : bool * Scheduler :=
  match dirty "/out/w" ex_resolved_w with
  | Ok r => r
  | Raise _ => (false, ex_resolved_w)
  end.

(** ** More of the wrapper, of [buildcommon.py] and of [targets/native.py] *)

(** [s.endswith(suf)]. *)
Fixpoint endswith (s suf : string) : bool :=
  String.eqb s suf
  || match s with
     | EmptyString => false
     | String _ s' => endswith s' suf
     end.

Section OutputDirs.
(** ['%s' % self.target], the display string of a target. *)
Variable target_str : BaseTarget.t -> string.
(** [context.getTopLevelOutputDirs()]. *)
Variable topLevelOutputDirs : list string.

Definition under_output_dir_message (w : TargetWrapper.t) (dpath : string) : string :=
  "Target " +:+ target_str (TargetWrapper.target w) +:+ " depends on output " +:+ dpath
  +:+ " which is implicitly created by some other directory target - please use DirGeneratedByTarget to explicitly name the directory target that it depends on".

(** [for outdir in ...getTopLevelOutputDirs(): if dpath.startswith(outdir): raise ...]. *)
Fixpoint checkOutputDirs (w : TargetWrapper.t) (dpath : string) (outdirs : list string)
  : result unit :=
  match outdirs with
  | [] => Ok tt
  | outdir :: outdirs' =>
      if PyStr.startswith dpath outdir
      then Raise (BuildException (under_output_dir_message w dpath))
      else checkOutputDirs w dpath outdirs'
  end.

(** [checkForNonTargetDependenciesUnderOutputDirs]. *)
Definition checkForNonTargetDependenciesUnderOutputDirs (self : string) (s : Scheduler)
  : result unit :=
  w ← deref s self;
  match TargetWrapper.__nontargetdeps w with
  | Some nontargetdeps =>
      foldM (fun _ d => checkOutputDirs w d.1.1 topLevelOutputDirs) tt nontargetdeps
  | None => Raise (OtherException "TypeError")
  end.
End OutputDirs.


Module buildcommon.
Section Normpath.
Variable os : platform.
(** [os.path.normpath], and [str.lower] on one character. *)
Variable os_path_normpath : string -> string.
Variable lower : ascii -> ascii.


End Normpath.
End buildcommon.

Module native.
Section MakeDepends.
(** [os.sep] and [context._isValidTarget]. *)
Variable sep : string.
Variable _isValidTarget : string -> bool.

(** The loop of [CompilerMakeDependsPathSet._resolveUnderlyingDependencies]
    that collects [generatedIncludeDirs] from the paths of the includes. *)
Definition generatedIncludeDirs (includes : list string) : list string :=
  fold_left
    (fun generatedIncludeDirs d =>
       let d := if endswith d sep then d else d +:+ sep in
       if _isValidTarget d && negb (bool_decide (d ∈ generatedIncludeDirs))
       then generatedIncludeDirs ++ [d]
       else generatedIncludeDirs)
    includes [].

(** [isGeneratedIncludeFile]. *)
Definition isGeneratedIncludeFile (generatedIncludeDirs : list string) (e : string) : bool :=
  existsb (fun generated => PyStr.startswith e generated) generatedIncludeDirs.

(** The dependency paths before [deplist.sort()]: the paths of the tuples
    [(d, self)]. *)
Definition generatedDeplist (generatedIncludeDirs testsources deplist : list string)
  : list string :=
  filter (fun d => isGeneratedIncludeFile generatedIncludeDirs d = false
                   /\ d ∉ testsources) deplist
  ++ generatedIncludeDirs.
End MakeDepends.
End native.

(** ** Two more small builds *)

(** [k] depends on [/src/a.c], through a path set that skips the check
    of existence, and on [/src/b.c]. [/src/a.c] is not there; [/src/b.c]
    is newer than the output of [k]. *)
Definition ex_pathset_skip : PathSet := mkPathSet "PathSet(...)" true.

Definition ex_target_k : BaseTarget.t :=
  BaseTarget.mk "${OUTPUT_DIR}/k" "/out/k" "/work/targets/k" 0
    [("/src/a.c", ex_pathset_skip); ("/src/b.c", ex_pathset)] [].

Definition ex_scheduler_k : Scheduler :=
  mkScheduler (list_to_map [("/out/k", TargetWrapper.__init__ ex_target_k)]) ∅.

Definition ex_resolved_k : Scheduler :=
  state_after (resolveUnderlyingDependencies id "/out/k" ex_scheduler_k) ex_scheduler_k.

Definition ex_fs_k : filesystem :=
  mkFS (list_to_map
          [("/out/k", mkNode RegularFile 100 "k");
           ("/src/b.c", mkNode RegularFile 500 "b");
           ("/work/targets/implicit-inputs/k.txt",
            mkNode RegularFile 100
              (PyStr.join (linesep Posix) ["/src/a.c"; "/src/b.c"; ""]))])
       600.

(** [n] depends on a file whose name holds a line feed. *)
Definition ex_path_lf : string := "/src/a" +:+ String LF "b.c".

Definition ex_target_n : BaseTarget.t :=
  BaseTarget.mk "${OUTPUT_DIR}/n" "/out/n" "/work/targets/n" 0
    [(ex_path_lf, ex_pathset)] ["k=v"].

Definition ex_scheduler_n : Scheduler :=
  mkScheduler (list_to_map [("/out/n", TargetWrapper.__init__ ex_target_n)]) ∅.

Definition ex_resolved_n : Scheduler :=
  state_after (resolveUnderlyingDependencies id "/out/n" ex_scheduler_n) ex_scheduler_n.

(** The fingerprint of a resolved wrapper, from the wrappers [dws] of its
    target dependencies and its dependencies [nd] that are not targets:
    the only value [__getImplicitInputs] puts in the cache. *)
Definition fingerprint_of (os : platform) (w : TargetWrapper.t)
    (dws : list TargetWrapper.t) (nd : list (string * Z * PathSet)) : list string :=
  map TargetWrapper.path dws ++ map (fun d => d.1.1) nd
  ++ map escape_line
       (PyStr.split (linesep os)
          (PyStr.join (linesep os)
             (BaseTarget.hashableImplicitInputs (TargetWrapper.target w)))).

(** * Properties *)

(** ** Results *)

Lemma bind_Ok {A B : Type} (f : A -> result B) (a : A) : (Ok a ≫= f) = f a.
Proof. reflexivity. Qed.

Lemma bind_Ok_inv {A B : Type} (f : A -> result B) (m : result A) (b : B) :
  (m ≫= f) = Ok b -> exists a, m = Ok a /\ f a = Ok b.
Proof. destruct m as [a|e]; [eauto | discriminate]. Qed.

Lemma getitem_Ok {A : Type} (d : gmap string A) (k : string) (a : A) :
  getitem d k = Ok a <-> d !! k = Some a.
Proof. unfold getitem. destruct (d !! k); split; congruence. Qed.

(** ** Splitting and joining lines *)

Lemma split_from_nonempty sep k s : PyStr.split_from sep k s <> [].
Proof.
  revert k. induction s as [|c s IH]; intros k; [done|].
  destruct k; [|apply IH]. cbn [PyStr.split_from].
  destruct (PyStr.startswith (String c s) sep); [done|].
  destruct (PyStr.split_from sep 0 s); done.
Qed.

Lemma split_from_skip sep k s :
  k <= String.length s ->
  PyStr.split_from sep k s = PyStr.split_from sep 0 (PyStr.drop k s).
Proof.
  revert s. induction k as [|k IH]; intros s Hk; [by destruct s|].
  destruct s as [|c s]; simpl in *; [lia|]. apply IH. lia.
Qed.

Lemma startswith_app sep rest : PyStr.startswith (sep +:+ rest) sep = true.
Proof.
  induction sep as [|c sep IH]; simpl; [done|]. by rewrite Ascii.eqb_refl.
Qed.

Lemma drop_app sep rest : PyStr.drop (String.length sep) (sep +:+ rest) = rest.
Proof. induction sep; simpl; auto. Qed.

Lemma split_sep_head sep rest :
  sep <> "" -> PyStr.split sep (sep +:+ rest) = "" :: PyStr.split sep rest.
Proof.
  intros Hne. destruct sep as [|c sep]; [done|].
  unfold PyStr.split.
  change (String c sep +:+ rest) with (String c (sep +:+ rest)).
  cbn [PyStr.split_from].
  change (String c (sep +:+ rest)) with (String c sep +:+ rest).
  rewrite startswith_app. f_equal.
  cbn [String.length]. rewrite Nat.sub_1_r. simpl Nat.pred.
  rewrite split_from_skip.
  - by rewrite drop_app.
  - clear. induction sep; simpl; lia.
Qed.

Lemma split_no_sep sep s :
  PyStr.contains sep s = false -> PyStr.split sep s = [s].
Proof.
  unfold PyStr.split. induction s as [|c s IH]; intros H; [done|].
  cbn [PyStr.contains] in H. apply orb_false_elim in H as [H1 H2].
  cbn [PyStr.split_from]. rewrite H1, (IH H2). done.
Qed.

(** No occurrence of the line separator starts inside a line that does not
    contain it, whatever follows the line. *)
Lemma linesep_no_straddle p c x rest :
  PyStr.startswith (String c x) (linesep p) = false ->
  PyStr.startswith (String c (x +:+ linesep p +:+ rest)) (linesep p) = false.
Proof.
  destruct p; cbn [linesep PyStr.startswith]; [done|].
  destruct (Ascii.eqb CR c); [|done]. cbn [andb].
  destruct x as [|d x]; [|done]. intros _. done.
Qed.

Lemma split_line_then p x rest :
  PyStr.contains (linesep p) x = false ->
  PyStr.split (linesep p) (x +:+ linesep p +:+ rest)
  = x :: PyStr.split (linesep p) rest.
Proof.
  induction x as [|c x IH]; intros H.
  - change ("" +:+ linesep p +:+ rest) with (linesep p +:+ rest).
    apply split_sep_head. by destruct p.
  - cbn [PyStr.contains] in H. apply orb_false_elim in H as [H1 H2].
    unfold PyStr.split in *.
    change (String c x +:+ linesep p +:+ rest)
      with (String c (x +:+ linesep p +:+ rest)).
    cbn [PyStr.split_from].
    rewrite (linesep_no_straddle _ _ _ _ H1), (IH H2). done.
Qed.

Lemma split_join_lines p (lines : list string) :
  lines <> [] ->
  Forall (fun l => PyStr.contains (linesep p) l = false) lines ->
  PyStr.split (linesep p) (PyStr.join (linesep p) lines) = lines.
Proof.
  intros Hne Hall. induction Hall as [|x l Hx Hl IH]; [done|].
  destruct l as [|y l].
  - simpl. by apply split_no_sep.
  - change (PyStr.join (linesep p) (x :: y :: l))
      with (x +:+ linesep p +:+ PyStr.join (linesep p) (y :: l)).
    rewrite split_line_then by done. f_equal. by apply IH.
Qed.

(** ** Loops *)

Lemma foldM_inv_from {A B : Type} (f : A -> B -> result A)
    (P : list B -> A -> Prop) (l pre : list B) (acc0 acc : A) :
  (forall pre x a a', x ∈ l -> P pre a -> f a x = Ok a' -> P (pre ++ [x]) a') ->
  P pre acc0 -> foldM f acc0 l = Ok acc -> P (pre ++ l) acc.
Proof.
  revert pre acc0. induction l as [|x l IH]; intros pre acc0 Hstep Hpre Hf.
  - simpl in Hf. injection Hf as <-. by rewrite app_nil_r.
  - simpl in Hf. destruct (f acc0 x) as [a|e] eqn:Hx; [|done].
    replace (pre ++ x :: l) with ((pre ++ [x]) ++ l) by by rewrite <- app_assoc.
    apply (IH _ a); [|by eapply Hstep; [left|..]|done].
    intros pre' y b b' Hy. apply Hstep. by right.
Qed.

Lemma foldM_inv {A B : Type} (f : A -> B -> result A) (P : list B -> A -> Prop)
    (l : list B) (acc0 acc : A) :
  P [] acc0 ->
  (forall pre x a a', x ∈ l -> P pre a -> f a x = Ok a' -> P (pre ++ [x]) a') ->
  foldM f acc0 l = Ok acc -> P l acc.
Proof. intros H0 Hstep Hf. by apply (foldM_inv_from f P l [] acc0 acc). Qed.

Lemma mapM_result_Forall2 {A B : Type} (f : A -> result B) (l : list A) (r : list B) :
  mapM_result f l = Ok r <-> Forall2 (fun x y => f x = Ok y) l r.
Proof.
  revert r. induction l as [|x l IH]; intros r; simpl.
  - split; [intros [= <-]; constructor | by inversion 1].
  - destruct (f x) as [y|e] eqn:Hx.
    + destruct (mapM_result f l) as [ys|e] eqn:Hl.
      * split.
        -- intros [= <-]. constructor; [done|]. by apply IH.
        -- inversion 1 as [|? y' ? ys' Hy Hys]; subst.
           apply IH in Hys. congruence.
      * split; [done|]. inversion 1 as [|? y' ? ys' Hy Hys]; subst.
        apply IH in Hys. done.
    + split; [done|]. inversion 1; subst. congruence.
Qed.

(** ** The stable sort *)

Lemma insert_sorted_perm {A : Type} (key : A -> string) (x : A) (l : list A) :
  insert_sorted key x l ≡ₚ x :: l.
Proof.
  induction l as [|y l IH]; simpl; [done|].
  destruct (String.leb (key x) (key y)); [done|].
  rewrite IH. apply Permutation_swap.
Qed.

Lemma sorted_perm {A : Type} (key : A -> string) (l : list A) : sorted key l ≡ₚ l.
Proof.
  induction l as [|x l IH]; simpl; [done|].
  by rewrite insert_sorted_perm, IH.
Qed.

Lemma insert_sorted_sorted {A : Type} (key : A -> string) (x : A) (l : list A) :
  sorted_by key l -> sorted_by key (insert_sorted key x l).
Proof.
  unfold sorted_by. induction 1 as [|y l Hl IH Hhd]; simpl.
  - repeat constructor.
  - destruct (String.leb (key x) (key y)) eqn:Hxy.
    + repeat constructor; auto.
    + constructor; [done|].
      assert (String.leb (key y) (key x) = true) as Hyx
        by (destruct (String.leb_total (key x) (key y)); congruence).
      destruct l as [|z l]; simpl in *; [by repeat constructor|].
      destruct (String.leb (key x) (key z)); constructor; auto.
      by inversion Hhd.
Qed.

Lemma sorted_sorted {A : Type} (key : A -> string) (l : list A) :
  sorted_by key (sorted key l).
Proof.
  induction l as [|x l IH]; simpl; [constructor|].
  by apply insert_sorted_sorted.
Qed.

(** ** The shared store *)

Lemma set_rdeps_id w : TargetWrapper.set_rdeps (TargetWrapper.__rdeps w) w = w.
Proof. by destruct w. Qed.

Lemma set_rdeps_twice v v' w :
  TargetWrapper.set_rdeps v (TargetWrapper.set_rdeps v' w) = TargetWrapper.set_rdeps v w.
Proof. by destruct w. Qed.

Lemma same_but_rdeps_refl s : same_but_rdeps s s.
Proof.
  split; [done|]. intros k. destruct (targetwrappers s !! k); [|done].
  by rewrite set_rdeps_id.
Qed.

Lemma same_but_rdeps_trans s1 s2 s3 :
  same_but_rdeps s1 s2 -> same_but_rdeps s2 s3 -> same_but_rdeps s1 s3.
Proof.
  intros [Hg1 H1] [Hg2 H2]. split; [congruence|]. intros k.
  specialize (H1 k). specialize (H2 k).
  destruct (targetwrappers s1 !! k), (targetwrappers s2 !! k),
    (targetwrappers s3 !! k); try done.
  rewrite H2, H1. by rewrite !set_rdeps_twice.
Qed.

Lemma same_but_rdeps_put s k w v :
  targetwrappers s !! k = Some w ->
  same_but_rdeps s (put k (TargetWrapper.set_rdeps v w) s).
Proof.
  intros Hk. split; [done|]. intros j. simpl.
  destruct (decide (k = j)) as [<-|Hne].
  - rewrite Hk, lookup_insert_eq. by destruct w.
  - rewrite lookup_insert_ne by done.
    destruct (targetwrappers s !! j); [|done]. by rewrite set_rdeps_id.
Qed.

Lemma same_but_rdeps_lookup s s' k w :
  same_but_rdeps s s' -> targetwrappers s !! k = Some w ->
  exists w', targetwrappers s' !! k = Some w'
             /\ w' = TargetWrapper.set_rdeps (TargetWrapper.__rdeps w') w.
Proof.
  intros [_ H] Hk. specialize (H k). rewrite Hk in H.
  destruct (targetwrappers s' !! k) as [w'|]; [eauto|done].
Qed.

Lemma same_but_rdeps_lookup_inv s s' k w' :
  same_but_rdeps s s' -> targetwrappers s' !! k = Some w' ->
  exists w, targetwrappers s !! k = Some w
            /\ w' = TargetWrapper.set_rdeps (TargetWrapper.__rdeps w') w.
Proof.
  intros [_ H] Hk. specialize (H k). rewrite Hk in H.
  destruct (targetwrappers s !! k) as [w|]; [eauto|done].
Qed.

Lemma same_but_rdeps_None s s' k :
  same_but_rdeps s s' ->
  targetwrappers s' !! k = None <-> targetwrappers s !! k = None.
Proof.
  intros [_ H]. specialize (H k).
  destruct (targetwrappers s !! k), (targetwrappers s' !! k); done.
Qed.

Lemma same_but_rdeps_is_Some s s' k :
  same_but_rdeps s s' ->
  is_Some (targetwrappers s' !! k) <-> is_Some (targetwrappers s !! k).
Proof.
  intros H. rewrite <- !not_eq_None_Some. by rewrite (same_but_rdeps_None s s' k H).
Qed.

Lemma deref_Ok s k w : deref s k = Ok w <-> targetwrappers s !! k = Some w.
Proof. apply getitem_Ok. Qed.

Lemma rdep_inv self tw s s' :
  __rdep self tw s = Ok s' ->
  exists w, targetwrappers s !! self = Some w
    /\ s' = put self (TargetWrapper.set_rdeps (TargetWrapper.__rdeps w ++ [tw]) w) s.
Proof.
  unfold __rdep. intros H. apply bind_Ok_inv in H as (w & Hw & H).
  apply deref_Ok in Hw. injection H as <-. eauto.
Qed.

Lemma rdep_same_but_rdeps self tw s s' :
  __rdep self tw s = Ok s' -> same_but_rdeps s s'.
Proof. intros (w & Hw & ->)%rdep_inv. by apply same_but_rdeps_put. Qed.

(** ** Resolution: the first loop *)

Lemma resolve_dependency_inv tLPS self td nd s p ps td' nd' s' :
  resolve_dependency tLPS self (td, nd, s) (p, ps) = Ok (td', nd', s') ->
  same_but_rdeps s s'
  /\ match targetwrappers s !! p with
     | None => td' = td /\ nd' = nd ++ [nontargetdep tLPS p ps]
     | Some _ => nd' = nd /\ (forall q, q ∈ td' <-> q ∈ td \/ q = p)
     end.
Proof.
  unfold resolve_dependency. destruct (targetwrappers s !! p) as [dw|] eqn:Hp.
  - case_bool_decide as Hin.
    + intros [= <- <- <-]. split; [apply same_but_rdeps_refl|].
      split; [done|]. intros q. naive_solver.
    + intros H. apply bind_Ok_inv in H as (s1 & Hr & [= <- <- <-]).
      split; [by eapply rdep_same_but_rdeps|]. split; [done|].
      intros q. rewrite elem_of_app, list_elem_of_singleton. done.
  - intros [= <- <- <-]. split; [apply same_but_rdeps_refl|done].
Qed.

Lemma resolve_first_loop tLPS self s0 deps td nd s :
  foldM (resolve_dependency tLPS self) ([], [], s0) deps = Ok (td, nd, s) ->
  same_but_rdeps s0 s
  /\ (forall p, p ∈ td <-> p ∈ deps.*1 /\ is_Some (targetwrappers s0 !! p))
  /\ nd = declared_nontargetdeps tLPS s0 deps.
Proof.
  intros H.
  apply (foldM_inv _ (fun pre acc =>
    same_but_rdeps s0 acc.2
    /\ (forall p, p ∈ acc.1.1 <-> p ∈ pre.*1 /\ is_Some (targetwrappers s0 !! p))
    /\ acc.1.2 = declared_nontargetdeps tLPS s0 pre)) in H; [done| |].
  - simpl. split; [apply same_but_rdeps_refl|]. split; [|done].
    intros p. rewrite elem_of_nil. set_solver.
  - clear. intros pre [p ps] [[td nd] s] [[td' nd'] s'] _ (Hs & Htd & Hnd) Hstep.
    simpl in *. apply resolve_dependency_inv in Hstep as [Hs' Hcase].
    split; [by eapply same_but_rdeps_trans|].
    unfold declared_nontargetdeps in *. rewrite omap_app, fmap_app. simpl.
    destruct (targetwrappers s !! p) as [dw|] eqn:Hp.
    + destruct Hcase as [-> Hq].
      destruct (same_but_rdeps_lookup_inv _ _ _ _ Hs Hp) as (w0 & Hw0 & _).
      rewrite Hw0. simpl. rewrite app_nil_r. split; [|done].
      intros q. rewrite Hq, Htd, elem_of_app, list_elem_of_singleton.
      split; [intros [[??]| ->]; eauto|]. intros [[?| ->] ?]; eauto.
    + destruct Hcase as [-> ->].
      apply (same_but_rdeps_None _ _ _ Hs) in Hp. rewrite Hp. simpl.
      split; [|by rewrite Hnd].
      intros q. rewrite Htd, elem_of_app, list_elem_of_singleton.
      split; [intros [??]; eauto|]. intros [[?| ->] Hsome]; [done|].
      rewrite Hp in Hsome. by destruct Hsome.
Qed.

(** ** Resolution: target groups *)

Lemma resolve_groupmember_inv self tt td s g td' s' :
  resolve_groupmember self tt (td, s) g = Ok (td', s') ->
  same_but_rdeps s s'
  /\ (forall q, q ∈ td' <-> q ∈ td \/ (g <> tt /\ BaseTarget.path g = q))
  /\ (g <> tt -> is_Some (targetwrappers s !! BaseTarget.path g) \/ BaseTarget.path g ∈ td).
Proof.
  unfold resolve_groupmember. case_bool_decide as Heq.
  - intros [= <- <-]. split; [apply same_but_rdeps_refl|]. split; [naive_solver|done].
  - case_bool_decide as Hin.
    + intros [= <- <-]. split; [apply same_but_rdeps_refl|]. split; [naive_solver|auto].
    + intros H. apply bind_Ok_inv in H as (gw & Hgw & H).
      apply bind_Ok_inv in H as (s1 & Hr & [= <- <-]).
      apply getitem_Ok in Hgw.
      split; [by eapply rdep_same_but_rdeps|]. split; [|eauto].
      intros q. rewrite elem_of_app, list_elem_of_singleton. naive_solver.
Qed.

Lemma resolve_members_loop self tt td0 s0 G td s :
  (forall p, p ∈ td0 -> is_Some (targetwrappers s0 !! p)) ->
  foldM (resolve_groupmember self tt) (td0, s0) G = Ok (td, s) ->
  same_but_rdeps s0 s
  /\ (forall q, q ∈ td <-> q ∈ td0 \/ exists g, g ∈ G /\ g <> tt /\ BaseTarget.path g = q)
  /\ (forall p, p ∈ td -> is_Some (targetwrappers s0 !! p)).
Proof.
  intros Hkeys H.
  apply (foldM_inv _ (fun pre acc =>
    same_but_rdeps s0 acc.2
    /\ (forall q, q ∈ acc.1 <->
          q ∈ td0 \/ exists g, g ∈ pre /\ g <> tt /\ BaseTarget.path g = q)
    /\ (forall p, p ∈ acc.1 -> is_Some (targetwrappers s0 !! p)))) in H; [done| |].
  - simpl. split; [apply same_but_rdeps_refl|]. split; [|done].
    intros q. split; [auto|]. intros [?|(g & Hg & _)]; [done|].
    by apply elem_of_nil in Hg.
  - clear -Hkeys. intros pre g [td1 s1] [td2 s2] _ (Hs & Htd & Hk) Hstep. simpl in *.
    apply resolve_groupmember_inv in Hstep as (Hs' & Hq & Hreg).
    split; [by eapply same_but_rdeps_trans|]. split.
    + intros q. rewrite Hq, Htd. setoid_rewrite elem_of_app.
      setoid_rewrite list_elem_of_singleton. naive_solver.
    + intros p [Hp|[Hne <-]]%Hq; [auto|].
      destruct (Hreg Hne) as [Hsome|Hin]; [|auto].
      by apply (same_but_rdeps_is_Some _ _ _ Hs).
Qed.

(** The members that the loop over [list(targetdeps.values())] adds, for
    the dependencies [ts] it has gone through. *)
Lemma resolve_group_loop self td1 s1 ts td s :
  (forall p, p ∈ td1 -> is_Some (targetwrappers s1 !! p)) ->
  foldM (resolve_group self) (td1, s1) ts = Ok (td, s) ->
  same_but_rdeps s1 s
  /\ (forall q, q ∈ td <->
        q ∈ td1 \/ exists t tw G g,
          t ∈ ts /\ targetwrappers s1 !! t = Some tw
          /\ _targetGroups s1 !! TargetWrapper.path tw = Some G
          /\ g ∈ G /\ g <> TargetWrapper.target tw /\ BaseTarget.path g = q)
  /\ (forall p, p ∈ td -> is_Some (targetwrappers s1 !! p)).
Proof.
  intros Hkeys H.
  apply (foldM_inv _ (fun pre acc =>
    same_but_rdeps s1 acc.2
    /\ (forall q, q ∈ acc.1 <->
        q ∈ td1 \/ exists t tw G g,
          t ∈ pre /\ targetwrappers s1 !! t = Some tw
          /\ _targetGroups s1 !! TargetWrapper.path tw = Some G
          /\ g ∈ G /\ g <> TargetWrapper.target tw /\ BaseTarget.path g = q)
    /\ (forall p, p ∈ acc.1 -> is_Some (targetwrappers s1 !! p)))) in H; [done| |].
  - simpl. split; [apply same_but_rdeps_refl|]. split; [|done].
    intros q. split; [auto|]. intros [?|(t & ? & ? & ? & Ht & _)]; [done|].
    by apply elem_of_nil in Ht.
  - clear -Hkeys. intros pre t [td2 s2] [td3 s3] _ (Hs & Htd & Hk) Hstep. simpl in *.
    unfold resolve_group in Hstep. simpl in Hstep.
    apply bind_Ok_inv in Hstep as (tw2 & Htw2 & Hstep). apply deref_Ok in Htw2.
    destruct (same_but_rdeps_lookup_inv _ _ _ _ Hs Htw2) as (tw & Htw & Heq).
    assert (TargetWrapper.path tw2 = TargetWrapper.path tw) as Hpath by (by rewrite Heq).
    assert (TargetWrapper.target tw2 = TargetWrapper.target tw) as Htarget by (by rewrite Heq).
    rewrite Hpath, Htarget in Hstep. destruct Hs as [Hgroups Hs0].
    rewrite Hgroups in Hstep.
    destruct (_targetGroups s1 !! TargetWrapper.path tw) as [G|] eqn:HG.
    + apply resolve_members_loop in Hstep as (Hs' & Hq & Hk').
      2:{ intros p Hp. apply (same_but_rdeps_is_Some s1 s2); [by split|auto]. }
      split; [eapply same_but_rdeps_trans; [by split|done]|]. split.
      * intros q. rewrite Hq, Htd. split.
        -- intros [[?|(t' & tw' & G' & g' & Ht' & ?)]|(g & Hg & Hne & Hp)]; [auto| |].
           ++ right. exists t', tw', G', g'. rewrite elem_of_app. naive_solver.
           ++ right. exists t, tw, G, g. rewrite elem_of_app, list_elem_of_singleton.
              naive_solver.
        -- intros [?|(t' & tw' & G' & g' & Ht' & Htw' & HG' & Hg' & Hne & Hp)]; [auto|].
           apply elem_of_app in Ht' as [Ht'| ->%list_elem_of_singleton].
           ++ left. right. exists t', tw', G', g'. done.
           ++ right. exists g'. split_and!; [congruence|congruence|done].
      * intros p Hp. apply Hk' in Hp. apply (same_but_rdeps_is_Some s1 s2); [by split|done].
    + injection Hstep as <- <-. split; [by split|]. split; [|done].
      intros q. rewrite Htd. split.
      * intros [?|(t' & tw' & G' & g' & Ht' & ?)]; [auto|].
        right. exists t', tw', G', g'. rewrite elem_of_app. naive_solver.
      * intros [?|(t' & tw' & G' & g' & Ht' & Htw' & HG' & ?)]; [auto|].
        apply elem_of_app in Ht' as [Ht'| ->%list_elem_of_singleton].
        -- right. exists t', tw', G', g'. done.
        -- congruence.
Qed.

(** ** Resolution: the result *)

Lemma sorted_named_names (s : Scheduler) (td : list string)
    (named : list (string * string)) :
  Forall2 (fun d nd => (dw ← deref s d; Ok (TargetWrapper.name dw, d)) = Ok nd) td named ->
  (sorted fst named).*2 ≡ₚ td
  /\ Forall2 (fun d n => exists dw, targetwrappers s !! d = Some dw
                                   /\ TargetWrapper.name dw = n)
       (sorted fst named).*2 (sorted fst named).*1.
Proof.
  intros H.
  assert (Forall (fun nd => exists dw, targetwrappers s !! nd.2 = Some dw
                                       /\ TargetWrapper.name dw = nd.1) named
          /\ named.*2 = td) as [Hall Hsnd].
  { induction H as [|d nd td named Hd _ [IH1 IH2]]; [done|].
    apply bind_Ok_inv in Hd as (dw & Hdw%deref_Ok & [= <-]). simpl.
    split; [constructor; eauto|csimpl; by f_equal]. }
  split.
  - rewrite <- Hsnd. by rewrite sorted_perm.
  - rewrite <- (sorted_perm fst named) in Hall.
    induction Hall as [|[n d] l Hx _ IH]; simpl; constructor; auto.
Qed.

Lemma sorted_by_fmap {A : Type} (key : A -> string) (l : list A) :
  sorted_by key l -> sorted_by id (key <$> l).
Proof.
  unfold sorted_by. induction 1 as [|x l Hl IH Hhd]; simpl; constructor; [done|].
  destruct Hhd; simpl; constructor; done.
Qed.

Lemma resolve_spec tLPS self s s' w :
  targetwrappers s !! self = Some w ->
  TargetWrapper.__nontargetdeps w = None ->
  resolveUnderlyingDependencies tLPS self s = Ok s' ->
  exists td nd rd names,
    targetwrappers s' !! self
    = Some (TargetWrapper.set_deps (Z.of_nat (length td)) nd td
              (TargetWrapper.set_rdeps rd w))
    /\ (forall k, k <> self ->
          match targetwrappers s !! k, targetwrappers s' !! k with
          | Some a, Some b => b = TargetWrapper.set_rdeps (TargetWrapper.__rdeps b) a
          | None, None => True
          | _, _ => False
          end)
    /\ _targetGroups s' = _targetGroups s
    /\ (forall p, p ∈ td <->
          p <> TargetWrapper.path w /\ (declared_targetdep s w p \/ group_sibling s w p))
    /\ (forall p, p ∈ td -> is_Some (targetwrappers s !! p))
    /\ nd = sorted (fun d => d.1.1)
              (declared_nontargetdeps tLPS s
                 (BaseTarget.underlyingDependencies (TargetWrapper.target w)))
    /\ Forall2 (fun d n => exists dw, targetwrappers s !! d = Some dw
                                     /\ TargetWrapper.name dw = n) td names
    /\ sorted_by id names.
Proof.
  intros Hself Hnone H. unfold resolveUnderlyingDependencies in H.
  apply bind_Ok_inv in H as (w0 & Hw0%deref_Ok & H).
  assert (w0 = w) as -> by congruence. rewrite Hnone in H.
  apply bind_Ok_inv in H as ([[td1 nd1] s1] & H1 & H).
  apply resolve_first_loop in H1 as (Hs1 & Htd1 & Hnd1).
  apply bind_Ok_inv in H as ([td2 s2] & H2 & H).
  assert (same_but_rdeps s1 s2
    /\ (forall q, q ∈ td2 <->
        q ∈ td1 \/ exists t tw G g,
          t ∈ td1 /\ targetwrappers s1 !! t = Some tw
          /\ _targetGroups s1 !! TargetWrapper.path tw = Some G
          /\ g ∈ G /\ g <> TargetWrapper.target tw /\ BaseTarget.path g = q)
    /\ (forall p, p ∈ td2 -> is_Some (targetwrappers s1 !! p))) as (Hs2 & Htd2 & Hk2).
  { assert (forall p, p ∈ td1 -> is_Some (targetwrappers s1 !! p)) as Hk1.
    { intros p Hp. apply (same_but_rdeps_is_Some _ _ _ Hs1). by apply Htd1. }
    destruct td1 as [|t td1]; cbn [truthy] in H2.
    - injection H2 as <- <-. split; [apply same_but_rdeps_refl|]. split; [|done].
      intros q. split; [auto|]. intros [?|(t & ? & ? & ? & Ht & _)]; [done|].
      by apply elem_of_nil in Ht.
    - by apply resolve_group_loop in H2. }
  clear H2. apply bind_Ok_inv in H as (w2 & Hw2%deref_Ok & H).
  apply bind_Ok_inv in H as (named & Hnamed%mapM_result_Forall2 & [= <-]).
  pose proof (same_but_rdeps_trans _ _ _ Hs1 Hs2) as Hs.
  destruct (same_but_rdeps_lookup_inv _ _ _ _ Hs Hw2) as (w' & Hw' & Heq).
  assert (w' = w) as -> by congruence.
  assert (TargetWrapper.path w2 = TargetWrapper.path w) as Hpath by (by rewrite Heq).
  rewrite Hpath in *.
  set (td3 := if bool_decide (TargetWrapper.path w ∈ td2)
              then filter (fun p => p <> TargetWrapper.path w) td2 else td2) in *.
  assert (forall p, p ∈ td3 <-> p ∈ td2 /\ p <> TargetWrapper.path w) as Htd3.
  { intros p. unfold td3. case_bool_decide as Hin.
    - by rewrite list_elem_of_filter, (and_comm (p ∈ td2)).
    - split; [|tauto]. intros Hp. split; [done|]. by intros ->. }
  destruct (sorted_named_names s2 td3 named Hnamed) as [Hperm Hnames].
  exists (sorted fst named).*2, (sorted (fun d => d.1.1) nd1),
    (TargetWrapper.__rdeps w2), (sorted fst named).*1.
  split_and!.
  - simpl. rewrite lookup_insert_eq. f_equal.
    rewrite (Permutation_length Hperm). rewrite Heq. by destruct w.
  - intros k Hne. simpl. rewrite lookup_insert_ne by done.
    destruct Hs as [_ Hs]. apply Hs.
  - simpl. by destruct Hs.
  - intros p. rewrite Hperm, Htd3, Htd2. unfold group_sibling, declared_targetdep.
    destruct Hs1 as [Hg1 Hs1'].
    assert (forall t tw, targetwrappers s1 !! t = Some tw ->
              exists tw0, targetwrappers s !! t = Some tw0
                /\ TargetWrapper.path tw = TargetWrapper.path tw0
                /\ TargetWrapper.target tw = TargetWrapper.target tw0) as Hback.
    { intros t tw Ht. specialize (Hs1' t). rewrite Ht in Hs1'.
      destruct (targetwrappers s !! t) as [tw0|]; [|done].
      exists tw0. by rewrite Hs1'. }
    assert (forall t tw0, targetwrappers s !! t = Some tw0 ->
              exists tw, targetwrappers s1 !! t = Some tw
                /\ TargetWrapper.path tw = TargetWrapper.path tw0
                /\ TargetWrapper.target tw = TargetWrapper.target tw0) as Hforth.
    { intros t tw0 Ht. specialize (Hs1' t). rewrite Ht in Hs1'.
      destruct (targetwrappers s1 !! t) as [tw|]; [|done].
      exists tw. by rewrite Hs1'. }
    split.
    + intros [[Hp|(t & tw & G & g & Ht & Htw & HG & Hg & Hne & Hpg)] Hnp];
        (split; [done|]).
      * left. by apply Htd1.
      * right. destruct (Hback _ _ Htw) as (tw0 & Htw0 & Hp0 & Ht0).
        exists t, tw0, G, g. rewrite <- Hp0, <- Ht0, <- Hg1.
        split_and!; try done; by apply Htd1.
    + intros [Hnp [Hp|(t & tw0 & G & g & Ht & Htw0 & HG & Hg & Hne & Hpg)]];
        (split; [|done]).
      * left. by apply Htd1.
      * right. destruct (Hforth _ _ Htw0) as (tw & Htw & Hp0 & Ht0).
        exists t, tw, G, g. rewrite Hp0, Ht0, Hg1.
        split_and!; try done; by apply Htd1.
  - intros p. rewrite Hperm, Htd3. intros [Hp _].
    apply (same_but_rdeps_is_Some _ _ _ Hs1). by apply Hk2.
  - by rewrite Hnd1.
  - eapply Forall2_impl; [exact Hnames|]. simpl.
    intros d n (dw & Hdw & Hn).
    destruct (same_but_rdeps_lookup_inv _ _ _ _ Hs Hdw) as (dw0 & Hdw0 & Hdeq).
    exists dw0. split; [done|]. rewrite <- Hn, Hdeq. by destruct dw0.
  - apply sorted_by_fmap, sorted_sorted.
Qed.

(** ** Self-loops and the count of dependencies *)

(** C7. After [resolveUnderlyingDependencies] on a wrapper [self], held in
    [scheduler.targetwrappers] under its path, [self] is not in its own
    [__targetdeps], whether the self-edge was declared or came from a
    target group, and [depcount] is the number of the target dependencies
    that remain. *)
Theorem no_self_dependency tLPS self s s' w :
  keyed_by_path s ->
  targetwrappers s !! self = Some w ->
  TargetWrapper.__nontargetdeps w = None ->
  resolveUnderlyingDependencies tLPS self s = Ok s' ->
  exists w' td,
    targetwrappers s' !! self = Some w'
    /\ TargetWrapper.__targetdeps w' = Some td
    /\ (self ∉ td)
    /\ TargetWrapper.depcount w' = Z.of_nat (length td).
Proof.
  intros Hkey Hw Hnone Hres.
  destruct (resolve_spec _ _ _ _ _ Hw Hnone Hres)
    as (td & nd & rd & names & Hw' & _ & _ & Htd & _).
  eexists _, td. split; [exact Hw'|]. split_and!; [done| |done].
  intros Hin%Htd. destruct Hin as [Hne _]. apply Hne. symmetry. by apply (Hkey self w).
Qed.

Lemma no_self_dependency_witness :
  exists w' td,
    targetwrappers ex_resolved_w !! "/out/w" = Some w'
    /\ TargetWrapper.__targetdeps w' = Some td
    /\ ("/out/w" ∉ td)
    /\ TargetWrapper.depcount w' = Z.of_nat (length td).
Proof.
  apply (no_self_dependency id "/out/w" ex_scheduler ex_resolved_w
           (TargetWrapper.__init__ ex_target_w)).
  - unfold keyed_by_path. apply (bool_decide_unpack _). vm_compute. reflexivity.
  - vm_compute. reflexivity.
  - reflexivity.
  - vm_compute. reflexivity.
Defined.

(** ** The target dependencies after resolution *)

(** C5, as the code has it. After [resolveUnderlyingDependencies] on [self]
    its [__targetdeps] are exactly the declared dependencies that are
    targets, together with the other members of the target group of each
    of them, [self] itself left out: dependencies of dependencies are not
    added. When the wrappers are held under their paths and every member
    of a target group is registered with that group, a group with one
    member in [__targetdeps] has all its members there, except [self]. *)
Theorem target_deps_after_resolution tLPS self s s' w :
  targetwrappers s !! self = Some w ->
  TargetWrapper.__nontargetdeps w = None ->
  resolveUnderlyingDependencies tLPS self s = Ok s' ->
  exists w' td,
    targetwrappers s' !! self = Some w'
    /\ TargetWrapper.__targetdeps w' = Some td
    /\ (forall p, p ∈ td <->
          p <> TargetWrapper.path w
          /\ (declared_targetdep s w p \/ group_sibling s w p))
    /\ (keyed_by_path s -> path_of_target s -> groups_closed s ->
        forall k G, _targetGroups s !! k = Some G ->
          (exists g, g ∈ G /\ BaseTarget.path g ∈ td) ->
          forall g, g ∈ G -> BaseTarget.path g <> TargetWrapper.path w ->
            BaseTarget.path g ∈ td).
Proof.
  intros Hw Hnone Hres.
  destruct (resolve_spec _ _ _ _ _ Hw Hnone Hres)
    as (td & nd & rd & names & Hw' & _ & _ & Htd & _).
  eexists _, td. split; [exact Hw'|]. split_and!; [done|done|].
  intros Hkey Hpt Hgc k G HG (g0 & Hg0 & Hin0) g Hg Hne.
  assert (forall m, m ∈ G -> _targetGroups s !! BaseTarget.path m = Some G) as Hreg.
  { intros m Hm. specialize (Hgc k G HG). rewrite Forall_forall in Hgc. by apply Hgc. }
  (* some declared dependency [t] has [G] as its group *)
  assert (exists t tw, declared_targetdep s w t /\ targetwrappers s !! t = Some tw
                       /\ _targetGroups s !! TargetWrapper.path tw = Some G) as
    (t & tw & Hdecl & Htw & HGt).
  { apply Htd in Hin0 as [_ [Hdecl|(t & tw & G' & g' & Hdecl & Htw & HG' & Hg' & _ & Hp)]].
    - destruct Hdecl as [Hd [tw Htw]]. exists (BaseTarget.path g0), tw.
      split_and!; [by split; eauto|done|].
      rewrite (Hkey _ _ Htw). by apply Hreg.
    - exists t, tw. split_and!; [done|done|].
      assert (_targetGroups s !! BaseTarget.path g' = Some G') as HG'' .
      { specialize (Hgc _ G' HG'). rewrite Forall_forall in Hgc. by apply Hgc. }
      rewrite Hp, (Hreg _ Hg0) in HG''. congruence. }
  apply Htd. split; [done|].
  destruct (decide (g = TargetWrapper.target tw)) as [->|Hgne].
  - left. rewrite (Hpt _ _ Htw), (Hkey _ _ Htw). done.
  - right. exists t, tw, G, g. done.
Qed.

Lemma target_deps_after_resolution_witness :
  exists td,
    (TargetWrapper.__targetdeps <$> targetwrappers ex_resolved_w !! "/out/w") = Some (Some td)
    /\ (forall p, p ∈ td <->
          p <> "/out/w"
          /\ (declared_targetdep ex_scheduler (TargetWrapper.__init__ ex_target_w) p
              \/ group_sibling ex_scheduler (TargetWrapper.__init__ ex_target_w) p))
    /\ forall g, g ∈ [ex_target_w; ex_target_a] -> BaseTarget.path g <> "/out/w" ->
         BaseTarget.path g ∈ td.
Proof.
  destruct (target_deps_after_resolution id "/out/w" ex_scheduler ex_resolved_w
              (TargetWrapper.__init__ ex_target_w))
    as (w' & td & Hw' & Htd & Hchar & Hgroup).
  - vm_compute. reflexivity.
  - reflexivity.
  - vm_compute. reflexivity.
  - exists td. split; [by rewrite Hw', <- Htd|]. split; [exact Hchar|].
    apply (Hgroup ltac:(unfold keyed_by_path; apply (bool_decide_unpack _); vm_compute; reflexivity)
                  ltac:(unfold path_of_target; apply (bool_decide_unpack _); vm_compute; reflexivity)
                  ltac:(unfold groups_closed; apply (bool_decide_unpack _); vm_compute; reflexivity)
                  "/out/a" [ex_target_w; ex_target_a]).
    + vm_compute. reflexivity.
    + exists ex_target_a. split; [set_solver|].
      apply Hchar. split; [done|]. left. split; [set_solver|].
      vm_compute. eauto.
Defined.

(** C5 as stated fails where [w] is itself in the group of a dependency:
    [a] of the group of [w] and [a] is in the target dependencies of [w],
    [w] of the same group is not; and [c], a dependency of the dependency
    [a], is not either. *)
Lemma group_closure_counterexample :
  exists s' w' td G,
    resolveUnderlyingDependencies id "/out/w" ex_scheduler = Ok s'
    /\ targetwrappers s' !! "/out/w" = Some w'
    /\ TargetWrapper.__targetdeps w' = Some td
    /\ _targetGroups s' !! "/out/a" = Some G
    /\ (exists g, g ∈ G /\ BaseTarget.path g ∈ td)
    /\ ~ (forall g, g ∈ G -> BaseTarget.path g ∈ td)
    /\ "/out/a" ∈ td
    /\ declared_targetdep ex_scheduler (TargetWrapper.__init__ ex_target_a) "/out/c"
    /\ "/out/c" ∉ td.
Proof.
  eexists _, _, ["/out/a"], [ex_target_w; ex_target_a].
  split; [vm_compute; reflexivity|].
  split; [vm_compute; reflexivity|].
  split; [reflexivity|].
  split; [vm_compute; reflexivity|].
  split_and!.
  - exists ex_target_a. split; set_solver.
  - intros H. specialize (H ex_target_w ltac:(set_solver)). simpl in H.
    apply list_elem_of_singleton in H. discriminate.
  - set_solver.
  - split; [set_solver|]. vm_compute. eauto.
  - intros H%list_elem_of_singleton. discriminate.
Qed.

(** ** Reverse edges *)

(** C6 fails on the diagonal: in the small build, after every wrapper is
    resolved, [w] is in its own [__rdeps] (the group of its dependency [a]
    registered it) and not in its own [__targetdeps] (the self-edge was
    deleted, the reverse edge was not). *)
Theorem reverse_edge_left_by_pruned_self_loop :
  exists s' w',
    resolveAll id ["/out/w"; "/out/a"; "/out/c"] ex_scheduler = Ok s'
    /\ targetwrappers s' !! "/out/w" = Some w'
    /\ "/out/w" ∈ TargetWrapper.__rdeps w'
    /\ TargetWrapper.__targetdeps w' = Some ["/out/a"]
    /\ "/out/w" ∉ ["/out/a"].
Proof.
  eexists _, _.
  split; [vm_compute; reflexivity|].
  split; [vm_compute; reflexivity|].
  split; [simpl; set_solver|].
  split; [reflexivity|].
  intros H%list_elem_of_singleton. discriminate.
Qed.

(** ** The implicit inputs file read back *)

Lemma read_write tLPS fs path data :
  fileutils.read tLPS (fileutils.write tLPS path data fs) path = Ok data.
Proof. unfold fileutils.read, fileutils.write, fileutils.getstat. simpl. by rewrite lookup_insert_eq. Qed.




(** ** The fingerprint *)

Lemma same_static_refl w : same_static w w.
Proof. by repeat split. Qed.

Lemma same_static_set_rdeps v w : same_static w (TargetWrapper.set_rdeps v w).
Proof. by repeat split. Qed.

(** Resolution leaves what [__init__] set, for every wrapper. *)
Lemma resolve_same_static tLPS self s s' w k a :
  targetwrappers s !! self = Some w ->
  TargetWrapper.__nontargetdeps w = None ->
  resolveUnderlyingDependencies tLPS self s = Ok s' ->
  targetwrappers s !! k = Some a ->
  exists b, targetwrappers s' !! k = Some b /\ same_static a b.
Proof.
  intros Hw Hnone Hres Ha.
  destruct (resolve_spec _ _ _ _ _ Hw Hnone Hres)
    as (td & nd & rd & names & Hw' & Hothers & _).
  destruct (decide (k = self)) as [->|Hne].
  - eexists. split; [exact Hw'|]. assert (a = w) as -> by congruence. by repeat split.
  - specialize (Hothers k Hne). rewrite Ha in Hothers.
    destruct (targetwrappers s' !! k) as [b|]; [|done].
    exists b. split; [done|]. rewrite Hothers. apply same_static_set_rdeps.
Qed.

Lemma getImplicitInputs_fresh os self s w td nd dws :
  targetwrappers s !! self = Some w ->
  TargetWrapper.__implicitInputs w = None ->
  TargetWrapper.__targetdeps w = Some td ->
  TargetWrapper.__nontargetdeps w = Some nd ->
  Forall2 (fun d dw => targetwrappers s !! d = Some dw) td dws ->
  let x := map TargetWrapper.path dws ++ map (fun d => d.1.1) nd
           ++ map escape_line
                (PyStr.split (linesep os)
                   (PyStr.join (linesep os)
                      (BaseTarget.hashableImplicitInputs (TargetWrapper.target w)))) in
  __getImplicitInputs os self s
  = Ok (x, put self (TargetWrapper.set_implicitInputs (Some x) w) s).
Proof.
  intros Hw Hnone Htd Hnd Hdws x. unfold __getImplicitInputs, deref, getitem.
  rewrite Hw. simpl. rewrite Hnone, Htd, Hnd.
  assert (mapM_result (fun wrapper => dw ← match targetwrappers s !! wrapper with
                                          | Some a => Ok a
                                          | None => Raise (KeyError wrapper)
                                          end; Ok (TargetWrapper.path dw)) td
          = Ok (map TargetWrapper.path dws)) as ->.
  { apply mapM_result_Forall2. clear -Hdws.
    induction Hdws as [|d dw td dws Hd _ IH]; simpl; constructor; [|done].
    by rewrite Hd. }
  simpl. unfold x. by rewrite <- app_assoc.
Qed.

Lemma names_of_wrappers (s : Scheduler) (td names : list string) (dws : list TargetWrapper.t) :
  Forall2 (fun d n => exists dw, targetwrappers s !! d = Some dw
                                 /\ TargetWrapper.name dw = n) td names ->
  Forall2 (fun d dw => exists a, targetwrappers s !! d = Some a
                                 /\ TargetWrapper.name dw = TargetWrapper.name a) td dws ->
  names = TargetWrapper.name <$> dws.
Proof.
  intros Hn. revert dws. induction Hn as [|d n td names Hdn _ IH]; intros dws Hd.
  - by apply Forall2_nil_inv_l in Hd as ->.
  - inversion Hd as [|? dw ? dws' (a' & Ha' & Hname) Hd']; subst. csimpl.
    destruct Hdn as (a & Ha & <-).
    f_equal; [congruence|by apply IH].
Qed.

Lemma sorted_by_names (s : Scheduler) (td names : list string) (dws : list TargetWrapper.t) :
  Forall2 (fun d n => exists dw, targetwrappers s !! d = Some dw
                                 /\ TargetWrapper.name dw = n) td names ->
  Forall2 (fun d dw => exists a, targetwrappers s !! d = Some a
                                 /\ TargetWrapper.name dw = TargetWrapper.name a) td dws ->
  sorted_by id names -> sorted_by TargetWrapper.name dws.
Proof.
  intros Hn Hd Hs. rewrite (names_of_wrappers _ _ _ _ Hn Hd) in Hs.
  clear -Hs. unfold sorted_by in *. induction dws as [|dw dws IH]; [constructor|].
  csimpl in Hs. inversion Hs as [|?? Hs' Hhd]; subst. constructor; [by apply IH|].
  destruct dws; csimpl in *; constructor. by inversion Hhd.
Qed.

(** C2, as the code has it. For a wrapper just resolved the fingerprint is
    the concatenation of: the path of each target dependency, in the order
    of the names of their wrappers; the long-path-safe path of each
    declared dependency that is not a target, in the order of these paths;
    and the lines of the hashable implicit inputs joined with [os.linesep]
    and split on it again, each with CR and LF escaped. An input that
    contains [os.linesep] gives several lines, and no input gives one empty
    line. *)
Theorem implicit_inputs_fingerprint os tLPS self s s' w :
  targetwrappers s !! self = Some w ->
  TargetWrapper.__nontargetdeps w = None ->
  TargetWrapper.__implicitInputs w = None ->
  resolveUnderlyingDependencies tLPS self s = Ok s' ->
  exists dws nd x s'',
    __getImplicitInputs os self s' = Ok (x, s'')
    /\ x = map TargetWrapper.path dws ++ map (fun d => d.1.1) nd
           ++ map escape_line
                (PyStr.split (linesep os)
                   (PyStr.join (linesep os)
                      (BaseTarget.hashableImplicitInputs (TargetWrapper.target w))))
    /\ (exists w' td, targetwrappers s' !! self = Some w'
          /\ TargetWrapper.__targetdeps w' = Some td
          /\ TargetWrapper.__nontargetdeps w' = Some nd
          /\ Forall2 (fun d dw => targetwrappers s' !! d = Some dw) td dws)
    /\ sorted_by TargetWrapper.name dws
    /\ sorted_by (fun d => d.1.1) nd
    /\ nd ≡ₚ declared_nontargetdeps tLPS s
               (BaseTarget.underlyingDependencies (TargetWrapper.target w)).
Proof.
  intros Hw Hnone Hcache Hres.
  destruct (resolve_spec _ _ _ _ _ Hw Hnone Hres)
    as (td & nd & rd & names & Hw' & Hothers & Hg & Htd & Hkeys & Hnd & Hnames & Hsorted).
  assert (exists dws, Forall2 (fun d dw => targetwrappers s' !! d = Some dw
                                 /\ exists a, targetwrappers s !! d = Some a
                                      /\ TargetWrapper.name dw = TargetWrapper.name a)
                        td dws) as [dws Hdws].
  { clear -Hkeys Hw Hnone Hres. induction td as [|d td IH]; [by exists []|].
    destruct IH as [dws Hdws]; [intros p Hp; apply Hkeys; by right|].
    destruct (Hkeys d ltac:(by left)) as [a Ha].
    destruct (resolve_same_static _ _ _ _ _ _ _ Hw Hnone Hres Ha) as (b & Hb & Hab).
    exists (b :: dws). constructor; [|done]. split; [done|].
    exists a. split; [done|]. apply Hab. }
  set (w' := TargetWrapper.set_deps (Z.of_nat (length td)) nd td
               (TargetWrapper.set_rdeps rd w)) in *.
  pose proof (getImplicitInputs_fresh os self s' w' td nd dws Hw') as Hget.
  simpl in Hget. rewrite Hcache in Hget.
  eexists dws, nd, _, _. split; [apply Hget; try done|].
  { eapply Forall2_impl; [exact Hdws|]. naive_solver. }
  split; [by destruct w|]. split_and!.
  - exists w', td. split_and!; try done.
    eapply Forall2_impl; [exact Hdws|]. naive_solver.
  - eapply (sorted_by_names s); [exact Hnames| |exact Hsorted].
    eapply Forall2_impl; [exact Hdws|]. naive_solver.
  - rewrite Hnd. apply sorted_sorted.
  - rewrite Hnd. apply sorted_perm.
Qed.

Lemma implicit_inputs_fingerprint_witness :
  exists dws nd x s'',
    __getImplicitInputs Windows "/out/w" ex_resolved_w = Ok (x, s'')
    /\ x = map TargetWrapper.path dws ++ map (fun d => d.1.1) nd
           ++ map escape_line
                (PyStr.split (linesep Windows)
                   (PyStr.join (linesep Windows)
                      (BaseTarget.hashableImplicitInputs
                         (TargetWrapper.target (TargetWrapper.__init__ ex_target_w)))))
    /\ (exists w' td, targetwrappers ex_resolved_w !! "/out/w" = Some w'
          /\ TargetWrapper.__targetdeps w' = Some td
          /\ TargetWrapper.__nontargetdeps w' = Some nd
          /\ Forall2 (fun d dw => targetwrappers ex_resolved_w !! d = Some dw) td dws)
    /\ sorted_by TargetWrapper.name dws
    /\ sorted_by (fun d => d.1.1) nd
    /\ nd ≡ₚ declared_nontargetdeps id ex_scheduler
               (BaseTarget.underlyingDependencies
                  (TargetWrapper.target (TargetWrapper.__init__ ex_target_w))).
Proof.
  apply (implicit_inputs_fingerprint Windows id "/out/w" ex_scheduler ex_resolved_w
           (TargetWrapper.__init__ ex_target_w)).
  - vm_compute. reflexivity.
  - reflexivity.
  - reflexivity.
  - vm_compute. reflexivity.
Defined.

(** C2 as stated fails in two ways. The target [a] has no hashable implicit
    inputs, and its fingerprint ends with an empty line that the stated
    concatenation does not have. On a platform whose line separator is LF
    the input of [c] with an embedded LF gives two lines, where the stated
    concatenation has one line with the LF escaped. *)
Lemma fingerprint_lines_counterexample :
  (exists x s'',
     __getImplicitInputs Posix "/out/a" ex_resolved = Ok (x, s'')
     /\ x = ["/out/c"; ""]
     /\ x <> spec_fingerprint ["/out/c"] [] (BaseTarget.hashableImplicitInputs ex_target_a))
  /\ (exists x s'',
        __getImplicitInputs Posix "/out/c" ex_resolved = Ok (x, s'')
        /\ x = ["x"; "y"]
        /\ x <> spec_fingerprint [] [] (BaseTarget.hashableImplicitInputs ex_target_c)).
Proof.
  split; eexists _, _; (split; [vm_compute; reflexivity|]); (split; [reflexivity|]);
    discriminate.
Qed.

(** ** Missing dependencies *)

Lemma right_kind_check tLPS fs dpath flags pathset :
  right_kind tLPS fs (dpath, flags, pathset) <->
  match fileutils.getstat tLPS fs dpath with
  | None => false
  | Some st =>
      (negb (Z.land flags TargetWrapper.DEP_IS_DIR_PATH =? 0)%Z && S_ISDIR st)
      || (negb (negb (Z.land flags TargetWrapper.DEP_IS_DIR_PATH =? 0)%Z) && S_ISREG st)
  end = true.
Proof.
  unfold right_kind, S_ISDIR, S_ISREG. simpl.
  destruct (fileutils.getstat tLPS fs dpath) as [st|]; [|done].
  destruct (Z.land flags TargetWrapper.DEP_IS_DIR_PATH =? 0)%Z, (st_kind st); simpl;
    split; congruence.
Qed.

Lemma findMissing_all_right tLPS fs deps :
  Forall (right_kind tLPS fs) (existence_checked deps) ->
  findMissing tLPS fs deps = ((fun d => d.1.1) <$> existence_checked deps, Ok None).
Proof.
  unfold existence_checked.
  induction deps as [|[[dpath flags] pathset] deps IH]; intros Hall; [done|].
  cbn [findMissing]. rewrite filter_cons in Hall |- *. simpl in Hall |- *.
  destruct (Z.eqb_spec (Z.land flags TargetWrapper.DEP_SKIP_EXISTENCE_CHECK) 0) as [Hskip|Hskip].
  - rewrite decide_True in Hall |- * by done. simpl.
    apply Forall_cons in Hall as [Hd Hall].
    apply right_kind_check in Hd. rewrite Hd. simpl. by rewrite (IH Hall).
  - rewrite decide_False in Hall |- * by done. simpl. by apply IH.
Qed.

Lemma findMissing_first_wrong tLPS fs deps pre d post :
  existence_checked deps = pre ++ d :: post ->
  Forall (right_kind tLPS fs) pre ->
  ~ right_kind tLPS fs d ->
  findMissing tLPS fs deps
  = ((fun d => d.1.1) <$> (pre ++ [d]),
     if fileutils.exists_ tLPS fs d.1.1 then Raise (AssertionError d.1.1)
     else Ok (Some d.1.1)).
Proof.
  unfold existence_checked. revert pre.
  induction deps as [|[[dpath flags] pathset] deps IH]; intros pre Hsplit Hpre Hd.
  { by destruct pre. }
  cbn [findMissing]. rewrite filter_cons in Hsplit. simpl in Hsplit.
  destruct (Z.eqb_spec (Z.land flags TargetWrapper.DEP_SKIP_EXISTENCE_CHECK) 0) as [Hskip|Hskip].
  - rewrite decide_True in Hsplit by done. simpl.
    destruct pre as [|e pre]; simpl in Hsplit; injection Hsplit as <- Hrest.
    + rewrite right_kind_check in Hd. apply not_true_is_false in Hd. rewrite Hd. simpl.
      by destruct (fileutils.exists_ tLPS fs dpath).
    + apply Forall_cons in Hpre as [He Hpre]. apply right_kind_check in He.
      rewrite He. simpl. by rewrite (IH pre Hrest Hpre Hd).
  - rewrite decide_False in Hsplit by done. simpl. by apply IH.
Qed.

(** C9, as the code has it. For a resolved wrapper,
    [findMissingNonTargetDependencies] stats only dependencies without
    [DEP_SKIP_EXISTENCE_CHECK], in the order of [__nontargetdeps], up to
    the first that is missing or of the wrong kind. When there is none it
    has statted them all and returns [None]. When the first such
    dependency is missing it returns its path; when it is there, of the
    wrong kind, the assertion before the return fails. *)
Theorem findMissingNonTargetDependencies_spec tLPS self fs s w deps :
  targetwrappers s !! self = Some w ->
  TargetWrapper.__nontargetdeps w = Some deps ->
  (Forall (right_kind tLPS fs) (existence_checked deps) ->
   findMissingNonTargetDependencies tLPS self fs s
   = ((fun d => d.1.1) <$> existence_checked deps, Ok None))
  /\ (forall pre d post,
        existence_checked deps = pre ++ d :: post ->
        Forall (right_kind tLPS fs) pre ->
        ~ right_kind tLPS fs d ->
        findMissingNonTargetDependencies tLPS self fs s
        = ((fun d => d.1.1) <$> (pre ++ [d]),
           match fileutils.getstat tLPS fs d.1.1 with
           | None => Ok (Some d.1.1)
           | Some _ => Raise (AssertionError d.1.1)
           end)).
Proof.
  intros Hw Hdeps. unfold findMissingNonTargetDependencies, deref, getitem.
  rewrite Hw, Hdeps. split.
  - apply findMissing_all_right.
  - intros pre d post Hsplit Hpre Hd.
    rewrite (findMissing_first_wrong _ _ _ _ _ _ Hsplit Hpre Hd).
    unfold fileutils.exists_. by destruct (fileutils.getstat tLPS fs d.1.1).
Qed.

Lemma findMissingNonTargetDependencies_spec_witness :
  findMissingNonTargetDependencies id "/out/w" ex_fs_src ex_resolved_w
  = (["/src/w.c"], Ok None)
  /\ findMissingNonTargetDependencies id "/out/w" ex_fs_empty ex_resolved_w
     = (["/src/w.c"], Ok (Some "/src/w.c")).
Proof.
  split.
  - apply (findMissingNonTargetDependencies_spec id "/out/w" ex_fs_src ex_resolved_w
             ex_wrapper_w [("/src/w.c", 0%Z, ex_pathset)]).
    + vm_compute. reflexivity.
    + vm_compute. reflexivity.
    + repeat constructor.
  - apply (proj2 (findMissingNonTargetDependencies_spec id "/out/w" ex_fs_empty
                    ex_resolved_w ex_wrapper_w [("/src/w.c", 0%Z, ex_pathset)]
                    ltac:(vm_compute; reflexivity) ltac:(vm_compute; reflexivity))
             [] ("/src/w.c", 0%Z, ex_pathset) []).
    + reflexivity.
    + constructor.
    + intros H. exact H.
Defined.

(** C9 as stated fails for a dependency that is there and of the wrong
    kind: the source file of [w] is declared as a file and is a directory;
    the path is not returned, the assertion fails. *)
Lemma findMissing_wrong_kind_counterexample :
  TargetWrapper.__nontargetdeps ex_wrapper_w = Some [("/src/w.c", 0%Z, ex_pathset)]
  /\ Z.land 0 TargetWrapper.DEP_IS_DIR_PATH = 0%Z
  /\ Z.land 0 TargetWrapper.DEP_SKIP_EXISTENCE_CHECK = 0%Z
  /\ (st_kind <$> fileutils.getstat id ex_fs_srcdir "/src/w.c") = Some Directory
  /\ findMissingNonTargetDependencies id "/out/w" ex_fs_srcdir ex_resolved_w
     = (["/src/w.c"], Raise (AssertionError "/src/w.c"))
  /\ findMissingNonTargetDependencies id "/out/w" ex_fs_srcdir ex_resolved_w
     <> (["/src/w.c"], Ok (Some "/src/w.c")).
Proof.
  split_and!; try (vm_compute; reflexivity). discriminate.
Qed.

(** ** The constructor of [CustomCommand] *)

(** C10, as the code has it. With [redirectStdOutToTarget] set, when the
    name of the target is a directory path or a [stdout] that is not empty
    is given too, the constructor raises, so no target is made to be run;
    once [BaseTarget.__init__] and [PathSet(...)] have returned, what it
    raises is a [BuildException]. *)
Theorem CustomCommand_redirect_conflict (Command Env : Type)
    (BaseTarget__init__ : string -> list string -> result BaseTarget.t)
    (PathSet__init__ : list string -> result PathSet)
    (target : string) (command : Command) (dependencies : list string)
    (cwd : option string) (env : option Env) (stdout stderr : option string) :
  fileutils.isDirPath target = true \/ CustomCommand.truthy_str stdout = true ->
  exists e,
    CustomCommand.__init__ Command Env BaseTarget__init__ PathSet__init__
      target command dependencies cwd true env stdout stderr = Raise e
    /\ (forall base deps,
          BaseTarget__init__ target dependencies = Ok base ->
          PathSet__init__ dependencies = Ok deps ->
          exists msg, e = BuildException msg).
Proof.
  intros Hcond. unfold CustomCommand.__init__.
  destruct (BaseTarget__init__ target dependencies) as [base|e1]; simpl.
  2:{ exists e1. split; [done|]. intros ?? [=]. }
  destruct (PathSet__init__ dependencies) as [deps|e2]; simpl.
  2:{ exists e2. split; [done|]. intros ?? _ [=]. }
  destruct (fileutils.isDirPath target); [eauto|].
  destruct Hcond as [[=]| ->]. simpl. eauto.
Qed.

Lemma CustomCommand_redirect_conflict_witness :
  exists e,
    CustomCommand.__init__ (list string) unit ex_BaseTarget__init__ ex_PathSet__init__
      "${OUTPUT_DIR}/gen/" ["tool"] ["/src/w.c"] None true None (Some "out.log") None
    = Raise e
    /\ (forall base deps,
          ex_BaseTarget__init__ "${OUTPUT_DIR}/gen/" ["/src/w.c"] = Ok base ->
          ex_PathSet__init__ ["/src/w.c"] = Ok deps ->
          exists msg, e = BuildException msg).
Proof.
  apply (CustomCommand_redirect_conflict (list string) unit
           ex_BaseTarget__init__ ex_PathSet__init__ "${OUTPUT_DIR}/gen/").
  left. vm_compute. reflexivity.
Defined.

(** C10 as stated fails for a [stdout] that is given and empty: the test is
    the truth value of [stdout], and the constructor returns. *)
Lemma CustomCommand_empty_stdout_counterexample :
  exists c,
    CustomCommand.__init__ (list string) unit ex_BaseTarget__init__ ex_PathSet__init__
      "${OUTPUT_DIR}/gen.txt" ["tool"] ["/src/w.c"] None true None (Some "") None
    = Ok c
    /\ CustomCommand.redirectStdOutToTarget _ _ c = true
    /\ CustomCommand.stdout _ _ c = Some "".
Proof. eexists. split; [vm_compute; reflexivity|]. split; reflexivity. Qed.

(** ** The up-to-date check *)

Section Uptodate.
Variable os : platform.
Variable tLPS : string -> string.
Variable fsub : Q -> Q -> Q.
Variable env : option string.
Variable py_int : string -> result Z.
Hypothesis tLPS_idem : forall p, tLPS (tLPS p) = tLPS p.

Lemma getmtime_safe fs p : 
  fileutils.getstat tLPS fs (tLPS p) = fileutils.getstat tLPS fs p.
Proof using tLPS_idem. unfold fileutils.getstat. by rewrite tLPS_idem. Qed.

Lemma isNewer_spec fs name stampfile T p st :
  fileutils.getstat tLPS fs p = Some st ->
  exists b log,
    isNewer tLPS fsub fs name stampfile T p = Ok (b, log)
    /\ (b = true <-> (T < st_mtime st)%Q)
    /\ (b = false -> log = [])
    /\ (b = true ->
        exists lvl fmt, log = [Log lvl fmt [name; p; stampfile]]
          /\ (lvl = WARN <-> (fsub (st_mtime st) T < 1)%Q)).
Proof.
  intros Hst. unfold isNewer, fileutils.getmtime. rewrite Hst. simpl.
  destruct (Qle_bool (st_mtime st) T) eqn:Hle.
  - apply Qle_bool_iff in Hle. eexists _, _. split; [done|]. split_and!; try done.
    split; [done|]. intros Hlt. exfalso. by apply (Qlt_not_le _ _ Hlt).
  - assert (T < st_mtime st)%Q as Hlt.
    { apply Qnot_le_lt. intros H%Qle_bool_iff. congruence. }
    destruct (Qlt_le_dec (fsub (st_mtime st) T) 1) as [Hgap|Hgap];
      (eexists _, _; split; [done|]; split_and!; [done|done|]);
      intros _; eexists _, _; (split; [done|]).
    + done.
    + split; [done|]. intros Hlt1. exfalso. by apply (Qlt_not_le _ _ Hlt1).
Qed.

Lemma newerTargetDep_spec fs s name stampfile T td :
  Forall (fun d => exists dw, targetwrappers s !! d = Some dw
            /\ is_Some (fileutils.getstat tLPS fs (input_of_targetdep dw))) td ->
  exists b log,
    newerTargetDep tLPS fsub fs s name stampfile T td = Ok (b, log)
    /\ (b = true <->
        exists d dw m, d ∈ td /\ targetwrappers s !! d = Some dw
          /\ fileutils.getmtime tLPS fs (input_of_targetdep dw) = Ok m /\ (T < m)%Q)
    /\ (b = false -> log = [])
    /\ (b = true -> logged_newer tLPS fsub fs name stampfile T log).
Proof using tLPS_idem.
  induction 1 as [|d td (dw & Hdw & [st Hst]) _ (b & log & Hrun & Hb & Hlog0 & Hlog1)].
  - exists false, []. split; [done|]. split_and!; try done.
    split; [done|]. intros (d & ? & ? & Hd%elem_of_nil & _). done.
  - cbn [newerTargetDep]. unfold deref, getitem. rewrite Hdw. simpl.
    assert ((if negb (TargetWrapper.isDirPath dw) then TargetWrapper.path dw
             else TargetWrapper.stampfile dw) = input_of_targetdep dw) as ->.
    { unfold input_of_targetdep. by destruct (TargetWrapper.isDirPath dw). }
    pose proof Hst as Hst'. rewrite <- getmtime_safe in Hst'.
    destruct (isNewer_spec fs name stampfile T _ st Hst')
      as (b1 & log1 & -> & Hb1 & Hl0 & Hl1). simpl.
    assert (fileutils.getmtime tLPS fs (input_of_targetdep dw) = Ok (st_mtime st)) as Hm
      by (unfold fileutils.getmtime; by rewrite Hst).
    destruct b1.
    + exists true, log1. split; [done|]. split_and!; [|done|].
      * split; [intros _|done]. exists d, dw, (st_mtime st).
        split_and!; [by left|done|done|by apply Hb1].
      * intros _. destruct (Hl1 eq_refl) as (lvl & fmt & -> & Hlvl).
        exists (tLPS (input_of_targetdep dw)), (st_mtime st), lvl, fmt.
        split_and!; [done| |by apply Hb1|done].
        unfold fileutils.getmtime. by rewrite Hst'.
    + exists b, log. split; [done|]. split_and!; [|done|done].
      rewrite Hb. split.
      * intros (d' & dw' & m & Hd' & ?). exists d', dw', m. split; [by right|done].
      * intros (d' & dw' & m & [->|Hd']%elem_of_cons & Hdw' & Hm' & Hlt).
        -- assert (dw' = dw) as -> by congruence.
           rewrite Hm in Hm'. injection Hm' as <-.
           apply Hb1 in Hlt. done.
        -- exists d', dw', m. done.
Qed.

Lemma newerNonTargetDep_spec fs name stampfile T nd :
  Forall (fun e => Z.land e.1.2 TargetWrapper.DEP_IS_DIR_PATH = 0%Z ->
                   is_Some (fileutils.getstat tLPS fs e.1.1)) nd ->
  exists b log,
    newerNonTargetDep tLPS fsub fs name stampfile T nd = Ok (b, log)
    /\ (b = true <->
        exists p flags pathset m, (p, flags, pathset) ∈ nd
          /\ Z.land flags TargetWrapper.DEP_IS_DIR_PATH = 0%Z
          /\ fileutils.getmtime tLPS fs p = Ok m /\ (T < m)%Q)
    /\ (b = false -> log = [])
    /\ (b = true -> logged_newer tLPS fsub fs name stampfile T log).
Proof.
  induction 1 as [|[[p flags] pathset] nd Hst _ (b & log & Hrun & Hb & Hlog0 & Hlog1)].
  - exists false, []. split; [done|]. split_and!; try done.
    split; [done|]. intros (? & ? & ? & ? & Hd%elem_of_nil & _). done.
  - cbn [newerNonTargetDep]. simpl in Hst.
    destruct (Z.eqb_spec (Z.land flags TargetWrapper.DEP_IS_DIR_PATH) 0) as [Hfile|Hdir].
    + destruct (Hst Hfile) as [st Hp].
      destruct (isNewer_spec fs name stampfile T _ st Hp)
        as (b1 & log1 & -> & Hb1 & Hl0 & Hl1). simpl.
      assert (fileutils.getmtime tLPS fs p = Ok (st_mtime st)) as Hm
        by (unfold fileutils.getmtime; by rewrite Hp).
      destruct b1.
      * exists true, log1. split; [done|]. split_and!; [|done|].
        -- split; [intros _|done]. exists p, flags, pathset, (st_mtime st).
           split_and!; [by left|done|done|by apply Hb1].
        -- intros _. destruct (Hl1 eq_refl) as (lvl & fmt & -> & Hlvl).
           exists p, (st_mtime st), lvl, fmt. split_and!; [done|done|by apply Hb1|done].
      * exists b, log. split; [done|]. split_and!; [|done|done].
        rewrite Hb. split.
        -- intros (p' & f' & ps' & m & Hin & ?). exists p', f', ps', m.
           split; [by right|done].
        -- intros (p' & f' & ps' & m & [[= -> -> ->]|Hin]%elem_of_cons & Hf & Hm' & Hlt).
           ++ rewrite Hm in Hm'. injection Hm' as <-. apply Hb1 in Hlt. done.
           ++ exists p', f', ps', m. done.
    + exists b, log. split; [done|]. split_and!; [|done|done].
      rewrite Hb. split.
      * intros (p' & f' & ps' & m & Hin & ?). exists p', f', ps', m.
        split; [by right|done].
      * intros (p' & f' & ps' & m & [[= -> -> ->]|Hin]%elem_of_cons & Hf & Hm' & Hlt).
        -- done.
        -- exists p', f', ps', m. done.
Qed.

Lemma getImplicitInputs_inv self s x s1 :
  __getImplicitInputs os self s = Ok (x, s1) ->
  exists w, targetwrappers s !! self = Some w
    /\ (s1 = s \/ s1 = put self (TargetWrapper.set_implicitInputs (Some x) w) s).
Proof.
  unfold __getImplicitInputs. intros H.
  apply bind_Ok_inv in H as (w & Hw%deref_Ok & H). exists w. split; [done|].
  destruct (TargetWrapper.__implicitInputs w); [injection H as <- <-; auto|].
  destruct (TargetWrapper.__targetdeps w); [|done].
  destruct (TargetWrapper.__nontargetdeps w); [|done].
  apply bind_Ok_inv in H as (paths & _ & [= <- <-]). auto.
Qed.

(** Computing the fingerprint changes the cache of [self] and nothing
    else. *)
Lemma getImplicitInputs_lookup self s x s1 k :
  __getImplicitInputs os self s = Ok (x, s1) ->
  match targetwrappers s !! k, targetwrappers s1 !! k with
  | Some a, Some b =>
      b = a \/ b = TargetWrapper.set_implicitInputs (Some x) a
  | None, None => True
  | _, _ => False
  end.
Proof.
  intros (w & Hw & [->| ->])%getImplicitInputs_inv.
  - destruct (targetwrappers s !! k); auto.
  - simpl. destruct (decide (self = k)) as [<-|Hne].
    + rewrite Hw, lookup_insert_eq. auto.
    + rewrite lookup_insert_ne by done. destruct (targetwrappers s !! k); auto.
Qed.

Lemma implicitInputsChanged_unchanged fs w ii :
  fingerprint_unchanged os tLPS fs w ii ->
  exists log5, implicitInputsChanged os tLPS env py_int fs w ii = Ok (false, log5).
Proof.
  unfold fingerprint_unchanged, implicitInputsChanged.
  intros [[-> ->]|(Hex & contents & Hread & Hsplit)]; simpl; [eauto|].
  destruct (truthy ii || TargetWrapper.isDirPath w); [|eauto].
  rewrite Hex, Hread. simpl. rewrite bool_decide_false by (by intros []). eauto.
Qed.

(** C1, as the code has it. For a wrapper that is not dirty, whose path is
    there, whose stamp file is a regular file, whose fingerprint is
    unchanged, and whose inputs can be statted, [uptodate(context, False)]
    returns [False] exactly when the modification time of some input is
    greater than that of the stamp file: of the path of a file target
    dependency, of the stamp file of a directory target dependency, of a
    dependency that is not a target and not a directory. Dependencies
    that are directories and not targets do not count. However small the
    gap, the check returns [False]; what it logs last is then a warning
    when the gap, as the difference of the two floats, is under one
    second. *)
Theorem uptodate_input_mtimes self fs s w td nd ii s1 :
  targetwrappers s !! self = Some w ->
  TargetWrapper.__isdirty w = false ->
  fileutils.exists_ tLPS fs (TargetWrapper.path w) = true ->
  fileutils.isfile tLPS fs (TargetWrapper.stampfile w) = true ->
  TargetWrapper.__targetdeps w = Some td ->
  TargetWrapper.__nontargetdeps w = Some nd ->
  __getImplicitInputs os self s = Ok (ii, s1) ->
  fingerprint_unchanged os tLPS fs w ii ->
  inputs_exist tLPS fs s td nd ->
  exists T b log,
    fileutils.getmtime tLPS fs (TargetWrapper.stampfile w) = Ok T
    /\ uptodate os tLPS fsub env py_int self fs false s = Ok (b, s1, log)
    /\ (b = false <-> exists p m, input_mtime tLPS fs s td nd p m /\ (T < m)%Q)
    /\ (b = false ->
        exists p m lvl fmt,
          last log = Some (Log lvl fmt [TargetWrapper.name w; p; TargetWrapper.stampfile w])
          /\ fileutils.getmtime tLPS fs p = Ok m /\ (T < m)%Q
          /\ (lvl = WARN <-> (fsub m T < 1)%Q)).
Proof using tLPS_idem.
  intros Hw Hclean Hpath Hstamp Htd Hnd Hget Hsame [Htex Hnex].
  unfold uptodate, deref, getitem. rewrite Hw. simpl.
  rewrite Hclean, Hpath, Hstamp, Hget. simpl.
  pose proof (getImplicitInputs_lookup self s ii s1 self Hget) as Hself.
  rewrite Hw in Hself.
  destruct (targetwrappers s1 !! self) as [w1|] eqn:Hw1; [|done]. simpl.
  assert (TargetWrapper.name w1 = TargetWrapper.name w
          /\ TargetWrapper.stampfile w1 = TargetWrapper.stampfile w
          /\ TargetWrapper.__targetdeps w1 = Some td
          /\ TargetWrapper.__nontargetdeps w1 = Some nd
          /\ fingerprint_unchanged os tLPS fs w1 ii) as (Hn1 & Hs1 & Htd1 & Hnd1 & Hsame1).
  { destruct Hself as [->| ->]; [done|]. by destruct w. }
  destruct (implicitInputsChanged_unchanged fs w1 ii Hsame1) as [log5 ->]. simpl.
  rewrite Hs1, Hn1, Htd1, Hnd1.
  unfold fileutils.isfile in Hstamp.
  destruct (fileutils.getstat tLPS fs (TargetWrapper.stampfile w)) as [st|] eqn:Hst; [|done].
  set (T := st_mtime st).
  assert (fileutils.getmtime tLPS fs (TargetWrapper.stampfile w) = Ok T) as HT
    by (unfold fileutils.getmtime; by rewrite Hst).
  rewrite HT. simpl.
  (* the inputs are seen alike in [s] and in [s1] *)
  assert (forall d dw, targetwrappers s !! d = Some dw ->
            exists dw1, targetwrappers s1 !! d = Some dw1
              /\ input_of_targetdep dw1 = input_of_targetdep dw) as Hforth.
  { intros d dw Hd. pose proof (getImplicitInputs_lookup self s ii s1 d Hget) as H.
    rewrite Hd in H. destruct (targetwrappers s1 !! d) as [dw1|]; [|done].
    exists dw1. split; [done|]. destruct H as [->| ->]; [done|by destruct dw]. }
  assert (forall d dw1, targetwrappers s1 !! d = Some dw1 ->
            exists dw, targetwrappers s !! d = Some dw
              /\ input_of_targetdep dw1 = input_of_targetdep dw) as Hback.
  { intros d dw1 Hd. pose proof (getImplicitInputs_lookup self s ii s1 d Hget) as H.
    rewrite Hd in H. destruct (targetwrappers s !! d) as [dw|]; [|done].
    exists dw. split; [done|]. destruct H as [->| ->]; [done|by destruct dw]. }
  destruct (newerTargetDep_spec fs s1 (TargetWrapper.name w) (TargetWrapper.stampfile w) T td)
    as (b1 & log1 & -> & Hb1 & Hl1 & Hl1').
  { eapply Forall_impl; [exact Htex|]. simpl. intros d (dw & Hd & Hsome).
    destruct (Hforth _ _ Hd) as (dw1 & Hd1 & Hin). exists dw1. by rewrite Hin. }
  simpl. exists T. destruct b1.
  - (* a target dependency is newer *)
    exists false, (([Log DEBUG "Up-to-date check for" [TargetWrapper.name w]] ++ log5) ++ log1).
    split; [done|]. split; [by rewrite <- app_assoc|]. split.
    + split; [intros _|done].
      destruct (proj1 Hb1 eq_refl) as (d & dw1 & m & Hd & Hdw1 & Hm & Hlt).
      destruct (Hback _ _ Hdw1) as (dw & Hdw & Hin).
      exists (input_of_targetdep dw), m. split; [|done].
      split; [|by rewrite <- Hin]. left. by exists d, dw.
    + intros _. destruct (Hl1' eq_refl) as (p & m & lvl & fmt & -> & Hm & Hlt & Hlvl).
      exists p, m, lvl, fmt. split; [by rewrite last_snoc|done].
  - destruct (newerNonTargetDep_spec fs (TargetWrapper.name w) (TargetWrapper.stampfile w) T nd
                Hnex) as (b2 & log2 & -> & Hb2 & Hl2 & Hl2').
    simpl. destruct b2.
    + exists false, (([Log DEBUG "Up-to-date check for" [TargetWrapper.name w]] ++ log5) ++ log2).
      split; [done|]. split; [by rewrite <- app_assoc|]. split.
      * split; [intros _|done].
        destruct (proj1 Hb2 eq_refl) as (p & flags & ps & m & Hin & Hf & Hm & Hlt).
        exists p, m. split; [|done]. split; [|done]. right. by exists flags, ps.
      * intros _. destruct (Hl2' eq_refl) as (p & m & lvl & fmt & -> & Hm & Hlt & Hlvl).
        exists p, m, lvl, fmt. split; [by rewrite last_snoc|done].
    + exists true, ([Log DEBUG "Up-to-date check for" [TargetWrapper.name w]] ++ log5).
      split; [done|]. split; [done|]. split; [|done].
      split; [done|]. intros (p & m & [[(d & dw & Hd & Hdw & ->)|(flags & ps & Hin & Hf)] Hm] & Hlt).
      * destruct (Hforth _ _ Hdw) as (dw1 & Hdw1 & Hin).
        enough (false = true) by done. apply Hb1.
        exists d, dw1, m. by rewrite Hin.
      * enough (false = true) by done. apply Hb2. by exists p, flags, ps, m.
Qed.
End Uptodate.

Lemma uptodate_input_mtimes_witness :
  exists T b log,
    fileutils.getmtime id ex_fs_built (TargetWrapper.stampfile ex_wrapper_w) = Ok T
    /\ uptodate Posix id Qminus None ex_int "/out/w" ex_fs_built false ex_resolved_w
       = Ok (b, ex_fingerprint_w.2, log)
    /\ (b = false <->
        exists p m, input_mtime id ex_fs_built ex_resolved_w ["/out/a"]
                      [("/src/w.c", 0%Z, ex_pathset)] p m /\ (T < m)%Q)
    /\ (b = false ->
        exists p m lvl fmt,
          last log = Some (Log lvl fmt [TargetWrapper.name ex_wrapper_w; p;
                                        TargetWrapper.stampfile ex_wrapper_w])
          /\ fileutils.getmtime id ex_fs_built p = Ok m /\ (T < m)%Q
          /\ (lvl = WARN <-> (Qminus m T < 1)%Q)).
Proof.
  apply (uptodate_input_mtimes Posix id Qminus None ex_int (fun p => eq_refl) "/out/w" ex_fs_built
           ex_resolved_w ex_wrapper_w ["/out/a"] [("/src/w.c", 0%Z, ex_pathset)]
           ex_fingerprint_w.1 ex_fingerprint_w.2).
  - vm_compute. reflexivity.
  - vm_compute. reflexivity.
  - vm_compute. reflexivity.
  - vm_compute. reflexivity.
  - vm_compute. reflexivity.
  - vm_compute. reflexivity.
  - vm_compute. reflexivity.
  - right. split; [vm_compute; reflexivity|].
    eexists. split; vm_compute; reflexivity.
  - split.
    + constructor; [|constructor]. eexists. split; [vm_compute; reflexivity|].
      vm_compute. eauto.
    + constructor; [|constructor]. intros _. vm_compute. eauto.
Defined.

(** C1 as stated fails where an input cannot be statted. The dependency
    [/src/a.c] of [k] comes from a path set that skips the check of
    existence, so [findMissingNonTargetDependencies] finds nothing
    missing; [k] passes the first five steps; the input [/src/b.c] is
    newer than the stamp file; and [uptodate] raises [OSError] on
    [/src/a.c] instead of returning [False]. *)
Lemma uptodate_missing_input_counterexample :
  exists w ii s1 nd,
    targetwrappers ex_resolved_k !! "/out/k" = Some w
    /\ (findMissingNonTargetDependencies id "/out/k" ex_fs_k ex_resolved_k).2 = Ok None
    /\ TargetWrapper.__isdirty w = false
    /\ fileutils.exists_ id ex_fs_k (TargetWrapper.path w) = true
    /\ fileutils.isfile id ex_fs_k (TargetWrapper.stampfile w) = true
    /\ __getImplicitInputs Posix "/out/k" ex_resolved_k = Ok (ii, s1)
    /\ fingerprint_unchanged Posix id ex_fs_k w ii
    /\ TargetWrapper.__targetdeps w = Some []
    /\ TargetWrapper.__nontargetdeps w = Some nd
    /\ fileutils.getmtime id ex_fs_k (TargetWrapper.stampfile w) = Ok 100%Q
    /\ (exists p m, input_mtime id ex_fs_k ex_resolved_k [] nd p m /\ (100 < m)%Q)
    /\ uptodate Posix id Qminus None ex_int "/out/k" ex_fs_k false ex_resolved_k
       = Raise (OSError "/src/a.c").
Proof.
  eexists _, _, _, _.
  split; [vm_compute; reflexivity|].
  split; [vm_compute; reflexivity|].
  split; [vm_compute; reflexivity|].
  split; [vm_compute; reflexivity|].
  split; [vm_compute; reflexivity|].
  split; [vm_compute; reflexivity|].
  split.
  { right. split; [vm_compute; reflexivity|].
    eexists. split; vm_compute; reflexivity. }
  split; [vm_compute; reflexivity|].
  split; [vm_compute; reflexivity|].
  split; [vm_compute; reflexivity|].
  split.
  { exists "/src/b.c", 500%Q. split; [|done].
    split; [|vm_compute; reflexivity].
    right. exists 0%Z, ex_pathset. split; [|done]. set_solver. }
  vm_compute. reflexivity.
Qed.

Example uptodate_ex_built :
  exists log, uptodate Posix id Qminus None ex_int "/out/w" ex_fs_built false ex_resolved_w
              = Ok (false, ex_fingerprint_w.2, log)
    /\ last log = Some (Log WARN "must be rebuilt because input file is newer by just"
                          ["${OUTPUT_DIR}/w"; "/out/a"; "/out/w"]).
Proof. eexists. split; vm_compute; reflexivity. Qed.

(** ** The build step *)

Section Run.
Variable os : platform.
Variable tLPS : string -> string.
Hypothesis tLPS_idem : forall p, tLPS (tLPS p) = tLPS p.
Variable target_run : BaseTarget.t -> filesystem -> filesystem * result unit.
Variable dirname : string -> string.

(** C4, as the code has it. When the fingerprint is not empty or the
    target is a directory, [run] deletes the implicit inputs file, then
    calls [target.run], on files without it. When [target.run] raises,
    [run] raises and leaves the files as [target.run] left them: a recipe
    that does not write the implicit inputs file itself leaves none. When
    [target.run] returns, [run] returns with the implicit inputs file
    holding the fingerprint joined with [os.linesep], which reads back as
    the fingerprint, line for line, when the fingerprint is not empty and
    no line of it contains [os.linesep]. *)
Theorem run_implicit_inputs_file self fs s w ii s1 :
  targetwrappers s !! self = Some w ->
  __getImplicitInputs os self s = Ok (ii, s1) ->
  truthy ii = true \/ TargetWrapper.isDirPath w = true ->
  (forall fs0, nodes (target_run (TargetWrapper.target w) fs0).1
                 !! tLPS (TargetWrapper.__implicitInputsFile w)
               = nodes fs0 !! tLPS (TargetWrapper.__implicitInputsFile w)) ->
  let iif := TargetWrapper.__implicitInputsFile w in
  let fs0 := fileutils.deleteFile tLPS iif fs in
  fileutils.exists_ tLPS fs0 iif = false
  /\ match target_run (TargetWrapper.target w) fs0 with
     | (fs1, Raise e) =>
         run os tLPS target_run dirname self fs s = (fs1, Raise e)
         /\ fileutils.exists_ tLPS fs1 iif = false
     | (fs1, Ok _) =>
         exists fs2,
           run os tLPS target_run dirname self fs s = (fs2, Ok s1)
           /\ fileutils.exists_ tLPS fs2 iif = true
           /\ fileutils.read tLPS fs2 (tLPS iif) = Ok (PyStr.join (linesep os) ii)
           /\ (ii <> [] ->
               Forall (fun l => PyStr.contains (linesep os) l = false) ii ->
               PyStr.split (linesep os) (PyStr.join (linesep os) ii) = ii)
     end.
Proof using tLPS_idem.
  intros Hw Hget Hcond Hframe iif fs0.
  assert (fileutils.exists_ tLPS fs0 iif = false) as Hgone.
  { unfold fileutils.exists_, fileutils.getstat, fs0, fileutils.deleteFile. simpl.
    by rewrite lookup_delete_eq. }
  split; [done|].
  pose proof (getImplicitInputs_lookup os self s ii s1 self Hget) as Hself.
  rewrite Hw in Hself.
  destruct (targetwrappers s1 !! self) as [w1|] eqn:Hw1; [|done].
  assert (TargetWrapper.isDirPath w1 = TargetWrapper.isDirPath w
          /\ TargetWrapper.__implicitInputsFile w1 = iif
          /\ TargetWrapper.target w1 = TargetWrapper.target w) as (Hd1 & Hi1 & Ht1).
  { destruct Hself as [->| ->]; [done|by destruct w]. }
  assert (truthy ii || TargetWrapper.isDirPath w = true) as Hor.
  { destruct Hcond as [-> | ->]; [done|by rewrite orb_true_r]. }
  unfold run. rewrite Hget. unfold deref, getitem. rewrite Hw1.
  rewrite Hd1, Hi1, Ht1, Hor. fold fs0.
  specialize (Hframe fs0).
  destruct (target_run (TargetWrapper.target w) fs0) as [fs1 [[]|e]]; simpl in Hframe.
  - eexists. split; [done|]. split_and!.
    + unfold fileutils.exists_, fileutils.getstat, fileutils.write. simpl.
      by rewrite tLPS_idem, lookup_insert_eq.
    + apply read_write.
    + intros Hne Hall. by apply split_join_lines.
  - split; [done|]. unfold fileutils.exists_, fileutils.getstat in *.
    fold iif in Hframe. rewrite Hframe. unfold fs0, fileutils.deleteFile. simpl.
    by rewrite lookup_delete_eq.
Qed.
End Run.

Lemma run_implicit_inputs_file_witness :
  let iif := "/work/targets/implicit-inputs/w.txt" in
  (fileutils.exists_ id (fileutils.deleteFile id iif ex_fs_built) iif = false
   /\ run Posix id ex_target_run_fails ex_dirname "/out/w" ex_fs_built ex_resolved_w
      = (fileutils.deleteFile id iif ex_fs_built, Raise (BuildException "recipe failed"))
   /\ fileutils.exists_ id (fileutils.deleteFile id iif ex_fs_built) iif = false)
  /\ exists fs2,
       run Posix id ex_target_run_ok ex_dirname "/out/w" ex_fs_built ex_resolved_w
       = (fs2, Ok ex_fingerprint_w.2)
       /\ fileutils.exists_ id fs2 iif = true
       /\ fileutils.read id fs2 iif
          = Ok (PyStr.join (linesep Posix) ["/out/a"; "/src/w.c"; "cflags=-O2"])
       /\ PyStr.split (linesep Posix)
            (PyStr.join (linesep Posix) ["/out/a"; "/src/w.c"; "cflags=-O2"])
          = ["/out/a"; "/src/w.c"; "cflags=-O2"].
Proof.
  intros iif. split.
  - apply (run_implicit_inputs_file Posix id (fun p => eq_refl) ex_target_run_fails
             ex_dirname "/out/w" ex_fs_built ex_resolved_w ex_wrapper_w
             ex_fingerprint_w.1 ex_fingerprint_w.2).
    + vm_compute. reflexivity.
    + vm_compute. reflexivity.
    + left. vm_compute. reflexivity.
    + intros fs0. reflexivity.
  - destruct (run_implicit_inputs_file Posix id (fun p => eq_refl) ex_target_run_ok
                ex_dirname "/out/w" ex_fs_built ex_resolved_w ex_wrapper_w
                ex_fingerprint_w.1 ex_fingerprint_w.2) as [_ (fs2 & Hrun & Hex & Hread & Hsplit)].
    + vm_compute. reflexivity.
    + vm_compute. reflexivity.
    + left. vm_compute. reflexivity.
    + intros fs0. unfold ex_target_run_ok, fileutils.write. simpl.
      by rewrite lookup_insert_ne.
    + exists fs2. split_and!; [exact Hrun|exact Hex|exact Hread|].
      apply Hsplit; [discriminate|repeat constructor].
Defined.

(** C4 as stated fails where the path of a dependency holds a line feed:
    paths are written as they are, so after [run] has returned the
    implicit inputs file reads back as other lines than the fingerprint,
    and the next [uptodate] finds the fingerprint changed. *)
Lemma run_unescaped_path_counterexample :
  exists ii s1 fs2 contents,
    __getImplicitInputs Posix "/out/n" ex_resolved_n = Ok (ii, s1)
    /\ run Posix id ex_target_run_ok ex_dirname "/out/n" ex_fs_empty ex_resolved_n
       = (fs2, Ok s1)
    /\ fileutils.read id fs2 "/work/targets/implicit-inputs/n.txt" = Ok contents
    /\ PyStr.split (linesep Posix) contents <> ii
    /\ exists log,
         uptodate Posix id Qminus None ex_int "/out/n" fs2 false s1 = Ok (false, s1, log).
Proof.
  eexists _, _, _, _.
  split; [vm_compute; reflexivity|].
  split; [vm_compute; reflexivity|].
  split; [vm_compute; reflexivity|].
  split; [vm_compute; discriminate|].
  eexists. vm_compute. reflexivity.
Qed.


(** ** The priority push *)

Lemma elem_of_below v s k :
  k ∈ below v s <->
  exists w, targetwrappers s !! k = Some w /\ (TargetWrapper.effectivePriority w < v)%Z.
Proof.
  unfold below. rewrite elem_of_dom. split.
  - intros [w Hw]. apply map_lookup_filter_Some in Hw as [Hw Hlt]. eauto.
  - intros (w & Hw & Hlt). exists w. by apply map_lookup_filter_Some.
Qed.

Lemma below_size v s : size (below v s) <= size (targetwrappers s).
Proof.
  rewrite <- size_dom. apply subseteq_size. unfold below.
  apply subseteq_dom, map_filter_subseteq.
Qed.

Lemma set_effectivePriority_id w :
  TargetWrapper.set_effectivePriority (TargetWrapper.effectivePriority w) w = w.
Proof. by destruct w. Qed.

Lemma set_effectivePriority_twice v v' w :
  TargetWrapper.set_effectivePriority v (TargetWrapper.set_effectivePriority v' w)
  = TargetWrapper.set_effectivePriority v w.
Proof. by destruct w. Qed.

Lemma same_but_priority_refl s : same_but_priority s s.
Proof.
  split; [done|]. intros k. destruct (targetwrappers s !! k); [|done].
  by rewrite set_effectivePriority_id.
Qed.

Lemma same_but_priority_trans s1 s2 s3 :
  same_but_priority s1 s2 -> same_but_priority s2 s3 -> same_but_priority s1 s3.
Proof.
  intros [Hg1 H1] [Hg2 H2]. split; [congruence|]. intros k.
  specialize (H1 k). specialize (H2 k).
  destruct (targetwrappers s1 !! k) as [a|], (targetwrappers s2 !! k) as [b|],
    (targetwrappers s3 !! k) as [c|]; try done.
  destruct H1 as [E1 ?], H2 as [E2 ?]. split; [|lia].
  etrans; [exact E2|].
  etrans; [exact (f_equal (TargetWrapper.set_effectivePriority
                             (TargetWrapper.effectivePriority c)) E1)|].
  apply set_effectivePriority_twice.
Qed.

Lemma same_but_priority_forth s s' k a :
  same_but_priority s s' -> targetwrappers s !! k = Some a ->
  exists b, targetwrappers s' !! k = Some b
    /\ b = TargetWrapper.set_effectivePriority (TargetWrapper.effectivePriority b) a
    /\ (TargetWrapper.effectivePriority a <= TargetWrapper.effectivePriority b)%Z.
Proof.
  intros [_ H] Ha. specialize (H k). rewrite Ha in H.
  destruct (targetwrappers s' !! k) as [b|]; [|done]. exists b. tauto.
Qed.

Lemma same_but_priority_back s s' k b :
  same_but_priority s s' -> targetwrappers s' !! k = Some b ->
  exists a, targetwrappers s !! k = Some a
    /\ b = TargetWrapper.set_effectivePriority (TargetWrapper.effectivePriority b) a
    /\ (TargetWrapper.effectivePriority a <= TargetWrapper.effectivePriority b)%Z.
Proof.
  intros [_ H] Hb. specialize (H k). rewrite Hb in H.
  destruct (targetwrappers s !! k) as [a|]; [|done]. exists a. tauto.
Qed.

Lemma same_but_priority_size s s' :
  same_but_priority s s' -> size (targetwrappers s') = size (targetwrappers s).
Proof.
  intros H. rewrite <- !size_dom. f_equal. apply set_eq. intros k.
  rewrite !elem_of_dom. split; intros [x Hx].
  - destruct (same_but_priority_back _ _ _ _ H Hx) as (a & Ha & _). eauto.
  - destruct (same_but_priority_forth _ _ _ _ H Hx) as (b & Hb & _). eauto.
Qed.

Lemma resolved_closed_lookup s k w :
  resolved_closed s -> targetwrappers s !! k = Some w ->
  exists td nd,
    TargetWrapper.__targetdeps w = Some td
    /\ TargetWrapper.__nontargetdeps w = Some nd
    /\ Forall (fun d => is_Some (targetwrappers s !! d)) td.
Proof.
  intros Hres Hw. destruct (Hres k w Hw) as ([td Htd] & [nd Hnd] & Hall).
  exists td, nd. rewrite Htd in Hall. done.
Qed.

Lemma same_but_priority_resolved s s' :
  same_but_priority s s' -> resolved_closed s -> resolved_closed s'.
Proof.
  intros H Hres k b Hb.
  destruct (same_but_priority_back _ _ _ _ H Hb) as (a & Ha & Hba & _).
  destruct (resolved_closed_lookup _ _ _ Hres Ha) as (td & nd & Htd & Hnd & Hall).
  assert (TargetWrapper.__targetdeps b = Some td) as Htd'
    by (rewrite Hba; by destruct a).
  assert (TargetWrapper.__nontargetdeps b = Some nd) as Hnd'
    by (rewrite Hba; by destruct a).
  rewrite Htd', Hnd'. split_and!; [done|done|]. simpl.
  eapply Forall_impl; [exact Hall|]. simpl. intros d [x Hx].
  destruct (same_but_priority_forth _ _ _ _ H Hx) as (y & Hy & _). eauto.
Qed.

Lemma same_but_priority_below v s s' :
  same_but_priority s s' -> below v s' ⊆ below v s.
Proof.
  intros H k (b & Hb & Hlt)%elem_of_below. apply elem_of_below.
  destruct (same_but_priority_back _ _ _ _ H Hb) as (a & Ha & _ & Hle).
  exists a. split; [done|lia].
Qed.

(** A wrapper whose own priority stays keeps having pushed it on. *)
Lemma pushed_preserved s s' k a b :
  same_but_priority s s' ->
  targetwrappers s !! k = Some a -> targetwrappers s' !! k = Some b ->
  TargetWrapper.effectivePriority b = TargetWrapper.effectivePriority a ->
  pushed s k -> pushed s' k.
Proof.
  intros H Ha Hb Heq Hp w td d dw Hw Htd Hd Hdw.
  assert (w = b) as -> by congruence.
  destruct (same_but_priority_back _ _ _ _ H Hb) as (a' & Ha' & Hba & _).
  assert (a' = a) as -> by congruence.
  destruct (same_but_priority_back _ _ _ _ H Hdw) as (dw0 & Hdw0 & _ & Hle).
  assert (TargetWrapper.__targetdeps a = Some td) as Htda
    by (rewrite Hba in Htd; by destruct a).
  specialize (Hp a td d dw0 Ha Htda Hd Hdw0). lia.
Qed.

Lemma raised_refl v s : raised v s s.
Proof.
  split; [apply same_but_priority_refl|]. intros k a b Ha Hb.
  assert (b = a) as -> by congruence. split; [by left|done].
Qed.

Lemma raised_pushed v s s' k :
  raised v s s' -> is_Some (targetwrappers s !! k) -> pushed s k -> pushed s' k.
Proof.
  intros [Hsame Hr] [a Ha] Hp.
  destruct (same_but_priority_forth _ _ _ _ Hsame Ha) as (b & Hb & _).
  destruct (Hr k a b Ha Hb) as [_ Hpush].
  destruct (decide (TargetWrapper.effectivePriority b = TargetWrapper.effectivePriority a))
    as [Heq|Hne]; [|by apply Hpush].
  by eapply pushed_preserved.
Qed.

Lemma raised_trans v s1 s2 s3 :
  raised v s1 s2 -> raised v s2 s3 -> raised v s1 s3.
Proof.
  intros [Hs12 H12] [Hs23 H23].
  split; [by eapply same_but_priority_trans|]. intros k a c Ha Hc.
  destruct (same_but_priority_forth _ _ _ _ Hs12 Ha) as (b & Hb & _).
  destruct (H12 k a b Ha Hb) as [Hv12 Hp12].
  destruct (H23 k b c Hb Hc) as [Hv23 Hp23]. split; [lia|].
  intros Hne.
  destruct (decide (TargetWrapper.effectivePriority c = TargetWrapper.effectivePriority b))
    as [Heq|Hne']; [|by apply Hp23].
  apply (pushed_preserved s2 s3 k b c); [done|done|done|done|].
  apply Hp12. congruence.
Qed.

Lemma getTargetDependencies_resolved tLPS self s w td nd :
  targetwrappers s !! self = Some w ->
  TargetWrapper.__targetdeps w = Some td ->
  TargetWrapper.__nontargetdeps w = Some nd ->
  getTargetDependencies tLPS self s = Ok (td, s).
Proof.
  intros Hw Htd Hnd. unfold getTargetDependencies, resolveUnderlyingDependencies,
    deref, getitem. rewrite Hw. simpl. rewrite Hnd. simpl. rewrite Hw. simpl. by rewrite Htd.
Qed.

(** Lifting one wrapper that is below [v] to [v]. *)
Lemma lift_same_but_priority v s dt dw :
  targetwrappers s !! dt = Some dw ->
  (TargetWrapper.effectivePriority dw < v)%Z ->
  same_but_priority s (put dt (TargetWrapper.set_effectivePriority v dw) s).
Proof.
  intros Hdt Hlt. split; [done|]. intros k. simpl.
  destruct (decide (dt = k)) as [<-|Hne].
  - rewrite Hdt, lookup_insert_eq. split; [by destruct dw|]. simpl. destruct dw; simpl in *; lia.
  - rewrite lookup_insert_ne by done. destruct (targetwrappers s !! k); [|done].
    split; [by rewrite set_effectivePriority_id|lia].
Qed.

Lemma lift_below v s dt dw :
  targetwrappers s !! dt = Some dw ->
  (TargetWrapper.effectivePriority dw < v)%Z ->
  size (below v (put dt (TargetWrapper.set_effectivePriority v dw) s)) < size (below v s).
Proof.
  intros Hdt Hlt. apply subset_size. apply strict_spec_alt. split.
  - by apply same_but_priority_below, lift_same_but_priority.
  - intros Heq. assert (dt ∈ below v s) as Hin by (apply elem_of_below; eauto).
    rewrite <- Heq in Hin. apply elem_of_below in Hin as (w & Hw & Hw').
    simpl in Hw. rewrite lookup_insert_eq in Hw. injection Hw as <-.
    destruct dw; simpl in *; lia.
Qed.

Lemma raised_after_lift v s dt dw s2 :
  targetwrappers s !! dt = Some dw ->
  (TargetWrapper.effectivePriority dw < v)%Z ->
  raised v (put dt (TargetWrapper.set_effectivePriority v dw) s) s2 ->
  pushed s2 dt ->
  raised v s s2.
Proof.
  intros Hdt Hlt [Hsame Hr] Hp.
  pose proof (lift_same_but_priority v s dt dw Hdt Hlt) as Hlift.
  split; [by eapply same_but_priority_trans|]. intros k a c Ha Hc.
  destruct (decide (dt = k)) as [<-|Hne].
  - assert (a = dw) as -> by congruence.
    destruct (Hr dt (TargetWrapper.set_effectivePriority v dw) c) as [Hv _];
      [simpl; by rewrite lookup_insert_eq|done|].
    split; [|done]. right. split; [done|]. destruct dw; simpl in *; lia.
  - destruct (Hr k a c) as [Hv Hpush]; [simpl; by rewrite lookup_insert_ne|done|].
    done.
Qed.

Lemma updatePriority_spec tLPS v n :
  forall s self w,
    resolved_closed s ->
    targetwrappers s !! self = Some w ->
    TargetWrapper.effectivePriority w = v ->
    size (below v s) < n ->
    exists s', updatePriority tLPS n self s = Ok s' /\ raised v s s' /\ pushed s' self.
Proof.
  induction n as [|n IHn]; intros s self w Hres Hw Hv Hsize; [lia|].
  destruct (resolved_closed_lookup _ _ _ Hres Hw) as (td & nd & Htd & Hnd & Hkeys).
  cbn [updatePriority]. rewrite (getTargetDependencies_resolved _ _ _ _ _ _ Hw Htd Hnd).
  simpl.
  set (f := fun (s0 : Scheduler) (dt : string) =>
              dw ← deref s0 dt;
              if (TargetWrapper.effectivePriority w >? TargetWrapper.effectivePriority dw)%Z
              then updatePriority tLPS n dt
                     (put dt (TargetWrapper.set_effectivePriority
                                (TargetWrapper.effectivePriority w) dw) s0)
              else Ok s0).
  (* the loop over the dependencies *)
  assert (forall l si,
            Forall (fun d => is_Some (targetwrappers s !! d)) l ->
            same_but_priority s si -> size (below v si) < S n ->
            exists s', foldM f si l = Ok s' /\ raised v si s'
              /\ forall d dw, d ∈ l -> targetwrappers s' !! d = Some dw ->
                   (v <= TargetWrapper.effectivePriority dw)%Z) as Hloop.
  { induction l as [|d l IHl]; intros si Hl Hsi Hsz.
    - exists si. split; [done|]. split; [apply raised_refl|].
      intros d dw Hd. by apply elem_of_nil in Hd.
    - apply Forall_cons in Hl as [[d0 Hd0] Hl].
      destruct (same_but_priority_forth _ _ _ _ Hsi Hd0) as (dwi & Hdwi & _).
      cbn [foldM]. unfold f at 1. unfold deref, getitem. rewrite Hdwi. simpl. rewrite Hv.
      destruct (Z.gtb_spec v (TargetWrapper.effectivePriority dwi)) as [Hlt|Hge].
      + (* lift [d] and push on from it *)
        pose proof (lift_same_but_priority v si d dwi Hdwi Hlt) as Hlift.
        pose proof (lift_below v si d dwi Hdwi Hlt) as Hless.
        destruct (IHn (put d (TargetWrapper.set_effectivePriority v dwi) si) d
                    (TargetWrapper.set_effectivePriority v dwi))
          as (s2 & -> & Hr2 & Hp2).
        { eapply same_but_priority_resolved; [|exact Hres].
          by eapply same_but_priority_trans. }
        { simpl. by rewrite lookup_insert_eq. }
        { by destruct dwi. }
        { lia. }
        pose proof (raised_after_lift v si d dwi s2 Hdwi Hlt Hr2 Hp2) as Hr.
        destruct (IHl s2) as (s' & Hs' & Hr' & Hdeps); [done| | |].
        { eapply same_but_priority_trans; [exact Hsi|apply Hr]. }
        { pose proof (subseteq_size _ _ (same_but_priority_below v si s2 (proj1 Hr))). lia. }
        exists s'. split; [done|]. split; [by eapply raised_trans|].
        intros d' dw' [->|Hd']%elem_of_cons Hdw'; [|by eapply Hdeps].
        destruct (same_but_priority_back _ _ _ _ (proj1 Hr') Hdw') as (dw2 & Hdw2 & _ & Hle).
        destruct (proj2 Hr2 d (TargetWrapper.set_effectivePriority v dwi) dw2) as [Hv2 _];
          [simpl; by rewrite lookup_insert_eq|done|].
        destruct dwi; simpl in *; lia.
      + destruct (IHl si) as (s' & Hs' & Hr' & Hdeps); [done|done|done|].
        exists s'. split; [done|]. split; [done|].
        intros d' dw' [->|Hd']%elem_of_cons Hdw'; [|by eapply Hdeps].
        destruct (same_but_priority_back _ _ _ _ (proj1 Hr') Hdw') as (dw2 & Hdw2 & _ & Hle).
        assert (dw2 = dwi) as -> by congruence. lia. }
  destruct (Hloop td s Hkeys (same_but_priority_refl s) ltac:(lia)) as (s' & Hs' & Hr & Hdeps).
  assert (pushed s' self) as Hp.
  { intros w' td' d dw Hw' Htd' Hd Hdw.
    destruct (same_but_priority_back _ _ _ _ (proj1 Hr) Hw') as (w0 & Hw0 & Hww & _).
    assert (w0 = w) as -> by congruence.
    assert (td' = td) as ->.
    { rewrite Hww in Htd'. destruct w; simpl in *; congruence. }
    destruct (proj2 Hr self w w' Hw Hw') as [Hv' _].
    specialize (Hdeps d dw Hd Hdw). lia. }
  destruct td as [|d td]; simpl.
  - exists s. split; [done|]. split; [apply raised_refl|].
    simpl in Hs'. by injection Hs' as <-.
  - unfold deref, getitem. rewrite Hw. simpl. exists s'. done.
Qed.

(** C8. When every wrapper is resolved, with target dependencies that are
    wrappers, and starts at the priority of its target or above, running
    [updatePriority] on every wrapper, in any order, returns, within a
    recursion depth of the number of wrappers plus one, and leaves: for
    every edge, the dependency at an effective priority at least that of
    its dependent; every wrapper at an effective priority at least the
    priority of its target. *)
Theorem priority_push_monotone tLPS s ws :
  resolved_closed s ->
  map_Forall (fun _ w => (BaseTarget.priority (TargetWrapper.target w)
                          <= TargetWrapper.effectivePriority w)%Z) (targetwrappers s) ->
  Forall (fun k => is_Some (targetwrappers s !! k)) ws ->
  (forall k, is_Some (targetwrappers s !! k) -> k ∈ ws) ->
  exists s',
    priorityPush tLPS (S (size (targetwrappers s))) ws s = Ok s'
    /\ (forall a b wa wb td,
          targetwrappers s' !! b = Some wb ->
          TargetWrapper.__targetdeps wb = Some td ->
          a ∈ td ->
          targetwrappers s' !! a = Some wa ->
          (TargetWrapper.effectivePriority wb <= TargetWrapper.effectivePriority wa)%Z)
    /\ (forall k w, targetwrappers s' !! k = Some w ->
          (BaseTarget.priority (TargetWrapper.target w)
           <= TargetWrapper.effectivePriority w)%Z).
Proof.
  intros Hres Hprio Hws Hall. unfold priorityPush.
  set (n := S (size (targetwrappers s))).
  assert (forall l si,
            Forall (fun k => is_Some (targetwrappers s !! k)) l ->
            same_but_priority s si ->
            exists s', foldM (fun s0 w => updatePriority tLPS n w s0) si l = Ok s'
              /\ same_but_priority si s'
              /\ (forall k, is_Some (targetwrappers si !! k) -> pushed si k -> pushed s' k)
              /\ (forall k, k ∈ l -> pushed s' k)) as Hloop.
  { induction l as [|k l IHl]; intros si Hl Hsi.
    - exists si. split; [done|]. split; [apply same_but_priority_refl|].
      split; [done|]. intros k Hk. by apply elem_of_nil in Hk.
    - apply Forall_cons in Hl as [[w0 Hw0] Hl].
      destruct (same_but_priority_forth _ _ _ _ Hsi Hw0) as (wi & Hwi & _).
      destruct (updatePriority_spec tLPS (TargetWrapper.effectivePriority wi) n si k wi)
        as (s1 & Hs1 & Hr1 & Hp1); [|done|done| |].
      { by eapply same_but_priority_resolved. }
      { pose proof (below_size (TargetWrapper.effectivePriority wi) si).
        rewrite (same_but_priority_size _ _ Hsi) in *. unfold n. lia. }
      destruct (IHl s1 Hl) as (s' & Hs' & Hsame' & Hkeep & Hnew).
      { eapply same_but_priority_trans; [exact Hsi|apply Hr1]. }
      cbn [foldM]. rewrite Hs1. exists s'. split; [done|].
      assert (forall j, is_Some (targetwrappers si !! j) -> is_Some (targetwrappers s1 !! j))
        as Hsome.
      { intros j [x Hx]. destruct (same_but_priority_forth _ _ _ _ (proj1 Hr1) Hx)
          as (y & Hy & _). eauto. }
      split; [eapply same_but_priority_trans; [apply Hr1|done]|]. split.
      + intros j Hj Hpj. apply Hkeep; [by apply Hsome|]. by eapply raised_pushed.
      + intros j [->|Hj]%elem_of_cons; [|by apply Hnew].
        apply Hkeep; [apply Hsome; eauto|done]. }
  destruct (Hloop ws s Hws (same_but_priority_refl s)) as (s' & Hs' & Hsame & _ & Hpushed).
  exists s'. split; [done|]. split.
  - intros a b wa wb td Hb Htd Ha Hwa.
    destruct (same_but_priority_back _ _ _ _ Hsame Hb) as (wb0 & Hwb0 & _).
    apply (Hpushed b (Hall b ltac:(eauto)) wb td a wa); done.
  - intros k w Hw.
    destruct (same_but_priority_back _ _ _ _ Hsame Hw) as (w0 & Hw0 & Heq & Hle).
    specialize (Hprio k w0 Hw0). simpl in Hprio.
    assert (TargetWrapper.target w = TargetWrapper.target w0) as ->
      by (rewrite Heq; by destruct w0).
    lia.
Qed.

Example ex_pushed_priorities :
  (TargetWrapper.effectivePriority <$> targetwrappers ex_pushed !! "/out/w") = Some 10%Z
  /\ (TargetWrapper.effectivePriority <$> targetwrappers ex_pushed !! "/out/a") = Some 10%Z
  /\ (TargetWrapper.effectivePriority <$> targetwrappers ex_pushed !! "/out/c") = Some 10%Z
  /\ (TargetWrapper.effectivePriority <$> targetwrappers ex_resolved !! "/out/c") = Some 5%Z.
Proof. vm_compute. done. Qed.

Lemma priority_push_monotone_witness :
  exists s',
    priorityPush id (S (size (targetwrappers ex_resolved)))
      ["/out/c"; "/out/a"; "/out/w"] ex_resolved = Ok s'
    /\ (forall a b wa wb td,
          targetwrappers s' !! b = Some wb ->
          TargetWrapper.__targetdeps wb = Some td ->
          a ∈ td ->
          targetwrappers s' !! a = Some wa ->
          (TargetWrapper.effectivePriority wb <= TargetWrapper.effectivePriority wa)%Z)
    /\ (forall k w, targetwrappers s' !! k = Some w ->
          (BaseTarget.priority (TargetWrapper.target w)
           <= TargetWrapper.effectivePriority w)%Z).
Proof.
  apply (priority_push_monotone id ex_resolved ["/out/c"; "/out/a"; "/out/w"]).
  - unfold resolved_closed. apply (bool_decide_unpack _). vm_compute. reflexivity.
  - apply (bool_decide_unpack _). vm_compute. reflexivity.
  - repeat constructor; vm_compute; eauto.
  - intros k Hk. apply elem_of_dom in Hk.
    assert (dom (targetwrappers ex_resolved) = {["/out/c"; "/out/a"; "/out/w"]}) as Hdom.
    { apply (bool_decide_unpack _). vm_compute. reflexivity. }
    rewrite Hdom in Hk. set_solver.
Defined.

(** ** Resolution, again: idempotence and the reverse edges *)

(** X1. [resolveUnderlyingDependencies] is idempotent: called on the state
    a call has left, it returns that state, with no reverse edge
    registered twice. *)
Theorem resolve_idempotent tLPS self s s' :
  resolveUnderlyingDependencies tLPS self s = Ok s' ->
  resolveUnderlyingDependencies tLPS self s' = Ok s'.
Proof.
  intros H. pose proof H as H0. unfold resolveUnderlyingDependencies in H.
  apply bind_Ok_inv in H as (w & Hw%deref_Ok & H).
  destruct (TargetWrapper.__nontargetdeps w) as [nd|] eqn:Hnd.
  - injection H as <-. exact H0.
  - clear H. destruct (resolve_spec _ _ _ _ _ Hw Hnd H0)
      as (td & nd & rd & names & Hw' & _).
    unfold resolveUnderlyingDependencies, deref, getitem. rewrite Hw'. done.
Qed.

Lemma resolve_idempotent_witness :
  resolveUnderlyingDependencies id "/out/w" ex_resolved_w = Ok ex_resolved_w.
Proof.
  apply (resolve_idempotent id "/out/w" ex_scheduler). vm_compute. reflexivity.
Defined.

Lemma rdeps_of_rdep self tw s s' k :
  __rdep self tw s = Ok s' ->
  rdeps_of s' k = rdeps_of s k ++ (if decide (k = self) then [tw] else []).
Proof.
  intros (w & Hw & ->)%rdep_inv. unfold rdeps_of. simpl.
  destruct (decide (k = self)) as [->|Hne].
  - by rewrite lookup_insert_eq, Hw.
  - rewrite lookup_insert_ne by done. by rewrite app_nil_r.
Qed.

Lemma edges_registered_add self s0 td s p s' :
  edges_registered self s0 td s -> p ∉ td -> __rdep p self s = Ok s' ->
  edges_registered self s0 (td ++ [p]) s'.
Proof.
  intros H Hp Hr k. rewrite (rdeps_of_rdep _ _ _ _ k Hr), (H k).
  destruct (decide (k = p)) as [->|Hne].
  - rewrite decide_False by done. rewrite decide_True by set_solver. by rewrite app_nil_r.
  - rewrite app_nil_r. destruct (decide (k ∈ td)) as [Hin|Hnin].
    + rewrite decide_True by set_solver. done.
    + rewrite decide_False by set_solver. done.
Qed.

Lemma resolve_dependency_shape tLPS self td nd s p ps td' nd' s' :
  resolve_dependency tLPS self (td, nd, s) (p, ps) = Ok (td', nd', s') ->
  (td' = td /\ s' = s) \/ (td' = td ++ [p] /\ (p ∉ td) /\ __rdep p self s = Ok s').
Proof.
  unfold resolve_dependency. destruct (targetwrappers s !! p); [|intros [= <- <- <-]; auto].
  case_bool_decide as Hin; [intros [= <- <- <-]; auto|].
  intros H. apply bind_Ok_inv in H as (s1 & Hr & [= <- <- <-]). auto.
Qed.

Lemma resolve_groupmember_shape self tt td s g td' s' :
  resolve_groupmember self tt (td, s) g = Ok (td', s') ->
  (td' = td /\ s' = s)
  \/ (td' = td ++ [BaseTarget.path g] /\ (BaseTarget.path g ∉ td)
      /\ __rdep (BaseTarget.path g) self s = Ok s').
Proof.
  unfold resolve_groupmember. case_bool_decide; [intros [= <- <-]; auto|].
  case_bool_decide; [intros [= <- <-]; auto|].
  intros Hb. apply bind_Ok_inv in Hb as (gw & _ & Hb).
  apply bind_Ok_inv in Hb as (s1 & Hr & [= <- <-]). auto.
Qed.

Lemma resolve_first_loop_edges tLPS self s0 deps td nd s :
  foldM (resolve_dependency tLPS self) ([], [], s0) deps = Ok (td, nd, s) ->
  edges_registered self s0 td s.
Proof.
  intros H.
  apply (foldM_inv _ (fun _ acc => edges_registered self s0 acc.1.1 acc.2)) in H; [done| |].
  - intros k. cbn [fst snd].
    destruct (decide (k ∈ [])) as [Hin|_]; [by apply elem_of_nil in Hin|by rewrite app_nil_r].
  - clear. intros _ [p ps] [[td nd] s] [[td' nd'] s'] _ Hinv Hstep. simpl in *.
    apply resolve_dependency_shape in Hstep as [[-> ->]|(-> & Hp & Hr)]; [done|].
    by eapply edges_registered_add.
Qed.

Lemma resolve_members_loop_edges self s0 tt td1 s1 G td s :
  edges_registered self s0 td1 s1 ->
  foldM (resolve_groupmember self tt) (td1, s1) G = Ok (td, s) ->
  edges_registered self s0 td s.
Proof.
  intros H0 H.
  apply (foldM_inv _ (fun _ acc => edges_registered self s0 acc.1 acc.2)) in H; [done|done|].
  clear. intros _ g [td s] [td' s'] _ Hinv Hstep. simpl in *.
  apply resolve_groupmember_shape in Hstep as [[-> ->]|(-> & Hp & Hr)]; [done|].
  by eapply edges_registered_add.
Qed.

Lemma resolve_group_loop_edges self s0 td1 s1 ts td s :
  edges_registered self s0 td1 s1 ->
  foldM (resolve_group self) (td1, s1) ts = Ok (td, s) ->
  edges_registered self s0 td s.
Proof.
  intros H0 H.
  apply (foldM_inv _ (fun _ acc => edges_registered self s0 acc.1 acc.2)) in H; [done|done|].
  clear. intros _ t [td s] [td' s'] _ Hinv Hstep. simpl in *.
  unfold resolve_group in Hstep. simpl in Hstep.
  apply bind_Ok_inv in Hstep as (tw & _ & Hstep).
  destruct (_targetGroups s !! TargetWrapper.path tw) as [G|].
  - by eapply resolve_members_loop_edges.
  - by injection Hstep as <- <-.
Qed.

(** What one resolution does to the reverse edges: [td2] is the dict
    [targetdeps] before the self-edge is deleted. *)
Lemma resolve_edges tLPS self s s' w :
  targetwrappers s !! self = Some w ->
  TargetWrapper.__nontargetdeps w = None ->
  resolveUnderlyingDependencies tLPS self s = Ok s' ->
  exists w' td td2,
    targetwrappers s' !! self = Some w'
    /\ TargetWrapper.__targetdeps w' = Some td
    /\ is_Some (TargetWrapper.__nontargetdeps w')
    /\ (forall p, p ∈ td <-> p ∈ td2 /\ p <> TargetWrapper.path w)
    /\ edges_registered self s td2 s'.
Proof.
  intros Hself Hnone H. unfold resolveUnderlyingDependencies in H.
  apply bind_Ok_inv in H as (w0 & Hw0%deref_Ok & H).
  assert (w0 = w) as -> by congruence. rewrite Hnone in H.
  apply bind_Ok_inv in H as ([[td1 nd1] s1] & H1 & H).
  pose proof (resolve_first_loop_edges _ _ _ _ _ _ _ H1) as He1.
  apply resolve_first_loop in H1 as (Hs1 & _ & _).
  apply bind_Ok_inv in H as ([td2 s2] & H2 & H).
  assert (edges_registered self s td2 s2 /\ same_but_rdeps s1 s2) as [He2 Hs2].
  { destruct td1 as [|t td1]; cbn [truthy] in H2.
    - injection H2 as <- <-. split; [done|apply same_but_rdeps_refl].
    - split; [by eapply resolve_group_loop_edges|].
      apply (foldM_inv _ (fun _ acc => same_but_rdeps s1 acc.2)) in H2;
        [done|apply same_but_rdeps_refl|].
      clear. intros _ t' [td s] [td' s'] _ Hs Hstep. simpl in *.
      unfold resolve_group in Hstep. simpl in Hstep.
      apply bind_Ok_inv in Hstep as (tw & _ & Hstep).
      destruct (_targetGroups s !! TargetWrapper.path tw) as [G|];
        [|by injection Hstep as <- <-].
      apply (foldM_inv _ (fun _ acc => same_but_rdeps s1 acc.2)) in Hstep; [done|done|].
      clear. intros _ g [td1 sa] [td2 sb] _ Hs Hstep. simpl in *.
      apply resolve_groupmember_shape in Hstep as [[-> ->]|(-> & _ & Hr)]; [done|].
      eapply same_but_rdeps_trans; [exact Hs|by eapply rdep_same_but_rdeps]. }
  clear H2. apply bind_Ok_inv in H as (w2 & Hw2%deref_Ok & H).
  apply bind_Ok_inv in H as (named & Hnamed%mapM_result_Forall2 & [= <-]).
  pose proof (same_but_rdeps_trans _ _ _ Hs1 Hs2) as Hs.
  destruct (same_but_rdeps_lookup_inv _ _ _ _ Hs Hw2) as (w' & Hw' & Heq).
  assert (w' = w) as -> by congruence.
  assert (TargetWrapper.path w2 = TargetWrapper.path w) as Hpath by (by rewrite Heq).
  rewrite Hpath in *.
  set (td3 := if bool_decide (TargetWrapper.path w ∈ td2)
              then filter (fun p => p <> TargetWrapper.path w) td2 else td2) in *.
  assert (forall p, p ∈ td3 <-> p ∈ td2 /\ p <> TargetWrapper.path w) as Htd3.
  { intros p. unfold td3. case_bool_decide as Hin.
    - by rewrite list_elem_of_filter, (and_comm (p ∈ td2)).
    - split; [|tauto]. intros Hp. split; [done|]. by intros ->. }
  destruct (sorted_named_names s2 td3 named Hnamed) as [Hperm _].
  eexists _, (sorted fst named).*2, td2. split; [simpl; by rewrite lookup_insert_eq|].
  split; [done|]. split; [by eexists|]. split.
  - intros p. by rewrite Hperm.
  - intros k. rewrite <- (He2 k). unfold rdeps_of. simpl.
    destruct (decide (k = self)) as [->|Hne].
    + by rewrite lookup_insert_eq, Hw2.
    + by rewrite lookup_insert_ne.
Qed.

(** X2. One resolution of [self] appends exactly one reverse edge to
    [self] to every wrapper that is in its [__targetdeps] afterwards, and
    leaves the reverse edges of every other wrapper as they were, save
    those of the wrapper under the path of [self], which may get the edge
    of a deleted self-loop. *)
Theorem resolve_registers_reverse_edges tLPS self s s' w :
  targetwrappers s !! self = Some w ->
  TargetWrapper.__nontargetdeps w = None ->
  resolveUnderlyingDependencies tLPS self s = Ok s' ->
  exists w' td,
    targetwrappers s' !! self = Some w'
    /\ TargetWrapper.__targetdeps w' = Some td
    /\ (forall k, k ∈ td -> rdeps_of s' k = rdeps_of s k ++ [self])
    /\ (forall k, k ∉ td -> k <> TargetWrapper.path w -> rdeps_of s' k = rdeps_of s k)
    /\ (rdeps_of s' (TargetWrapper.path w) = rdeps_of s (TargetWrapper.path w)
        \/ rdeps_of s' (TargetWrapper.path w) = rdeps_of s (TargetWrapper.path w) ++ [self]).
Proof.
  intros Hw Hnone Hres.
  destruct (resolve_edges _ _ _ _ _ Hw Hnone Hres) as (w' & td & td2 & Hw' & Htd & _ & Hmem & He).
  exists w', td. split_and!; [done|done| | |].
  - intros k Hk%Hmem. rewrite (He k). by rewrite decide_True by tauto.
  - intros k Hk Hne. rewrite (He k). rewrite decide_False; [by rewrite app_nil_r|].
    intros Hin. apply Hk, Hmem. done.
  - rewrite (He (TargetWrapper.path w)). case_decide; [by right|left; by rewrite app_nil_r].
Qed.

Lemma resolve_registers_reverse_edges_witness :
  exists w' td,
    targetwrappers ex_resolved_w !! "/out/w" = Some w'
    /\ TargetWrapper.__targetdeps w' = Some td
    /\ (forall k, k ∈ td -> rdeps_of ex_resolved_w k = rdeps_of ex_scheduler k ++ ["/out/w"])
    /\ (forall k, k ∉ td -> k <> "/out/w" -> rdeps_of ex_resolved_w k = rdeps_of ex_scheduler k)
    /\ (rdeps_of ex_resolved_w "/out/w" = rdeps_of ex_scheduler "/out/w"
        \/ rdeps_of ex_resolved_w "/out/w" = rdeps_of ex_scheduler "/out/w" ++ ["/out/w"]).
Proof.
  apply (resolve_registers_reverse_edges id "/out/w" ex_scheduler ex_resolved_w
           (TargetWrapper.__init__ ex_target_w)).
  - vm_compute. reflexivity.
  - reflexivity.
  - vm_compute. reflexivity.
Defined.

(** What one resolution leaves alone. *)
Lemma resolve_frame tLPS self s s' w k :
  targetwrappers s !! self = Some w ->
  TargetWrapper.__nontargetdeps w = None ->
  resolveUnderlyingDependencies tLPS self s = Ok s' ->
  match targetwrappers s !! k, targetwrappers s' !! k with
  | Some a, Some b =>
      same_static a b
      /\ (k <> self ->
          TargetWrapper.__targetdeps b = TargetWrapper.__targetdeps a
          /\ TargetWrapper.__nontargetdeps b = TargetWrapper.__nontargetdeps a)
  | None, None => True
  | _, _ => False
  end.
Proof.
  intros Hw Hnone Hres.
  destruct (resolve_spec _ _ _ _ _ Hw Hnone Hres)
    as (td & nd & rd & names & Hw' & Hothers & _).
  destruct (decide (k = self)) as [->|Hne].
  - rewrite Hw, Hw'. split; [by repeat split|done].
  - specialize (Hothers k Hne).
    destruct (targetwrappers s !! k) as [a|], (targetwrappers s' !! k) as [b|]; try done.
    rewrite Hothers. split; [apply same_static_set_rdeps|]. intros _. by destruct a.
Qed.

(** The state of the reverse edges while the wrappers are resolved one
    after the other. *)
Lemma resolve_keeps_symmetry tLPS self s s' :
  keyed_by_path s ->
  (forall k w, targetwrappers s !! k = Some w ->
     TargetWrapper.__nontargetdeps w = None ->
     TargetWrapper.__targetdeps w = None /\ forall b, k ∉ rdeps_of s b) ->
  (forall a b wa, a <> b -> targetwrappers s !! a = Some wa ->
     (a ∈ rdeps_of s b <-> exists td, TargetWrapper.__targetdeps wa = Some td /\ b ∈ td)) ->
  resolveUnderlyingDependencies tLPS self s = Ok s' ->
  keyed_by_path s'
  /\ (forall k w, targetwrappers s' !! k = Some w ->
        TargetWrapper.__nontargetdeps w = None ->
        TargetWrapper.__targetdeps w = None /\ forall b, k ∉ rdeps_of s' b)
  /\ (forall a b wa, a <> b -> targetwrappers s' !! a = Some wa ->
        (a ∈ rdeps_of s' b <-> exists td, TargetWrapper.__targetdeps wa = Some td /\ b ∈ td)).
Proof.
  intros Hkey Hfresh Hsym Hres. pose proof Hres as Hres0.
  unfold resolveUnderlyingDependencies in Hres.
  apply bind_Ok_inv in Hres as (w & Hw%deref_Ok & Hres).
  destruct (TargetWrapper.__nontargetdeps w) as [nd0|] eqn:Hnd.
  { injection Hres as <-. done. }
  clear Hres.
  destruct (resolve_edges _ _ _ _ _ Hw Hnd Hres0)
    as (w' & td & td2 & Hw' & Htd & Hnd' & Hmem & He).
  pose proof (fun k => resolve_frame tLPS self s s' w k Hw Hnd Hres0) as Hframe.
  assert (TargetWrapper.path w = self) as Hpath by (by apply (Hkey self w)).
  split_and!.
  - intros k b Hb. specialize (Hframe k). rewrite Hb in Hframe.
    destruct (targetwrappers s !! k) as [a|] eqn:Ha; [|done].
    destruct Hframe as [(_ & Hp & _) _]. rewrite Hp. by apply (Hkey k a).
  - intros k b Hb Hbnone.
    destruct (decide (k = self)) as [->|Hne].
    { assert (b = w') as -> by congruence. rewrite Hbnone in Hnd'. by destruct Hnd'. }
    specialize (Hframe k). rewrite Hb in Hframe.
    destruct (targetwrappers s !! k) as [a|] eqn:Ha; [|done].
    destruct Hframe as [_ Hsame]. destruct (Hsame Hne) as [Htda Hnda].
    rewrite Hbnone in Hnda. destruct (Hfresh k a Ha (eq_sym Hnda)) as [Htdn Hnot].
    split; [congruence|]. intros x. rewrite (He x).
    intros [Hin|Hin]%elem_of_app; [by apply (Hnot x)|].
    case_decide; [|by apply elem_of_nil in Hin]. apply list_elem_of_singleton in Hin. done.
  - intros a b wa' Hab Ha'. rewrite (He b).
    destruct (decide (a = self)) as [->|Hne].
    + assert (wa' = w') as -> by congruence.
      destruct (Hfresh self w Hw Hnd) as [_ Hnot]. split.
      * intros [Hin|Hin]%elem_of_app; [by apply Hnot in Hin|].
        case_decide as Hb2; [|by apply elem_of_nil in Hin].
        exists td. split; [done|]. apply Hmem. split; [done|congruence].
      * intros (td' & Htd' & Hb). assert (td' = td) as -> by congruence.
        apply Hmem in Hb as [Hb _]. apply elem_of_app. right.
        rewrite decide_True by done. by left.
    + specialize (Hframe a). rewrite Ha' in Hframe.
      destruct (targetwrappers s !! a) as [wa|] eqn:Ha; [|done].
      destruct Hframe as [_ Hsame]. destruct (Hsame Hne) as [Htda _]. rewrite Htda.
      rewrite <- (Hsym a b wa Hab Ha). rewrite elem_of_app. split; [|auto].
      intros [?|Hin]; [done|].
      case_decide; [|by apply elem_of_nil in Hin]. apply list_elem_of_singleton in Hin. done.
Qed.

(** X3. Reverse edges mirror target dependencies off the diagonal. From
    wrappers just initialised, held under their paths, after
    [resolveUnderlyingDependencies] has run on any wrappers in any order:
    for distinct [a] and [b], [a] is in the reverse dependencies of [b]
    exactly when [a] is resolved and [b] is one of its target
    dependencies. *)
Theorem reverse_edges_mirror_target_deps tLPS ws s s' :
  freshly_initialised s ->
  keyed_by_path s ->
  resolveAll tLPS ws s = Ok s' ->
  forall a b wa, a <> b -> targetwrappers s' !! a = Some wa ->
    (a ∈ rdeps_of s' b <-> exists td, TargetWrapper.__targetdeps wa = Some td /\ b ∈ td).
Proof.
  intros Hfresh Hkey Hall. unfold resolveAll in Hall.
  apply (foldM_inv _ (fun _ si =>
    keyed_by_path si
    /\ (forall k w, targetwrappers si !! k = Some w ->
          TargetWrapper.__nontargetdeps w = None ->
          TargetWrapper.__targetdeps w = None /\ forall b, k ∉ rdeps_of si b)
    /\ (forall a b wa, a <> b -> targetwrappers si !! a = Some wa ->
          (a ∈ rdeps_of si b <->
           exists td, TargetWrapper.__targetdeps wa = Some td /\ b ∈ td)))) in Hall.
  - apply Hall.
  - assert (forall b, rdeps_of s b = []) as Hnil.
    { intros b. unfold rdeps_of. destruct (targetwrappers s !! b) as [wb|] eqn:Hb; [|done].
      by destruct (Hfresh b wb Hb). }
    split; [done|]. split.
    + intros k w Hw _. destruct (Hfresh k w Hw) as (_ & Htd & _). split; [done|].
      intros b. rewrite Hnil. apply not_elem_of_nil.
    + intros a b wa _ Ha. rewrite Hnil. destruct (Hfresh a wa Ha) as (_ & Htd & _).
      rewrite Htd. split; [by intros ?%elem_of_nil|by intros (? & ? & _)].
  - intros _ self si si' _ (Hk & Hf & Hs) Hstep.
    by apply (resolve_keeps_symmetry tLPS self si si').
Qed.

Lemma reverse_edges_mirror_target_deps_witness :
  "/out/w" ∈ rdeps_of ex_resolved "/out/a" <->
  exists td,
    TargetWrapper.__targetdeps
      (default ex_wrapper_w (targetwrappers ex_resolved !! "/out/w")) = Some td
    /\ "/out/a" ∈ td.
Proof.
  apply (reverse_edges_mirror_target_deps id ["/out/w"; "/out/a"; "/out/c"] ex_scheduler).
  - unfold freshly_initialised. apply (bool_decide_unpack _). vm_compute. reflexivity.
  - unfold keyed_by_path. apply (bool_decide_unpack _). vm_compute. reflexivity.
  - vm_compute. reflexivity.
  - discriminate.
  - vm_compute. reflexivity.
Defined.

(** ** The lines of the fingerprint *)

Lemma occurs_app c s t : occurs c (s +:+ t) = occurs c s || occurs c t.
Proof.
  induction s as [|d s IH]; [done|].
  change (String d s +:+ t) with (String d (s +:+ t)). cbn [occurs].
  by rewrite IH, orb_assoc.
Qed.

Lemma occurs_replace_old c new s :
  occurs c new = false -> occurs c (PyStr.replace c new s) = false.
Proof.
  intros Hnew. induction s as [|d s IH]; [done|]. cbn [PyStr.replace].
  destruct (Ascii.eqb d c) eqn:Hd.
  - by rewrite occurs_app, Hnew, IH.
  - cbn [occurs]. by rewrite Hd, IH.
Qed.

Lemma occurs_replace_other c d new s :
  occurs d new = false -> occurs d s = false ->
  occurs d (PyStr.replace c new s) = false.
Proof.
  intros Hnew. induction s as [|e s IH]; [done|]. cbn [PyStr.replace occurs].
  intros [He Hs]%orb_false_elim. destruct (Ascii.eqb e c).
  - by rewrite occurs_app, Hnew, IH.
  - cbn [occurs]. by rewrite He, IH.
Qed.

Lemma replace_absent c new s : occurs c s = false -> PyStr.replace c new s = s.
Proof.
  induction s as [|d s IH]; [done|]. cbn [PyStr.replace occurs].
  intros [Hd Hs]%orb_false_elim. by rewrite Hd, IH.
Qed.

Lemma no_LF_no_linesep os s : occurs LF s = false -> PyStr.contains (linesep os) s = false.
Proof.
  induction s as [|d s IH]; [by destruct os|]. cbn [occurs PyStr.contains].
  intros [Hd Hs]%orb_false_elim. rewrite (IH Hs), orb_false_r.
  destruct os; cbn [linesep PyStr.startswith].
  - rewrite Ascii.eqb_sym, Hd. done.
  - destruct (Ascii.eqb CR d); [|done]. cbn [andb].
    destruct s as [|e s]; [done|]. cbn [occurs] in Hs.
    apply orb_false_elim in Hs as [He _]. by rewrite Ascii.eqb_sym, He.
Qed.

(** X5. An escaped line holds no CR and no LF, so it never contains
    [os.linesep], and escaping it again changes nothing. *)
Theorem escape_line_clean x :
  occurs CR (escape_line x) = false
  /\ occurs LF (escape_line x) = false
  /\ (forall os, PyStr.contains (linesep os) (escape_line x) = false)
  /\ escape_line (escape_line x) = escape_line x.
Proof.
  assert (occurs CR (escape_line x) = false) as HCR.
  { unfold escape_line. apply occurs_replace_other; [done|]. by apply occurs_replace_old. }
  assert (occurs LF (escape_line x) = false) as HLF.
  { unfold escape_line. by apply occurs_replace_old. }
  split_and!; [done|done|intros os; by apply no_LF_no_linesep|].
  unfold escape_line at 1. rewrite (replace_absent CR) by done. by apply replace_absent.
Qed.

(** X4. A fingerprint that is computed, not taken from the cache, is never
    empty: the lines of the hashable implicit inputs are at least one. So
    the test [implicitInputs or self.isDirPath] of [run] and [uptodate]
    holds for every target, and every target has an implicit inputs
    file. *)
Theorem fingerprint_never_empty os self s w x s1 :
  targetwrappers s !! self = Some w ->
  TargetWrapper.__implicitInputs w = None ->
  __getImplicitInputs os self s = Ok (x, s1) ->
  truthy x = true
  /\ exists lines, lines <> []
       /\ lines = PyStr.split (linesep os)
                    (PyStr.join (linesep os)
                       (BaseTarget.hashableImplicitInputs (TargetWrapper.target w)))
       /\ exists deps, x = deps ++ map escape_line lines.
Proof.
  intros Hw Hnone H. unfold __getImplicitInputs, deref, getitem in H.
  rewrite Hw in H. simpl in H. rewrite Hnone in H.
  destruct (TargetWrapper.__targetdeps w) as [td|]; [|done].
  destruct (TargetWrapper.__nontargetdeps w) as [nd|]; [|done].
  apply bind_Ok_inv in H as (paths & _ & [= <- <-]).
  pose proof (split_from_nonempty (linesep os) 0
                (PyStr.join (linesep os)
                   (BaseTarget.hashableImplicitInputs (TargetWrapper.target w)))) as Hne.
  fold (PyStr.split (linesep os)
          (PyStr.join (linesep os)
             (BaseTarget.hashableImplicitInputs (TargetWrapper.target w)))) in Hne.
  split.
  - destruct (PyStr.split _ _) as [|l ls]; [done|].
    destruct paths, nd; done.
  - eexists. split; [exact Hne|]. split; [done|]. by eexists.
Qed.

Lemma fingerprint_never_empty_witness :
  truthy ex_fingerprint_w.1 = true
  /\ exists lines, lines <> []
       /\ lines = PyStr.split (linesep Posix)
                    (PyStr.join (linesep Posix)
                       (BaseTarget.hashableImplicitInputs (TargetWrapper.target ex_wrapper_w)))
       /\ exists deps, ex_fingerprint_w.1 = deps ++ map escape_line lines.
Proof.
  apply (fingerprint_never_empty Posix "/out/w" ex_resolved_w ex_wrapper_w
           ex_fingerprint_w.1 ex_fingerprint_w.2).
  - vm_compute. reflexivity.
  - vm_compute. reflexivity.
  - vm_compute. reflexivity.
Defined.

(** ** The text of the difference *)

Lemma is_ascii_app s t : is_ascii (s +:+ t) = is_ascii s && is_ascii t.
Proof.
  induction s as [|c s IH]; [done|].
  change (String c s +:+ t) with (String c (s +:+ t)).
  cbn [is_ascii]. by rewrite IH, andb_assoc.
Qed.

Lemma is_ascii_pretty_N_char x : (nat_of_ascii (pretty_N_char x) <? 128)%nat = true.
Proof. unfold pretty_N_char. repeat (case_match; try done). Qed.

Lemma is_ascii_pretty_N_go x s : is_ascii s = true -> is_ascii (pretty_N_go x s) = true.
Proof.
  revert s. induction (N.lt_wf_0 x) as [x _ IH]; intros s Hs.
  destruct (decide (x = 0)%N) as [->|Hx]; [by rewrite pretty_N_go_0|].
  rewrite pretty_N_go_step by lia. apply IH.
  - apply N.div_lt; lia.
  - cbn [is_ascii]. by rewrite is_ascii_pretty_N_char.
Qed.

Lemma is_ascii_pretty_nat (n : nat) : is_ascii (pretty n) = true.
Proof.
  unfold pretty, pretty_nat, pretty, pretty_N.
  case_decide; [done|]. by apply is_ascii_pretty_N_go.
Qed.

Lemma is_ascii_join sep (l : list string) :
  is_ascii sep = true -> Forall (fun x => is_ascii x = true) l ->
  is_ascii (PyStr.join sep l) = true.
Proof.
  intros Hsep. unfold PyStr.join. induction 1 as [|x l Hx Hl IH]; [done|].
  destruct l as [|y l]; [done|].
  cbn [String.concat] in *. by rewrite !is_ascii_app, Hx, Hsep, IH.
Qed.

Lemma is_ascii_split_from sep k s :
  is_ascii s = true -> Forall (fun x => is_ascii x = true) (PyStr.split_from sep k s).
Proof.
  revert k. induction s as [|c s IH]; intros k Hs.
  - simpl. by constructor.
  - cbn [is_ascii] in Hs. apply andb_prop in Hs as [Hc Hs].
    destruct k as [|k]; cbn [PyStr.split_from]; [|apply IH; exact Hs].
    destruct (PyStr.startswith (String c s) sep).
    + constructor; [done|]. by apply IH.
    + pose proof (IH 0%nat Hs) as H0.
      destruct (PyStr.split_from sep 0 s) as [|h t].
      { constructor; [|done]. cbn [is_ascii]. by rewrite Hc. }
      apply Forall_cons in H0 as [Hh Ht]. constructor; [|done].
      cbn [is_ascii]. by rewrite Hc.
Qed.

Section Diff.
Variable env : option string.
Variable py_int : string -> result Z.

Lemma implicitInputsDiff_raises latest ii e :
  py_int (default "30" env) = Raise e ->
  implicitInputsDiff env py_int latest ii = Raise e.
Proof. intros H. unfold implicitInputsDiff. by rewrite H. Qed.

Lemma implicitInputsDiff_returns latest ii n :
  py_int (default "30" env) = Ok n ->
  Forall (fun x => is_ascii x = true) latest ->
  Forall (fun x => is_ascii x = true) ii ->
  exists text, implicitInputsDiff env py_int latest ii = Ok text.
Proof.
  intros Hn Hlatest Hii. unfold implicitInputsDiff. rewrite Hn.
  cbn [mbind result_bind].
  set (added0 := (fun x => "+ " +:+ x) <$> filter (fun x => x ∉ latest) ii).
  set (removed0 := (fun x => "- " +:+ x) <$> filter (fun x => x ∉ ii) latest).
  assert (Forall (fun x => is_ascii x = true) added0) as Ha0.
  { unfold added0. apply Forall_fmap. apply Forall_forall. intros x Hx. simpl.
    rewrite is_ascii_app. simpl.
    apply list_elem_of_filter in Hx as [_ Hx].
    by rewrite (proj1 (Forall_forall _ _) Hii x Hx). }
  assert (Forall (fun x => is_ascii x = true) removed0) as Hr0.
  { unfold removed0. apply Forall_fmap. apply Forall_forall. intros x Hx. simpl.
    rewrite is_ascii_app. simpl.
    apply list_elem_of_filter in Hx as [_ Hx].
    by rewrite (proj1 (Forall_forall _ _) Hlatest x Hx). }
  assert (forall (l : list string) k, Forall (fun x => is_ascii x = true) l ->
            Forall (fun x => is_ascii x = true)
              (if (Z.of_nat (length l) >? k)%Z
               then "..." :: drop (Z.to_nat (Z.of_nat (length l) - k)) l else l)) as Hcut.
  { intros l k Hl. destruct (_ >? _)%Z; [|done].
    constructor; [done|]. by apply Forall_drop. }
  pose proof (Hcut _ (n / 2)%Z Ha0) as Ha1. pose proof (Hcut _ (n / 2)%Z Hr0) as Hr1.
  set (added1 := if (Z.of_nat (length added0) >? n / 2)%Z then _ else _) in *.
  set (removed1 := if (Z.of_nat (length removed0) >? n / 2)%Z then _ else _) in *.
  assert (Forall (fun x => is_ascii x = true)
            (if negb (truthy added1) && negb (truthy removed1) then ["N/A"] else added1))
    as Ha2.
  { destruct (_ && _); [by repeat constructor|done]. }
  unfold decode_ascii. rewrite is_ascii_join; [cbn [mbind result_bind]; eauto|done|].
  constructor.
  - rewrite !is_ascii_app, !is_ascii_pretty_nat. done.
  - apply Forall_app. by split.
Qed.
End Diff.

(** ** The fingerprint cache and the check *)

Section Check.
Variable os : platform.
Variable tLPS : string -> string.
Variable fsub : Q -> Q -> Q.
Variable env : option string.
Variable py_int : string -> result Z.

Lemma getImplicitInputs_cached self s ii s1 :
  __getImplicitInputs os self s = Ok (ii, s1) ->
  __getImplicitInputs os self s1 = Ok (ii, s1).
Proof.
  intros H. pose proof H as H0. unfold __getImplicitInputs in H.
  apply bind_Ok_inv in H as (w & Hw%deref_Ok & H).
  destruct (TargetWrapper.__implicitInputs w) as [x|] eqn:Hc.
  - injection H as <- <-. exact H0.
  - destruct (TargetWrapper.__targetdeps w); [|done].
    destruct (TargetWrapper.__nontargetdeps w); [|done].
    apply bind_Ok_inv in H as (paths & _ & [= <- <-]).
    unfold __getImplicitInputs, deref, getitem. simpl. rewrite lookup_insert_eq. simpl.
    by destruct w.
Qed.

(** X7. A wrapper past the first four steps of [uptodate] whose implicit
    inputs file is missing is not up to date. When the file is there and
    holds lines other than the fingerprint, the check never returns
    [True]: it raises what [int] raises when
    [XPYBUILD_IMPLICIT_INPUTS_MAX_DIFF_LINES] is no integer, and returns
    [False] when it is one and the file and the fingerprint are ASCII.
    Whatever the modification times: no input is statted. *)
Theorem uptodate_fingerprint_changed self fs s w ii s1 :
  targetwrappers s !! self = Some w ->
  TargetWrapper.__isdirty w = false ->
  fileutils.exists_ tLPS fs (TargetWrapper.path w) = true ->
  fileutils.isfile tLPS fs (TargetWrapper.stampfile w) = true ->
  __getImplicitInputs os self s = Ok (ii, s1) ->
  truthy ii = true \/ TargetWrapper.isDirPath w = true ->
  (fileutils.exists_ tLPS fs (TargetWrapper.__implicitInputsFile w) = false ->
   exists log, uptodate os tLPS fsub env py_int self fs false s = Ok (false, s1, log))
  /\ (forall contents,
        fileutils.exists_ tLPS fs (TargetWrapper.__implicitInputsFile w) = true ->
        fileutils.read tLPS fs (tLPS (TargetWrapper.__implicitInputsFile w)) = Ok contents ->
        PyStr.split (linesep os) contents <> ii ->
        (forall s2 log,
           uptodate os tLPS fsub env py_int self fs false s <> Ok (true, s2, log))
        /\ (forall e,
              py_int (default "30" env) = Raise e ->
              uptodate os tLPS fsub env py_int self fs false s = Raise e)
        /\ (forall n,
              py_int (default "30" env) = Ok n ->
              is_ascii contents = true ->
              Forall (fun x => is_ascii x = true) ii ->
              exists log,
                uptodate os tLPS fsub env py_int self fs false s = Ok (false, s1, log))).
Proof.
  intros Hw Hclean Hpath Hstamp Hget Hcond.
  unfold uptodate, deref, getitem. rewrite Hw. simpl.
  rewrite Hclean, Hpath, Hstamp, Hget. simpl.
  pose proof (getImplicitInputs_lookup os self s ii s1 self Hget) as Hself.
  rewrite Hw in Hself.
  destruct (targetwrappers s1 !! self) as [w1|] eqn:Hw1; [|done]. simpl.
  assert (TargetWrapper.isDirPath w1 = TargetWrapper.isDirPath w
          /\ TargetWrapper.__implicitInputsFile w1 = TargetWrapper.__implicitInputsFile w)
    as [Hd Hi].
  { destruct Hself as [->| ->]; [done|by destruct w]. }
  unfold implicitInputsChanged. rewrite Hd, Hi.
  assert (truthy ii || TargetWrapper.isDirPath w = true) as ->.
  { destruct Hcond as [-> | ->]; [done|by rewrite orb_true_r]. }
  split.
  - intros ->. simpl. eauto.
  - intros contents -> Hread Hne. rewrite Hread. simpl.
    rewrite bool_decide_true by done.
    split_and!.
    + intros s2 log.
      by destruct (implicitInputsDiff env py_int (PyStr.split (linesep os) contents) ii).
    + intros e He. by rewrite (implicitInputsDiff_raises env py_int _ _ e He).
    + intros n Hn Hcontents Hii.
      destruct (implicitInputsDiff_returns env py_int
                  (PyStr.split (linesep os) contents) ii n Hn) as [text ->];
        [by apply is_ascii_split_from|done|].
      simpl. eauto.
Qed.

(** X8. The check is stable: called again on the state and the files of a
    call that returned, [uptodate] returns the same value and leaves the
    state as it is. *)
Theorem uptodate_stable self fs ignoreDeps s b s1 log :
  uptodate os tLPS fsub env py_int self fs ignoreDeps s = Ok (b, s1, log) ->
  exists log', uptodate os tLPS fsub env py_int self fs ignoreDeps s1 = Ok (b, s1, log').
Proof.
  intros H. pose proof H as H0. unfold uptodate in H.
  apply bind_Ok_inv in H as (w & Hw%deref_Ok & H).
  destruct (TargetWrapper.__isdirty w) eqn:Hdirty.
  { injection H as <- <- <-. eauto. }
  destruct (fileutils.exists_ tLPS fs (TargetWrapper.path w)) eqn:Hpath; simpl in H.
  2:{ injection H as <- <- <-. unfold uptodate, deref, getitem. simpl.
      rewrite lookup_insert_eq. simpl. eauto. }
  destruct ignoreDeps.
  { injection H as <- <- <-. eauto. }
  destruct (fileutils.isfile tLPS fs (TargetWrapper.stampfile w)) eqn:Hstamp; simpl in H.
  2:{ injection H as <- <- <-. eauto. }
  apply bind_Ok_inv in H as ([ii s2] & Hget & H).
  assert (s1 = s2) as ->.
  { apply bind_Ok_inv in H as (w2 & _ & H).
    apply bind_Ok_inv in H as ([changed log5] & _ & H).
    destruct changed; [by injection H as <- <- <-|].
    apply bind_Ok_inv in H as (T & _ & H).
    destruct (TargetWrapper.__targetdeps w2); [|done].
    destruct (TargetWrapper.__nontargetdeps w2); [|done].
    apply bind_Ok_inv in H as ([n1 l1] & _ & H).
    destruct n1; [by injection H as <- <- <-|].
    apply bind_Ok_inv in H as ([n2 l2] & _ & H).
    destruct n2; by injection H as <- <- <-. }
  pose proof (getImplicitInputs_lookup os self s ii s2 self Hget) as Hself.
  rewrite Hw in Hself.
  destruct (targetwrappers s2 !! self) as [w2|] eqn:Hw2; [|done].
  assert (TargetWrapper.__isdirty w2 = false
          /\ TargetWrapper.path w2 = TargetWrapper.path w
          /\ TargetWrapper.stampfile w2 = TargetWrapper.stampfile w
          /\ TargetWrapper.name w2 = TargetWrapper.name w) as (Hd2 & Hp2 & Hs2 & Hn2).
  { destruct Hself as [->| ->]; [done|by destruct w]. }
  unfold uptodate, deref, getitem. rewrite Hw2. simpl.
  rewrite Hd2, Hp2, Hpath, Hs2, Hstamp. simpl.
  rewrite (getImplicitInputs_cached _ _ _ _ Hget). rewrite Hn2.
  unfold deref, getitem in H. simpl in H. eauto.
Qed.
End Check.

Lemma uptodate_fingerprint_changed_witness :
  exists log, uptodate Posix id Qminus None ex_int "/out/w" ex_fs_stale false ex_resolved_w
              = Ok (false, ex_fingerprint_w.2, log).
Proof.
  destruct (uptodate_fingerprint_changed Posix id Qminus None ex_int "/out/w" ex_fs_stale
              ex_resolved_w ex_wrapper_w ex_fingerprint_w.1 ex_fingerprint_w.2)
    as [_ Hdiffers].
  - vm_compute. reflexivity.
  - vm_compute. reflexivity.
  - vm_compute. reflexivity.
  - vm_compute. reflexivity.
  - vm_compute. reflexivity.
  - left. vm_compute. reflexivity.
  - destruct (Hdiffers (PyStr.join (linesep Posix) ["/out/a"; "/src/w.c"; "cflags=-O0"]))
      as (_ & _ & Hfalse).
    + vm_compute. reflexivity.
    + vm_compute. reflexivity.
    + vm_compute. discriminate.
    + apply (Hfalse 30%Z).
      * reflexivity.
      * vm_compute. reflexivity.
      * repeat constructor.
Defined.

Lemma uptodate_stable_witness :
  exists log', uptodate Posix id Qminus None ex_int "/out/w" ex_fs_built false ex_fingerprint_w.2
               = Ok (false, ex_fingerprint_w.2, log').
Proof.
  eapply (uptodate_stable Posix id Qminus None ex_int "/out/w" ex_fs_built false
            ex_resolved_w).
  vm_compute. reflexivity.
Defined.

(** ** A build, then the check *)

Section BuildThenCheck.
Variable os : platform.
Variable tLPS : string -> string.
Hypothesis tLPS_idem : forall p, tLPS (tLPS p) = tLPS p.
Variable target_run : BaseTarget.t -> filesystem -> filesystem * result unit.
Variable dirname : string -> string.

(** With the cache empty or holding the fingerprint, [__getImplicitInputs]
    returns the fingerprint and leaves it in the cache. *)
Lemma getImplicitInputs_fingerprint_of self s w td nd dws :
  targetwrappers s !! self = Some w ->
  TargetWrapper.__implicitInputs w = None
  \/ TargetWrapper.__implicitInputs w = Some (fingerprint_of os w dws nd) ->
  TargetWrapper.__targetdeps w = Some td ->
  TargetWrapper.__nontargetdeps w = Some nd ->
  Forall2 (fun d dw => targetwrappers s !! d = Some dw) td dws ->
  exists s1 w1,
    __getImplicitInputs os self s = Ok (fingerprint_of os w dws nd, s1)
    /\ targetwrappers s1 !! self = Some w1
    /\ w1 = TargetWrapper.set_implicitInputs (Some (fingerprint_of os w dws nd)) w
    /\ __getImplicitInputs os self s1 = Ok (fingerprint_of os w dws nd, s1).
Proof.
  intros Hw [Hcache|Hcache] Htd Hnd Hdws.
  - pose proof (getImplicitInputs_fresh os self s w td nd dws Hw Hcache Htd Hnd Hdws)
      as Hget. simpl in Hget. fold (fingerprint_of os w dws nd) in Hget.
    eexists _, _. split; [exact Hget|]. split; [simpl; apply lookup_insert_eq|].
    split; [done|].
    unfold __getImplicitInputs, deref, getitem. simpl. rewrite lookup_insert_eq. simpl.
    by destruct w.
  - assert (__getImplicitInputs os self s = Ok (fingerprint_of os w dws nd, s)) as Hget.
    { unfold __getImplicitInputs, deref, getitem. rewrite Hw. simpl. by rewrite Hcache. }
    exists s, w. split; [done|]. split; [done|]. split; [|done].
    rewrite <- Hcache. by destruct w.
Qed.

(** X6. After [run] has returned for a resolved wrapper whose dependency
    paths hold no line feed, and whose cache is empty or holds the
    fingerprint (as [uptodate] leaves it before a rebuild), the implicit
    inputs file is there and holds the fingerprint line for line: the
    fifth step of the next [uptodate] finds nothing changed, and the
    fingerprint is taken from the cache. *)
Theorem run_then_fingerprint_unchanged self fs s w td nd dws fs1 :
  targetwrappers s !! self = Some w ->
  TargetWrapper.__implicitInputs w = None
  \/ TargetWrapper.__implicitInputs w = Some (fingerprint_of os w dws nd) ->
  TargetWrapper.__targetdeps w = Some td ->
  TargetWrapper.__nontargetdeps w = Some nd ->
  Forall2 (fun d dw => targetwrappers s !! d = Some dw) td dws ->
  Forall (fun dw => occurs LF (TargetWrapper.path dw) = false) dws ->
  Forall (fun d => occurs LF d.1.1 = false) nd ->
  target_run (TargetWrapper.target w)
    (fileutils.deleteFile tLPS (TargetWrapper.__implicitInputsFile w) fs) = (fs1, Ok tt) ->
  exists s1 fs2 w1,
    run os tLPS target_run dirname self fs s = (fs2, Ok s1)
    /\ targetwrappers s1 !! self = Some w1
    /\ __getImplicitInputs os self s1 = Ok (fingerprint_of os w dws nd, s1)
    /\ fingerprint_unchanged os tLPS fs2 w1 (fingerprint_of os w dws nd).
Proof using tLPS_idem.
  intros Hw Hcache Htd Hnd Hdws Hpaths Hnpaths Hrun.
  destruct (getImplicitInputs_fingerprint_of self s w td nd dws Hw Hcache Htd Hnd Hdws)
    as (s1 & w1 & Hget & Hw1 & Hw1eq & Hget1).
  set (ii := fingerprint_of os w dws nd) in *.
  assert (ii <> []) as Hne.
  { pose proof (split_from_nonempty (linesep os) 0
                  (PyStr.join (linesep os)
                     (BaseTarget.hashableImplicitInputs (TargetWrapper.target w)))) as Hl.
    unfold ii, fingerprint_of, PyStr.split.
    destruct (PyStr.split_from _ _ _); [done|].
    destruct (map TargetWrapper.path dws), (map (fun d => d.1.1) nd); done. }
  assert (Forall (fun l => PyStr.contains (linesep os) l = false) ii) as Hclean.
  { unfold ii, fingerprint_of. rewrite !Forall_app. split_and!.
    - apply Forall_map. eapply Forall_impl; [exact Hpaths|]. intros dw. apply no_LF_no_linesep.
    - apply Forall_map. eapply Forall_impl; [exact Hnpaths|]. intros d. apply no_LF_no_linesep.
    - apply Forall_map. apply Forall_forall. intros l _.
      simpl. apply no_LF_no_linesep. unfold escape_line. by apply occurs_replace_old. }
  assert (truthy ii = true) as Htruthy by (by destruct ii).
  assert (TargetWrapper.isDirPath w1 = TargetWrapper.isDirPath w
          /\ TargetWrapper.__implicitInputsFile w1 = TargetWrapper.__implicitInputsFile w
          /\ TargetWrapper.target w1 = TargetWrapper.target w) as (Hd1 & Hi1 & Ht1).
  { rewrite Hw1eq. by destruct w. }
  exists s1. unfold run. rewrite Hget. unfold deref, getitem. rewrite Hw1.
  rewrite Hd1, Hi1, Ht1, Htruthy. simpl. rewrite Hrun.
  eexists _, w1. split; [done|]. split; [done|]. split; [done|].
  right. rewrite Hi1. split.
  - unfold fileutils.exists_, fileutils.getstat, fileutils.write. simpl.
    by rewrite tLPS_idem, lookup_insert_eq.
  - eexists. split; [apply read_write|]. by apply split_join_lines.
Qed.
End BuildThenCheck.

Lemma run_then_fingerprint_unchanged_witness :
  TargetWrapper.__implicitInputs
    (default ex_wrapper_w (targetwrappers ex_fingerprint_w.2 !! "/out/w"))
  = Some (fingerprint_of Posix
            (default ex_wrapper_w (targetwrappers ex_fingerprint_w.2 !! "/out/w"))
            [default ex_wrapper_w (targetwrappers ex_resolved_w !! "/out/a")]
            [("/src/w.c", 0%Z, ex_pathset)])
  /\ exists s1 fs2 w1,
       run Posix id ex_target_run_ok ex_dirname "/out/w" ex_fs_stale ex_fingerprint_w.2
       = (fs2, Ok s1)
       /\ targetwrappers s1 !! "/out/w" = Some w1
       /\ __getImplicitInputs Posix "/out/w" s1
          = Ok (fingerprint_of Posix
                  (default ex_wrapper_w (targetwrappers ex_fingerprint_w.2 !! "/out/w"))
                  [default ex_wrapper_w (targetwrappers ex_resolved_w !! "/out/a")]
                  [("/src/w.c", 0%Z, ex_pathset)], s1)
       /\ fingerprint_unchanged Posix id fs2 w1
            (fingerprint_of Posix
               (default ex_wrapper_w (targetwrappers ex_fingerprint_w.2 !! "/out/w"))
               [default ex_wrapper_w (targetwrappers ex_resolved_w !! "/out/a")]
               [("/src/w.c", 0%Z, ex_pathset)]).
Proof.
  split; [vm_compute; reflexivity|].
  apply (run_then_fingerprint_unchanged Posix id (fun p => eq_refl) ex_target_run_ok
           ex_dirname "/out/w" ex_fs_stale ex_fingerprint_w.2
           (default ex_wrapper_w (targetwrappers ex_fingerprint_w.2 !! "/out/w"))
           ["/out/a"] [("/src/w.c", 0%Z, ex_pathset)]
           [default ex_wrapper_w (targetwrappers ex_resolved_w !! "/out/a")]
           (fileutils.write id "/out/w" "built"
              (fileutils.deleteFile id "/work/targets/implicit-inputs/w.txt" ex_fs_stale))).
  - vm_compute. reflexivity.
  - right. vm_compute. reflexivity.
  - vm_compute. reflexivity.
  - vm_compute. reflexivity.
  - constructor; [vm_compute; reflexivity|constructor].
  - constructor; [vm_compute; reflexivity|constructor].
  - constructor; [vm_compute; reflexivity|constructor].
  - reflexivity.
Defined.

(** ** The dirty flag *)

(** X9. The dirty flag is sticky for the check: after [dirty()],
    [uptodate] returns [False] whatever the files and [ignoreDeps], and
    leaves the state as it is. *)
Theorem dirty_then_never_uptodate os tLPS fsub env py_int self s prev s1 fs ignoreDeps :
  dirty self s = Ok (prev, s1) ->
  exists log, uptodate os tLPS fsub env py_int self fs ignoreDeps s1 = Ok (false, s1, log).
Proof.
  unfold dirty. intros H. apply bind_Ok_inv in H as (w & Hw%deref_Ok & [= <- <-]).
  unfold uptodate, deref, getitem. simpl. rewrite lookup_insert_eq. simpl. eauto.
Qed.

Lemma dirty_then_never_uptodate_witness :
  exists log, uptodate Posix id Qminus None ex_int "/out/w" ex_fs_built true ex_dirtied.2
              = Ok (false, ex_dirtied.2, log).
Proof.
  apply (dirty_then_never_uptodate Posix id Qminus None ex_int "/out/w" ex_resolved_w ex_dirtied.1).
  vm_compute. reflexivity.
Defined.

(** X10. A wrapper that is not dirty and whose output path is missing is
    not up to date, and the check marks it dirty: every later check
    returns [False] too, even when the path is there by then. *)
Theorem missing_output_marks_dirty os tLPS fsub env py_int self s w fs ignoreDeps :
  targetwrappers s !! self = Some w ->
  TargetWrapper.__isdirty w = false ->
  fileutils.exists_ tLPS fs (TargetWrapper.path w) = false ->
  exists s1 log,
    uptodate os tLPS fsub env py_int self fs ignoreDeps s = Ok (false, s1, log)
    /\ forall fs' ignoreDeps',
         exists log', uptodate os tLPS fsub env py_int self fs' ignoreDeps' s1 = Ok (false, s1, log').
Proof.
  intros Hw Hclean Hmissing. unfold uptodate at 1. unfold deref, getitem.
  rewrite Hw. simpl. rewrite Hclean, Hmissing. simpl.
  eexists _, _. split; [done|]. intros fs' ig'.
  unfold uptodate, deref, getitem. simpl. rewrite lookup_insert_eq. simpl. eauto.
Qed.

Lemma missing_output_marks_dirty_witness :
  exists s1 log,
    uptodate Posix id Qminus None ex_int "/out/w" ex_fs_empty false ex_resolved_w = Ok (false, s1, log)
    /\ forall fs' ignoreDeps',
         exists log', uptodate Posix id Qminus None ex_int "/out/w" fs' ignoreDeps' s1 = Ok (false, s1, log').
Proof.
  apply (missing_output_marks_dirty Posix id Qminus None ex_int "/out/w" ex_resolved_w ex_wrapper_w).
  - vm_compute. reflexivity.
  - vm_compute. reflexivity.
  - vm_compute. reflexivity.
Defined.

(** ** Dependencies under the output directories *)

Lemma checkOutputDirs_clean target_str w dpath outs :
  Forall (fun o => PyStr.startswith dpath o = false) outs ->
  checkOutputDirs target_str w dpath outs = Ok tt.
Proof.
  induction 1 as [|o outs Ho _ IH]; [done|].
  cbn [checkOutputDirs]. by rewrite Ho.
Qed.

Lemma checkOutputDirs_under target_str w dpath outs :
  Exists (fun o => PyStr.startswith dpath o = true) outs ->
  checkOutputDirs target_str w dpath outs
  = Raise (BuildException (under_output_dir_message target_str w dpath)).
Proof.
  induction 1 as [o outs Ho|o outs _ IH]; cbn [checkOutputDirs].
  - by rewrite Ho.
  - by destruct (PyStr.startswith dpath o).
Qed.

(** X11. On a resolved wrapper the check returns when no dependency that
    is not a target has a path that starts with a top-level output
    directory, and raises a [BuildException] that names the first
    dependency, in the sorted order, whose path starts with one. *)
Theorem output_dirs_check_spec (target_str : BaseTarget.t -> string)
    (outs : list string) (self : string) (s : Scheduler) (w : TargetWrapper.t)
    (nd : list (string * Z * PathSet)) :
  targetwrappers s !! self = Some w ->
  TargetWrapper.__nontargetdeps w = Some nd ->
  (Forall (fun d => Forall (fun o => PyStr.startswith d.1.1 o = false) outs) nd ->
   checkForNonTargetDependenciesUnderOutputDirs target_str outs self s = Ok tt)
  /\ (forall pre d post,
        nd = pre ++ d :: post ->
        Forall (fun d => Forall (fun o => PyStr.startswith d.1.1 o = false) outs) pre ->
        Exists (fun o => PyStr.startswith d.1.1 o = true) outs ->
        checkForNonTargetDependenciesUnderOutputDirs target_str outs self s
        = Raise (BuildException (under_output_dir_message target_str w d.1.1))).
Proof.
  intros Hw Hnd. unfold checkForNonTargetDependenciesUnderOutputDirs, deref, getitem.
  rewrite Hw. simpl. rewrite Hnd.
  assert (forall l,
            Forall (fun d => Forall (fun o => PyStr.startswith d.1.1 o = false) outs) l ->
            forall rest,
              foldM (fun (_ : unit) (d : string * Z * PathSet) =>
                       checkOutputDirs target_str w d.1.1 outs) tt (l ++ rest)
              = foldM (fun (_ : unit) (d : string * Z * PathSet) =>
                         checkOutputDirs target_str w d.1.1 outs) tt rest) as Hskip.
  { induction 1 as [|d l Hd _ IH]; intros rest; [done|].
    simpl. by rewrite (checkOutputDirs_clean _ _ _ _ Hd). }
  split.
  - intros Hall. specialize (Hskip nd Hall []). by rewrite app_nil_r in Hskip.
  - intros pre d post -> Hpre Hd. rewrite (Hskip pre Hpre). simpl.
    by rewrite (checkOutputDirs_under _ _ _ _ Hd).
Qed.

Lemma output_dirs_check_spec_witness :
  checkForNonTargetDependenciesUnderOutputDirs BaseTarget.name ["/out/"] "/out/w" ex_resolved
  = Ok tt
  /\ checkForNonTargetDependenciesUnderOutputDirs BaseTarget.name ["/out/"; "/src/"] "/out/w"
       ex_resolved
     = Raise (BuildException
                (under_output_dir_message BaseTarget.name ex_wrapper_w "/src/w.c")).
Proof.
  split.
  - apply (proj1 (output_dirs_check_spec BaseTarget.name ["/out/"] "/out/w" ex_resolved
                    ex_wrapper_w [("/src/w.c", 0%Z, ex_pathset)]
                    ltac:(vm_compute; reflexivity) ltac:(vm_compute; reflexivity))).
    repeat constructor.
  - apply (proj2 (output_dirs_check_spec BaseTarget.name ["/out/"; "/src/"] "/out/w"
                    ex_resolved ex_wrapper_w [("/src/w.c", 0%Z, ex_pathset)]
                    ltac:(vm_compute; reflexivity) ltac:(vm_compute; reflexivity))
             [] ("/src/w.c", 0%Z, ex_pathset) []).
    + reflexivity.
    + constructor.
    + right. left. reflexivity.
Defined.

(** ** [normpath] *)





(** ** The file of the implicit inputs *)











(** ** The generated include directories of [targets/native.py] *)

Lemma endswith_app d suf : endswith (d +:+ suf) suf = true.
Proof.
  induction d as [|c d IH].
  - change (EmptyString +:+ suf) with suf.
    destruct suf; cbn [endswith]; by rewrite String.eqb_refl.
  - change (String c d +:+ suf) with (String c (d +:+ suf)).
    cbn [endswith]. rewrite IH. apply orb_true_r.
Qed.

Lemma endswith_as_dir sep d :
  endswith (if endswith d sep then d else d +:+ sep) sep = true.
Proof. destruct (endswith d sep) eqn:H; [done | apply endswith_app]. Qed.

Lemma generatedIncludeDirs_from sep valid (l acc : list string) :
  NoDup acc ->
  let r := fold_left
             (fun acc d =>
                let d := if endswith d sep then d else d +:+ sep in
                if valid d && negb (bool_decide (d ∈ acc)) then acc ++ [d] else acc)
             l acc in
  NoDup r
  /\ forall g, g ∈ r <->
       g ∈ acc
       \/ (valid g = true
           /\ exists d, d ∈ l /\ g = if endswith d sep then d else d +:+ sep).
Proof.
  revert acc. induction l as [|d l IH]; intros acc Hnd; simpl.
  - split; [done|]. intros g. split; [by left|].
    intros [H|(_ & d & Hd & _)]; [done | by apply elem_of_nil in Hd].
  - set (d' := if endswith d sep then d else d +:+ sep).
    destruct (valid d') eqn:Hv; simpl.
    + case_bool_decide as Hin; simpl.
      * destruct (IH acc Hnd) as [Hn Hiff]. split; [done|].
        intros g. rewrite Hiff. split.
        -- intros [Hg|(Hg & x & Hx & ->)]; [by left|].
           right. split; [done|]. exists x. split; [by right | done].
        -- intros [Hg|(Hg & x & Hx & ->)]; [by left|].
           apply elem_of_cons in Hx as [->|Hx]; [by left|].
           right. split; [done|]. by exists x.
      * assert (NoDup (acc ++ [d'])) as Hnd'.
        { apply NoDup_app. split; [done|]. split; [|apply NoDup_singleton].
          intros x Hx Hx'. apply list_elem_of_singleton in Hx' as ->. done. }
        destruct (IH _ Hnd') as [Hn Hiff]. split; [done|].
        intros g. rewrite Hiff, elem_of_app, list_elem_of_singleton. split.
        -- intros [[Hg| ->]|(Hg & x & Hx & ->)]; [by left| |].
           ++ right. split; [done|]. exists d. split; [by left | done].
           ++ right. split; [done|]. exists x. split; [by right | done].
        -- intros [Hg|(Hg & x & Hx & ->)]; [by left; left|].
           apply elem_of_cons in Hx as [->|Hx]; [by left; right|].
           right. split; [done|]. by exists x.
    + destruct (IH acc Hnd) as [Hn Hiff]. split; [done|].
      intros g. rewrite Hiff. split.
      * intros [Hg|(Hg & x & Hx & ->)]; [by left|].
        right. split; [done|]. exists x. split; [by right | done].
      * intros [Hg|(Hg & x & Hx & Hgx)]; [by left|].
        apply elem_of_cons in Hx as [->|Hx].
        -- subst g. fold d' in Hg. congruence.
        -- right. split; [done|]. by exists x.
Qed.

(** X15. The generated include directories are, without repetition, the
    include paths, each completed with [os.sep] when it does not end with
    it, that are valid targets; each of them ends with [os.sep]. *)
Theorem generatedIncludeDirs_spec (sep : string) (_isValidTarget : string -> bool)
    (includes : list string) :
  NoDup (native.generatedIncludeDirs sep _isValidTarget includes)
  /\ (forall g,
        g ∈ native.generatedIncludeDirs sep _isValidTarget includes <->
        _isValidTarget g = true
        /\ exists d, d ∈ includes /\ g = if endswith d sep then d else d +:+ sep)
  /\ (forall g,
        g ∈ native.generatedIncludeDirs sep _isValidTarget includes ->
        endswith g sep = true).
Proof.
  destruct (generatedIncludeDirs_from sep _isValidTarget includes [] (NoDup_nil_2))
    as [Hn Hiff].
  assert (forall g,
            g ∈ native.generatedIncludeDirs sep _isValidTarget includes <->
            _isValidTarget g = true
            /\ exists d, d ∈ includes /\ g = if endswith d sep then d else d +:+ sep)
    as Hiff'.
  { intros g. unfold native.generatedIncludeDirs. rewrite Hiff. split; [|by right].
    intros [H|H]; [by apply elem_of_nil in H | done]. }
  split; [exact Hn|]. split; [exact Hiff'|].
  intros g Hg. apply Hiff' in Hg as (_ & d & _ & ->). apply endswith_as_dir.
Qed.

(** X16. No file under a generated include directory stays a dependency:
    a path of the dependency list that starts with an include path, once
    completed with [os.sep], that is a valid target is that directory
    target itself, or another generated include directory. *)
Theorem generated_include_files_replaced (sep : string) (_isValidTarget : string -> bool)
    (includes testsources deplist : list string) (d e : string) :
  d ∈ includes ->
  _isValidTarget (if endswith d sep then d else d +:+ sep) = true ->
  e ∈ native.generatedDeplist
        (native.generatedIncludeDirs sep _isValidTarget includes) testsources deplist ->
  PyStr.startswith e (if endswith d sep then d else d +:+ sep) = true ->
  e ∈ native.generatedIncludeDirs sep _isValidTarget includes.
Proof.
  intros Hd Hv He Hpre.
  destruct (generatedIncludeDirs_from sep _isValidTarget includes [] (NoDup_nil_2))
    as [_ Hiff].
  unfold native.generatedDeplist in He. apply elem_of_app in He as [He|He]; [|done].
  apply list_elem_of_filter in He as [[Hgen _] _]. exfalso.
  unfold native.isGeneratedIncludeFile in Hgen.
  assert (existsb (fun generated => PyStr.startswith e generated)
            (native.generatedIncludeDirs sep _isValidTarget includes) = true) as Hex.
  { apply existsb_exists. exists (if endswith d sep then d else d +:+ sep).
    split; [|done]. apply list_elem_of_In. unfold native.generatedIncludeDirs.
    apply Hiff. right. split; [done|]. by exists d. }
  congruence.
Qed.

Lemma generated_include_files_replaced_witness :
  "/out/gen/" ∈ native.generatedIncludeDirs "/" (String.eqb "/out/gen/")
                  ["/src/include"; "/out/gen"].
Proof.
  apply (generated_include_files_replaced "/" (String.eqb "/out/gen/")
           ["/src/include"; "/out/gen"] ["/src/w.c"]
           ["/src/include/w.h"; "/out/gen/g.h"; "/src/w.c"] "/out/gen" "/out/gen/").
  - right. left.
  - reflexivity.
  - unfold native.generatedDeplist. apply elem_of_app. right.
    apply (bool_decide_unpack _). vm_compute. reflexivity.
  - reflexivity.
Defined.

(** ** One push of the priority *)

(** X17. On a resolved build one call of [updatePriority] returns, within a
    recursion depth of the number of wrappers plus one. It changes nothing
    but effective priorities; a wrapper it changes was below the priority
    of [self] and is lifted to exactly that; [self] is as before; and
    afterwards every target dependency of [self] is at the priority of
    [self] or above. *)
Theorem updatePriority_effect (tLPS : string -> string) (s : Scheduler) (self : string)
    (w : TargetWrapper.t) :
  resolved_closed s ->
  targetwrappers s !! self = Some w ->
  exists s',
    updatePriority tLPS (S (size (targetwrappers s))) self s = Ok s'
    /\ _targetGroups s' = _targetGroups s
    /\ (forall k,
          match targetwrappers s !! k, targetwrappers s' !! k with
          | Some a, Some b =>
              b = TargetWrapper.set_effectivePriority (TargetWrapper.effectivePriority b) a
              /\ (TargetWrapper.effectivePriority b = TargetWrapper.effectivePriority a
                  \/ ((TargetWrapper.effectivePriority a < TargetWrapper.effectivePriority w)%Z
                      /\ TargetWrapper.effectivePriority b
                         = TargetWrapper.effectivePriority w))
          | None, None => True
          | _, _ => False
          end)
    /\ targetwrappers s' !! self = Some w
    /\ (forall td d dw,
          TargetWrapper.__targetdeps w = Some td ->
          d ∈ td ->
          targetwrappers s' !! d = Some dw ->
          (TargetWrapper.effectivePriority w <= TargetWrapper.effectivePriority dw)%Z).
Proof.
  intros Hres Hw.
  destruct (updatePriority_spec tLPS (TargetWrapper.effectivePriority w)
              (S (size (targetwrappers s))) s self w Hres Hw eq_refl)
    as (s' & Hrun & [[Hg Hsame] Hraised] & Hpushed).
  { pose proof (below_size (TargetWrapper.effectivePriority w) s). lia. }
  assert (targetwrappers s' !! self = Some w) as Hself.
  { specialize (Hsame self). rewrite Hw in Hsame.
    destruct (targetwrappers s' !! self) as [b|] eqn:Hb; [|done].
    destruct Hsame as [Heq _].
    destruct (Hraised self w b Hw Hb) as [[He|[Hlt _]] _]; [|lia].
    rewrite He in Heq. rewrite Heq. by destruct w. }
  exists s'. split; [done|]. split; [done|]. split; [|split; [done|]].
  - intros k. specialize (Hsame k).
    destruct (targetwrappers s !! k) as [a|] eqn:Ha;
      destruct (targetwrappers s' !! k) as [b|] eqn:Hb; try done.
    destruct Hsame as [Heq _]. split; [done|].
    by destruct (Hraised k a b Ha Hb) as [H _].
  - intros td d dw Htd Hd Hdw. by apply (Hpushed w td d dw).
Qed.

Lemma updatePriority_effect_witness :
  exists s',
    updatePriority id 4 "/out/w" ex_resolved = Ok s'
    /\ _targetGroups s' = _targetGroups ex_resolved
    /\ targetwrappers s' !! "/out/w" = Some ex_wrapper_w.
Proof.
  destruct (updatePriority_effect id ex_resolved "/out/w" ex_wrapper_w)
    as (s' & Hrun & Hg & _ & Hself & _).
  - unfold resolved_closed. apply (bool_decide_unpack _). vm_compute. reflexivity.
  - vm_compute. reflexivity.
  - exists s'. split; [exact Hrun|]. split; [exact Hg | exact Hself].
Defined.

(** ** The constructor of [CustomCommand], when it returns *)

(** X12. The constructor returns exactly when [BaseTarget.__init__] and
    [PathSet(...)] return and, if [redirectStdOutToTarget] is set, the
    name of the target is no directory path and no [stdout] that is not
    empty is given; the target it returns holds the arguments as given.
    Without [redirectStdOutToTarget] a directory target and a [stdout]
    are both accepted. *)
Theorem CustomCommand_constructed (Command Env : Type)
    (BaseTarget__init__ : string -> list string -> result BaseTarget.t)
    (PathSet__init__ : list string -> result PathSet)
    (target : string) (command : Command) (dependencies : list string)
    (cwd : option string) (redirectStdOutToTarget : bool) (env : option Env)
    (stdout stderr : option string) (t : CustomCommand.t Command Env) :
  CustomCommand.__init__ Command Env BaseTarget__init__ PathSet__init__
    target command dependencies cwd redirectStdOutToTarget env stdout stderr = Ok t
  <-> exists base deps,
        BaseTarget__init__ target dependencies = Ok base
        /\ PathSet__init__ dependencies = Ok deps
        /\ (redirectStdOutToTarget = true ->
            fileutils.isDirPath target = false /\ CustomCommand.truthy_str stdout = false)
        /\ t = CustomCommand.mk Command Env base command cwd deps redirectStdOutToTarget
                 env stdout stderr.
Proof.
  unfold CustomCommand.__init__.
  destruct (BaseTarget__init__ target dependencies) as [base|e1]; simpl.
  2:{ split; [done|]. by intros (? & ? & [=] & _). }
  destruct (PathSet__init__ dependencies) as [deps|e2]; simpl.
  2:{ split; [done|]. by intros (? & ? & _ & [=] & _). }
  destruct redirectStdOutToTarget, (fileutils.isDirPath target),
    (CustomCommand.truthy_str stdout); simpl; split;
    try (intros [= <-]; exists base, deps; repeat split; done);
    try (intros (? & ? & [= <-] & [= <-] & Hc & ->); done);
    try (intros (? & ? & _ & _ & Hc & _); destruct (Hc eq_refl); done);
    try done.
Qed.

(** ** A build that fails *)

Lemma exists_deleteFile tLPS fs path :
  fileutils.exists_ tLPS (fileutils.deleteFile tLPS path fs) path = false.
Proof.
  unfold fileutils.exists_, fileutils.getstat, fileutils.deleteFile. simpl.
  by rewrite lookup_delete_eq.
Qed.

(** X18. A build that fails is not taken for up to date. When the recipe
    of the target raises and has left the implicit inputs file alone,
    [run] raises the same exception, with the implicit inputs file
    deleted and not written again; and [uptodate(context, False)] then
    returns [False] on the files the failed build left. *)
Theorem failed_run_not_uptodate (os : platform) (tLPS : string -> string)
    (fsub : Q -> Q -> Q) (env : option string) (py_int : string -> result Z)
    (target_run : BaseTarget.t -> filesystem -> filesystem * result unit)
    (dirname : string -> string) (self : string) (fs fs' : filesystem)
    (s s1 : Scheduler) (w : TargetWrapper.t) (ii : list string) (e : exn) :
  targetwrappers s !! self = Some w ->
  __getImplicitInputs os self s = Ok (ii, s1) ->
  truthy ii = true \/ TargetWrapper.isDirPath w = true ->
  target_run (TargetWrapper.target w)
    (fileutils.deleteFile tLPS (TargetWrapper.__implicitInputsFile w) fs) = (fs', Raise e) ->
  fileutils.getstat tLPS fs' (TargetWrapper.__implicitInputsFile w)
  = fileutils.getstat tLPS
      (fileutils.deleteFile tLPS (TargetWrapper.__implicitInputsFile w) fs)
      (TargetWrapper.__implicitInputsFile w) ->
  run os tLPS target_run dirname self fs s = (fs', Raise e)
  /\ fileutils.exists_ tLPS fs' (TargetWrapper.__implicitInputsFile w) = false
  /\ exists s2 log, uptodate os tLPS fsub env py_int self fs' false s1 = Ok (false, s2, log).
Proof.
  intros Hw Hget Hcond Hrun Hkeep.
  pose proof (getImplicitInputs_lookup os self s ii s1 self Hget) as Hself.
  rewrite Hw in Hself.
  destruct (targetwrappers s1 !! self) as [w1|] eqn:Hw1; [|done].
  assert (TargetWrapper.target w1 = TargetWrapper.target w
          /\ TargetWrapper.isDirPath w1 = TargetWrapper.isDirPath w
          /\ TargetWrapper.__implicitInputsFile w1 = TargetWrapper.__implicitInputsFile w)
    as (Ht & Hd & Hi).
  { destruct Hself as [->| ->]; [done|by destruct w]. }
  assert (truthy ii || TargetWrapper.isDirPath w = true) as Hor.
  { destruct Hcond as [-> | ->]; [done|by rewrite orb_true_r]. }
  assert (fileutils.exists_ tLPS fs' (TargetWrapper.__implicitInputsFile w) = false)
    as Hgone.
  { pose proof (exists_deleteFile tLPS fs (TargetWrapper.__implicitInputsFile w)) as Hdel.
    unfold fileutils.exists_ in *. by rewrite Hkeep. }
  split; [|split; [exact Hgone|]].
  - unfold run. rewrite Hget. unfold deref, getitem. rewrite Hw1. simpl.
    rewrite Hd, Hi, Ht, Hor, Hrun. done.
  - unfold uptodate, deref, getitem. rewrite Hw1. simpl.
    destruct (TargetWrapper.__isdirty w1); [eauto|].
    destruct (fileutils.exists_ tLPS fs' (TargetWrapper.path w1)); simpl; [|eauto].
    destruct (fileutils.isfile tLPS fs' (TargetWrapper.stampfile w1)); simpl; [|eauto].
    rewrite (getImplicitInputs_cached os self s ii s1 Hget). simpl.
    rewrite Hw1. simpl. unfold implicitInputsChanged.
    rewrite Hd, Hi, Hor, Hgone. simpl. eauto.
Qed.

Lemma failed_run_not_uptodate_witness :
  run Posix id ex_target_run_fails ex_dirname "/out/w" ex_fs_built ex_resolved_w
  = (fileutils.deleteFile id "/work/targets/implicit-inputs/w.txt" ex_fs_built,
     Raise (BuildException "recipe failed"))
  /\ fileutils.exists_ id
       (fileutils.deleteFile id "/work/targets/implicit-inputs/w.txt" ex_fs_built)
       "/work/targets/implicit-inputs/w.txt" = false
  /\ exists s2 log,
       uptodate Posix id Qminus None ex_int "/out/w"
         (fileutils.deleteFile id "/work/targets/implicit-inputs/w.txt" ex_fs_built)
         false ex_fingerprint_w.2 = Ok (false, s2, log).
Proof.
  apply (failed_run_not_uptodate Posix id Qminus None ex_int ex_target_run_fails ex_dirname "/out/w"
           ex_fs_built
           (fileutils.deleteFile id "/work/targets/implicit-inputs/w.txt" ex_fs_built)
           ex_resolved_w ex_fingerprint_w.2 ex_wrapper_w ex_fingerprint_w.1
           (BuildException "recipe failed")).
  - vm_compute. reflexivity.
  - vm_compute. reflexivity.
  - left. vm_compute. reflexivity.
  - vm_compute. reflexivity.
  - vm_compute. reflexivity.
Defined.
